(** * Bulk employee onboarding pipeline

    A shallow embedding of the [BulkOnboardingService] class of
    [src/services/claude-ai.js] (lines 1766-2519), of the status route of
    [src/routes/analytics.js] and of the [app_assignments] table of
    [src/database/schema.sql], together with the properties of the
    onboarding specification that were checked against them.

    Conventions.
    - A JSON value of unknown shape (the AI's answer, the upload options, a
      recommendation) is a [JVal]; an object is a finite map from property
      names to values, and a property that is [undefined] is an absent key.
    - Redis holds the JSON documents the service writes, as records of
      optional properties ([Doc]); [JSON.parse (JSON.stringify v)] is [v].
    - Every [async] method is a state transformer on a [World] (Redis, the
      SQL tables, the Bull queue, the AI endpoint, the wall clock); an
      exception is the outcome [Throw]. Calls to [logger] are left out: they
      neither change the world nor the control flow. *)

From Stdlib Require Import ZArith List Bool Ascii String Lia.
From stdpp Require Import base option gmap strings list fin_maps pretty.

Open Scope string_scope.
Open Scope list_scope.
Open Scope Z_scope.

(** ** JSON values *)

#[warnings="-register-all"]
Inductive JVal : Type :=
| JNull
| JBool (b : bool)
| JNum (z : Z)
| JStr (s : string)
| JArr (l : list JVal)
| JObj (m : gmap string JVal).

(** [v.p] for a value that is not [null]; [None] is [undefined]. Only
    objects carry the properties read by the service. *)
Definition prop (v : JVal) (p : string) : option JVal :=
  match v with
  | JObj m => m !! p
  | _ => None
  end.

(** JavaScript truthiness. *)
Definition truthy (v : JVal) : bool :=
  match v with
  | JNull => false
  | JBool b => b
  | JNum z => negb (z =? 0)
  | JStr s => negb (String.eqb s "")
  | JArr _ => true
  | JObj _ => true
  end.

Definition truthy_opt (o : option JVal) : bool :=
  match o with
  | Some v => truthy v
  | None => false
  end.

(** Truthiness of a string-or-undefined field. *)
Definition truthy_str (o : option string) : bool :=
  match o with
  | Some s => negb (String.eqb s "")
  | None => false
  end.

(** ** Strings *)

(** [String.prototype.toLowerCase] on the ASCII letters. None of the
    literals the service compares against contains a letter that a
    non-ASCII character lower-cases to. *)
Definition lower_ascii (c : ascii) : ascii :=
  let n := nat_of_ascii c in
  if (Nat.leb 65 n && Nat.leb n 90)%bool then ascii_of_nat (n + 32) else c.

Fixpoint toLowerCase (s : string) : string :=
  match s with
  | EmptyString => EmptyString
  | String c r => String (lower_ascii c) (toLowerCase r)
  end.

(** [s.includes(t)]. *)
Fixpoint includes (s t : string) : bool :=
  if String.prefix t s then true
  else match s with
       | EmptyString => false
       | String _ r => includes r t
       end.

(** [arr.includes(s)] for an array of string literals. *)
Definition arr_includes (arr : list string) (s : string) : bool :=
  existsb (String.eqb s) arr.

(** [arr.join(', ')]. *)
Fixpoint join (sep : string) (l : list string) : string :=
  match l with
  | [] => ""
  | [x] => x
  | x :: r => x +:+ sep +:+ join sep r
  end.

(** ** Outcomes *)

Inductive Outcome (A : Type) : Type :=
| Ok (a : A)
| Throw (msg : string)
| Diverge.
Arguments Ok {A} a.
Arguments Throw {A} msg.
Arguments Diverge {A}.

(** ** Employee records, as [normalizeEmployeeData] builds them *)

Record Employee := {
  email : option string;
  employeeId : option string;
  firstName : option string;
  lastName : option string;
  department : option string;
  role : option string;
  managerId : option string;
  location : option string;
  birthYear : option Z;            (* [None]: null or NaN *)
  age : option Z;                  (* [None]: null or NaN *)
  gender : option string;
  maritalStatus : option string;
  hasDependents : bool;
  includeSpouse : bool;
  spouseEmail : option string;
  healthConditions : option (list string);
  stressLevel : option string;
  customFields : gmap string string;
  rowIndex : option nat            (* set by [validateEmployeeData] *)
}.

(** ** Recommendations *)

Definition validApps : list string :=
  ["fertilitytracker"; "pregnancycompanion"; "postpartumsupport";
   "menowellness"; "supportpartner"; "myconfidant";
   "soberpal"; "innerarchitect"].

(** The object literal [{ app, reason, priority, includeSpouse }]. *)
Definition mkRecommendation (app reason priority : string) (spouse : bool) : JVal :=
  JObj (<["app" := JStr app]>
        (<["reason" := JStr reason]>
         (<["priority" := JStr priority]>
          (<["includeSpouse" := JBool spouse]> ∅)))).

(** [validApps.includes(rec.app)]; [rec.app] on [null] is a TypeError. *)
Definition rec_in_catalog (rec : JVal) : Outcome bool :=
  match rec with
  | JNull => Throw "Cannot read properties of null (reading 'app')"
  | _ => Ok (match prop rec "app" with
             | Some (JStr a) => arr_includes validApps a
             | _ => false
             end)
  end.

(** [recs.filter(rec => validApps.includes(rec.app))]. *)
Fixpoint filter_catalog (recs : list JVal) : Outcome (list JVal) :=
  match recs with
  | [] => Ok []
  | rec :: rest =>
      match rec_in_catalog rec with
      | Ok keep =>
          match filter_catalog rest with
          | Ok kept => Ok (if keep then rec :: kept else kept)
          | Throw e => Throw e
          | Diverge => Diverge
          end
      | Throw e => Throw e
      | Diverge => Diverge
      end
  end.

(** [arr.slice(0, n)]. *)
Definition slice0 {A} (n : nat) (l : list A) : list A := firstn n l.

Definition validateRecommendations (recommendations : JVal) : Outcome (list JVal) :=
  match recommendations with
  | JObj m =>
      match m !! "recommendations" with
      | Some (JArr recs) =>
          match filter_catalog recs with
          | Ok kept => Ok (slice0 3 kept)
          | Throw e => Throw e
          | Diverge => Diverge
          end
      | _ => Throw "Invalid recommendation format"
      end
  | _ => Throw "Invalid recommendation format"
  end.

(** [employee.age && employee.age < n] and [... > n]. *)
Definition age_lt (e : Employee) (n : Z) : bool :=
  match age e with
  | Some a => negb (a =? 0) && (a <? n)
  | None => false
  end.

Definition age_gt (e : Employee) (n : Z) : bool :=
  match age e with
  | Some a => negb (a =? 0) && (a >? n)
  | None => false
  end.

Definition str_is (o : option string) (lit : string) : bool :=
  match o with
  | Some s => String.eqb s lit
  | None => false
  end.

Definition high_stress_department (e : Employee) : bool :=
  match department e with
  | Some d => negb (String.eqb d "") &&
              arr_includes ["sales"; "executive"; "finance"] (toLowerCase d)
  | None => false
  end.

Definition addiction_condition (e : Employee) : bool :=
  match healthConditions e with
  | Some cs =>
      existsb (fun condition =>
                 includes (toLowerCase condition) "addiction" ||
                 includes (toLowerCase condition) "alcohol") cs
  | None => false
  end.

Definition getFallbackRecommendations (employee : Employee) : list JVal :=
  let r1 :=
    if age_lt employee 35 && str_is (maritalStatus employee) "married"
    then [mkRecommendation "fertilitytracker"
            "Young married couple - fertility planning" "high" true]
    else [] in
  let r2 :=
    if age_gt employee 45 && str_is (gender employee) "female"
    then mkRecommendation "menowellness"
           "Perimenopausal/menopausal age range" "high" false
         :: (if includeSpouse employee
             then [mkRecommendation "supportpartner"
                     "Partner support during menopause transition" "medium" true]
             else [])
    else [] in
  let r3 :=
    if high_stress_department employee
    then [mkRecommendation "innerarchitect"
            "High-stress department - personal development" "medium" false]
    else [] in
  let r4 :=
    if addiction_condition employee
    then [mkRecommendation "soberpal" "Addiction recovery support" "high" false]
    else [] in
  slice0 3 (r1 ++ r2 ++ r3 ++ r4).

(** ** Stored documents *)

(** A JSON document of the onboarding key space. The service writes objects
    with these properties and no others; a property left out is [None].
    Expiry (the 86400 s of [setex]) is not modelled. *)
Record Doc := {
  d_tenantId : option string;
  d_status : option string;
  d_startTime : option Z;
  d_filename : option string;
  d_fileSize : option Z;
  d_options : option JVal;
  d_totalEmployees : option Z;
  d_totalBatches : option Z;
  d_batchIds : option (list JVal);
  d_error : option string;
  d_lastUpdate : option Z;
  d_processedCount : option Z;
  d_successCount : option Z;
  d_processingTimeMs : option Z
}.

Definition empty_doc : Doc :=
  {| d_tenantId := None; d_status := None; d_startTime := None;
     d_filename := None; d_fileSize := None; d_options := None;
     d_totalEmployees := None; d_totalBatches := None; d_batchIds := None;
     d_error := None; d_lastUpdate := None; d_processedCount := None;
     d_successCount := None; d_processingTimeMs := None |}.

Definition or_else {A} (x y : option A) : option A :=
  match x with
  | Some _ => x
  | None => y
  end.

(** [{ ...base, ...upd }]: the properties of [upd] win. *)
Definition spread (base upd : Doc) : Doc :=
  {| d_tenantId := or_else (d_tenantId upd) (d_tenantId base);
     d_status := or_else (d_status upd) (d_status base);
     d_startTime := or_else (d_startTime upd) (d_startTime base);
     d_filename := or_else (d_filename upd) (d_filename base);
     d_fileSize := or_else (d_fileSize upd) (d_fileSize base);
     d_options := or_else (d_options upd) (d_options base);
     d_totalEmployees := or_else (d_totalEmployees upd) (d_totalEmployees base);
     d_totalBatches := or_else (d_totalBatches upd) (d_totalBatches base);
     d_batchIds := or_else (d_batchIds upd) (d_batchIds base);
     d_error := or_else (d_error upd) (d_error base);
     d_lastUpdate := or_else (d_lastUpdate upd) (d_lastUpdate base);
     d_processedCount := or_else (d_processedCount upd) (d_processedCount base);
     d_successCount := or_else (d_successCount upd) (d_successCount base);
     d_processingTimeMs := or_else (d_processingTimeMs upd) (d_processingTimeMs base) |}.

(** ** The world the service runs in *)

(** The object [rows[0]] of the company query, as the service holds it. Of
    its properties only [maxEmployees] is read; [None] is a property that is
    undefined, as on an object that carries the column under another
    name. *)
Record Tenant := {
  maxEmployees : option Z
}.

(** The columns of [tenant_main.employees] that the service queries. *)
Record EmployeeRow := {
  er_id : string;
  er_company_id : string;
  er_email : string
}.

(** [tenant_main.app_assignments]. *)
Record AssignmentRow := {
  as_id : nat;
  as_employee_id : string;
  as_app_name : string;
  as_access_level : string;
  as_app_config : JVal;
  as_status : string;
  as_assigned_to_spouse : bool;
  as_spouse_email : option string
}.

(** Statements sent through [database.query]. *)
Inductive SqlCall :=
| SelectCompany (tenantId : string)
| SelectEmployee (tenantId email : string)
| InsertAssignment (employee_id app_name : string).

(** A job added to the Bull queue ['employee processing']. *)
Record QueueJob := {
  job_name : string;
  job_tenantId : string;
  job_onboardingId : string;
  job_batchIndex : nat;
  job_employees : list Employee;
  job_options : JVal;
  job_delay : Z;
  job_attempts : Z;
  job_backoff : string
}.

(** What one call of [claudeAIService.getAppRecommendations] does: it
    throws, or returns the parsed JSON of the model's answer. *)
Inductive AIReply :=
| AIError (msg : string)
| AIResponse (v : JVal).

Record World := {
  redis_connected : bool;
  redis : gmap string Doc;
  db_connected : bool;
  companies : gmap string Tenant;
  employees : list EmployeeRow;
  app_assignments : list AssignmentRow;
  next_id : nat;                       (* source of [uuid_generate_v4()] *)
  db_queries : list SqlCall;           (* statements issued so far *)
  employeeQueue : list QueueJob;
  ai_reply : nat -> AIReply;           (* the n-th call of the AI endpoint *)
  ai_calls : nat;
  clock : nat -> Z;                    (* the n-th reading of [Date.now()] *)
  ticks : nat
}.

Definition set_redis (r : gmap string Doc) (w : World) : World :=
  {| redis_connected := redis_connected w; redis := r;
     db_connected := db_connected w; companies := companies w;
     employees := employees w; app_assignments := app_assignments w;
     next_id := next_id w; db_queries := db_queries w;
     employeeQueue := employeeQueue w; ai_reply := ai_reply w;
     ai_calls := ai_calls w; clock := clock w; ticks := ticks w |}.

Definition set_assignments (rows : list AssignmentRow) (n : nat) (w : World) : World :=
  {| redis_connected := redis_connected w; redis := redis w;
     db_connected := db_connected w; companies := companies w;
     employees := employees w; app_assignments := rows;
     next_id := n; db_queries := db_queries w;
     employeeQueue := employeeQueue w; ai_reply := ai_reply w;
     ai_calls := ai_calls w; clock := clock w; ticks := ticks w |}.

Definition log_query (q : SqlCall) (w : World) : World :=
  {| redis_connected := redis_connected w; redis := redis w;
     db_connected := db_connected w; companies := companies w;
     employees := employees w; app_assignments := app_assignments w;
     next_id := next_id w; db_queries := db_queries w ++ [q];
     employeeQueue := employeeQueue w; ai_reply := ai_reply w;
     ai_calls := ai_calls w; clock := clock w; ticks := ticks w |}.

Definition set_queue (q : list QueueJob) (w : World) : World :=
  {| redis_connected := redis_connected w; redis := redis w;
     db_connected := db_connected w; companies := companies w;
     employees := employees w; app_assignments := app_assignments w;
     next_id := next_id w; db_queries := db_queries w;
     employeeQueue := q; ai_reply := ai_reply w;
     ai_calls := ai_calls w; clock := clock w; ticks := ticks w |}.

Definition set_ai_calls (n : nat) (w : World) : World :=
  {| redis_connected := redis_connected w; redis := redis w;
     db_connected := db_connected w; companies := companies w;
     employees := employees w; app_assignments := app_assignments w;
     next_id := next_id w; db_queries := db_queries w;
     employeeQueue := employeeQueue w; ai_reply := ai_reply w;
     ai_calls := n; clock := clock w; ticks := ticks w |}.

Definition set_ticks (n : nat) (w : World) : World :=
  {| redis_connected := redis_connected w; redis := redis w;
     db_connected := db_connected w; companies := companies w;
     employees := employees w; app_assignments := app_assignments w;
     next_id := next_id w; db_queries := db_queries w;
     employeeQueue := employeeQueue w; ai_reply := ai_reply w;
     ai_calls := ai_calls w; clock := clock w; ticks := n |}.

(** ** The monad of [async] methods *)

Definition M (A : Type) : Type := World -> Outcome A * World.

Definition ret {A} (a : A) : M A := fun w => (Ok a, w).

Definition bind {A B} (m : M A) (k : A -> M B) : M B :=
  fun w =>
    match m w with
    | (Ok a, w') => k a w'
    | (Throw e, w') => (Throw e, w')
    | (Diverge, w') => (Diverge, w')
    end.

Definition throw {A} (msg : string) : M A := fun w => (Throw msg, w).

(** [try { m } catch (error) { h error.message }]. *)
Definition try_catch {A} (m : M A) (h : string -> M A) : M A :=
  fun w =>
    match m w with
    | (Throw e, w') => h e w'
    | r => r
    end.

Definition lift {A} (o : Outcome A) : M A := fun w => (o, w).

Notation "x <- m ;; k" := (bind m (fun x => k))
  (at level 100, m at next level, right associativity).
Notation "m ;;; k" := (bind m (fun _ => k))
  (at level 100, right associativity).

(** [Date.now()]. *)
Definition date_now : M Z :=
  fun w => (Ok (clock w (ticks w)), set_ticks (S (ticks w)) w).

(** ** Redis client ([src/utils/redis.js]) *)

(** [redisClient.get]: [null] when the key is absent or Redis is down. *)
Definition redis_get (key : string) : M (option Doc) :=
  fun w => (Ok (if redis_connected w then redis w !! key else None), w).

(** [redisClient.setex]: errors are swallowed and reported as [false]. *)
Definition redis_setex (key : string) (seconds : Z) (value : Doc) : M bool :=
  fun w =>
    if redis_connected w
    then (Ok true, set_redis (<[key := value]> (redis w)) w)
    else (Ok false, w).

(** ** Database ([src/utils/database.js], [src/database/schema.sql]) *)

(** [database.query]: the statement is issued, and fails when the pool is
    not connected. *)
Definition db_query (q : SqlCall) : M unit :=
  fun w =>
    if db_connected w
    then (Ok tt, log_query q w)
    else (Throw "Database not connected", log_query q w).

Definition same_pair (employee_id app_name : string) (r : AssignmentRow) : bool :=
  String.eqb (as_employee_id r) employee_id && String.eqb (as_app_name r) app_name.

(** [INSERT INTO tenant_main.app_assignments (employee_id, app_name,
    access_level, app_config, status, provisioned_at) ... RETURNING ...]
    under the constraints of the table: [valid_app_name],
    [unique_employee_app] and the foreign key to [employees]. *)
Definition insert_assignment (employee_id app_name access_level : string)
    (app_config : JVal) : M AssignmentRow :=
  fun w =>
    if negb (arr_includes validApps app_name)
    then (Throw "violates check constraint valid_app_name", w)
    else if existsb (same_pair employee_id app_name) (app_assignments w)
    then (Throw "duplicate key value violates unique constraint unique_employee_app", w)
    else if negb (existsb (fun e => String.eqb (er_id e) employee_id) (employees w))
    then (Throw "violates foreign key constraint", w)
    else
      let row := {| as_id := next_id w;
                    as_employee_id := employee_id;
                    as_app_name := app_name;
                    as_access_level := access_level;
                    as_app_config := app_config;
                    as_status := "active";
                    as_assigned_to_spouse := false;
                    as_spouse_email := None |} in
      (Ok row, set_assignments (app_assignments w ++ [row]) (S (next_id w)) w).

(** ** BulkOnboardingService *)

Definition batchSize : nat := 1000.

Record Assignment := {
  a_id : nat;
  a_app_name : string;
  a_access_level : string
}.

(** [{ priority, reason, autoProvisioned: true }] after [JSON.stringify]:
    an undefined property is dropped. *)
Definition appConfig (recommendation : JVal) : JVal :=
  let put k (o : option JVal) (m : gmap string JVal) :=
    match o with
    | Some v => <[k := v]> m
    | None => m
    end in
  JObj (put "priority" (prop recommendation "priority")
         (put "reason" (prop recommendation "reason")
           (<["autoProvisioned" := JBool true]> ∅))).

Definition createAppAssignment (tenantId employeeId : string)
    (recommendation : JVal) : M Assignment :=
  match recommendation with
  | JNull => throw "Cannot read properties of null (reading 'priority')"
  | _ =>
      match prop recommendation "app" with
      | Some (JStr app) =>
          _ <- db_query (InsertAssignment employeeId app) ;;
          row <- insert_assignment employeeId app "basic" (appConfig recommendation) ;;
          ret {| a_id := as_id row;
                 a_app_name := as_app_name row;
                 a_access_level := as_access_level row |}
      | _ =>
          (* no other value passes NOT NULL and [valid_app_name] *)
          _ <- db_query (InsertAssignment employeeId "") ;;
          throw "violates check constraint valid_app_name"
      end
  end.

(** [BulkOnboardingService] declares no method [createSpouseAppAssignment]
    (nor does any of its prototypes): the call made by [provisionAppAccess]
    is a call of [undefined]. *)
Definition createSpouseAppAssignment (tenantId employeeId : string)
    (rec : JVal) (spouseEmail : string) : M Assignment :=
  throw "this.createSpouseAppAssignment is not a function".

(** The [catch] block of [provisionAppAccess]: it only logs, reading
    [rec.app] on the way. *)
Definition provision_catch {A} (rec : JVal) (fallback : A) (error : string) : M A :=
  match rec with
  | JNull => throw "Cannot read properties of null (reading 'app')"
  | _ => ret fallback
  end.

(** One turn of the loop of [provisionAppAccess], from the array
    [assignments] built so far to the array after the turn. The two calls
    are the only places of the [try] block that can throw, so the block is
    split at the first [push]. *)
Definition provision_one (tenantId employeeId : string) (employee : Employee)
    (assignments : list Assignment) (rec : JVal) : M (list Assignment) :=
  r <- try_catch (a <- createAppAssignment tenantId employeeId rec ;; ret (Some a))
                 (provision_catch rec None) ;;
  match r with
  | None => ret assignments
  | Some assignment =>
      let assignments := assignments ++ [assignment] in
      if truthy_opt (prop rec "includeSpouse") && truthy_str (spouseEmail employee)
      then try_catch
             (spouseAssignment <-
                createSpouseAppAssignment tenantId employeeId rec
                  (default "" (spouseEmail employee)) ;;
              ret (assignments ++ [spouseAssignment]))
             (provision_catch rec assignments)
      else ret assignments
  end.

Fixpoint provision_loop (tenantId employeeId : string) (employee : Employee)
    (assignments : list Assignment) (recommendations : list JVal)
    : M (list Assignment) :=
  match recommendations with
  | [] => ret assignments
  | rec :: rest =>
      assignments <- provision_one tenantId employeeId employee assignments rec ;;
      provision_loop tenantId employeeId employee assignments rest
  end.

Definition provisionAppAccess (tenantId employeeId : string)
    (recommendations : list JVal) (employee : Employee) : M (list Assignment) :=
  provision_loop tenantId employeeId employee [] recommendations.

(** [claudeAIService.getAppRecommendations]: one request to the endpoint. *)
Definition claude_getAppRecommendations : M JVal :=
  fun w =>
    let w' := set_ai_calls (S (ai_calls w)) w in
    match ai_reply w (ai_calls w) with
    | AIError msg => (Throw msg, w')
    | AIResponse v => (Ok v, w')
    end.

Definition getAppRecommendations (employee : Employee) (tenantId : string)
    : M (list JVal) :=
  try_catch
    (recommendations <- claude_getAppRecommendations ;;
     lift (validateRecommendations recommendations))
    (fun _ => ret (getFallbackRecommendations employee)).

(** *** Validation *)

(** The class [\s] on the characters below U+0100. *)
Definition is_space (c : ascii) : bool :=
  let n := nat_of_ascii c in
  (Nat.leb 9 n && Nat.leb n 13) || Nat.eqb n 32 || Nat.eqb n 160.

(** The class [[^\s@]]. *)
Definition plain (c : ascii) : bool :=
  negb (is_space c) && negb (Ascii.eqb c "@").

Fixpoint all_plain (s : string) : bool :=
  match s with
  | EmptyString => true
  | String c r => plain c && all_plain r
  end.

(** Some ['.'] of [s] is followed by at least one more character. *)
Fixpoint dot_before_end (s : string) : bool :=
  match s with
  | String c (String _ _ as r) => Ascii.eqb c "." || dot_before_end r
  | _ => false
  end.

(** [s] matches [[^\s@]+\.[^\s@]+$]: plain characters only, with a dot
    that is neither the first nor the last of them. *)
Definition domain_shape (s : string) : bool :=
  match s with
  | String _ r => all_plain s && dot_before_end r
  | EmptyString => false
  end.

(** [s] matches [[^\s@]*@[^\s@]+\.[^\s@]+$]. *)
Fixpoint local_then_domain (s : string) : bool :=
  match s with
  | EmptyString => false
  | String c r =>
      if Ascii.eqb c "@" then domain_shape r
      else plain c && local_then_domain r
  end.

(** [/^[^\s@]+@[^\s@]+\.[^\s@]+$/.test(email)]. *)
Definition isValidEmail (email : string) : bool :=
  match email with
  | EmptyString => false
  | String c r => plain c && local_then_domain r
  end.

Record InvalidEmployee := {
  ie_rowIndex : nat;
  ie_employee : Employee;
  ie_errors : list string
}.

Record ValidationResult := {
  validEmployees : list Employee;
  invalidEmployees : list InvalidEmployee;
  errors : list string
}.

(** [{ ...employee, rowIndex: n }]. *)
Definition with_rowIndex (e : Employee) (n : nat) : Employee :=
  {| email := email e; employeeId := employeeId e; firstName := firstName e;
     lastName := lastName e; department := department e; role := role e;
     managerId := managerId e; location := location e;
     birthYear := birthYear e; age := age e; gender := gender e;
     maritalStatus := maritalStatus e; hasDependents := hasDependents e;
     includeSpouse := includeSpouse e; spouseEmail := spouseEmail e;
     healthConditions := healthConditions e; stressLevel := stressLevel e;
     customFields := customFields e; rowIndex := Some n |}.

Definition getTenantConfig (tenantId : string) : M (option Tenant) :=
  _ <- db_query (SelectCompany tenantId) ;;
  fun w => (Ok (companies w !! tenantId), w).

Definition checkExistingEmployee (tenantId email : string) : M (option EmployeeRow) :=
  _ <- db_query (SelectEmployee tenantId email) ;;
  fun w =>
    (Ok (head (filter (fun r => String.eqb (er_company_id r) tenantId &&
                                String.eqb (er_email r) email = true)
                      (employees w))), w).

(** The [if / else if] chain on [employee.email], with the set of e-mails
    seen so far. *)
Definition email_rule (employee : Employee) (emailSet : gset string)
    : list string * gset string :=
  if negb (truthy_str (email employee)) then (["Email is required"], emailSet)
  else
    let e := default "" (email employee) in
    if negb (isValidEmail e) then (["Invalid email format"], emailSet)
    else if bool_decide (e ∈ emailSet) then (["Duplicate email address"], emailSet)
    else ([], {[e]} ∪ emailSet).

Definition name_rules (employee : Employee) : list string :=
  (if negb (truthy_str (firstName employee)) then ["First name is required"] else []) ++
  (if negb (truthy_str (lastName employee)) then ["Last name is required"] else []).

(** [if (employee.email) { ... checkExistingEmployee ... }]. *)
Definition existing_rule (tenantId : string) (employee : Employee) : M (list string) :=
  if truthy_str (email employee)
  then
    existingEmployee <- checkExistingEmployee tenantId (default "" (email employee)) ;;
    ret (match existingEmployee with
         | Some _ => ["Employee already exists"]
         | None => []
         end)
  else ret [].

(** [tenant.maxEmployees && validEmployees.length >= tenant.maxEmployees],
    where [tenant] is [rows[0]] of the company query. *)
Definition capacity_rule (tenant : option Tenant) (validEmployees : list Employee)
    : M (list string) :=
  match tenant with
  | None => throw "Cannot read properties of undefined (reading 'maxEmployees')"
  | Some t =>
      ret (match maxEmployees t with
           | Some m =>
               if negb (m =? 0) && (Z.of_nat (length validEmployees) >=? m)
               then ["Exceeds tenant employee limit"]
               else []
           | None => []
           end)
  end.

(** The loop state: [validEmployees], [invalidEmployees], [errors],
    [emailSet]. *)
Record ValidationState := {
  vs_result : ValidationResult;
  vs_emailSet : gset string
}.

(** The body of the [for] loop of [validateEmployeeData] at row [index]. *)
Definition validate_row (tenantId : string) (tenant : option Tenant)
    (st : ValidationState) (index : nat) (employee : Employee) : M ValidationState :=
  let '(e1, emailSet) := email_rule employee (vs_emailSet st) in
  let e2 := name_rules employee in
  e3 <- existing_rule tenantId employee ;;
  e4 <- capacity_rule tenant (validEmployees (vs_result st)) ;;
  let rowErrors := e1 ++ e2 ++ e3 ++ e4 in
  let r := vs_result st in
  let n := (index + 2)%nat in
  ret {| vs_emailSet := emailSet;
         vs_result :=
           match rowErrors with
           | [] =>
               {| validEmployees := validEmployees r ++ [with_rowIndex employee n];
                  invalidEmployees := invalidEmployees r;
                  errors := errors r |}
           | _ =>
               {| validEmployees := validEmployees r;
                  invalidEmployees :=
                    invalidEmployees r ++
                    [{| ie_rowIndex := n; ie_employee := employee;
                        ie_errors := rowErrors |}];
                  errors := errors r ++
                    ["Row " +:+ pretty n +:+ ": " +:+ join ", " rowErrors] |}
           end |}.

Fixpoint validate_rows (tenantId : string) (tenant : option Tenant)
    (st : ValidationState) (index : nat) (employees : list Employee)
    : M ValidationState :=
  match employees with
  | [] => ret st
  | employee :: rest =>
      st' <- validate_row tenantId tenant st index employee ;;
      validate_rows tenantId tenant st' (S index) rest
  end.

Definition validateEmployeeData (employees : list Employee) (tenantId : string)
    : M ValidationResult :=
  tenant <- getTenantConfig tenantId ;;
  st <- validate_rows tenantId tenant
          {| vs_result := {| validEmployees := []; invalidEmployees := [];
                             errors := [] |};
             vs_emailSet := ∅ |}
          0%nat employees ;;
  ret (vs_result st).

(** *** Batching *)

(** [array.slice(i, j)] for [0 <= i <= j]. *)
Definition slice {A} (i j : nat) (array : list A) : list A :=
  firstn (j - i) (skipn i array).

(** The [for] loop of [createBatches], entered with counter [i] and the
    batches pushed so far. Each unit of fuel pays for one test of
    [i < array.length]; [None] is a loop that is still running when the fuel
    is spent. *)
Fixpoint createBatches_loop {A} (fuel : nat) (array : list A) (batchSize i : nat)
    (batches : list (list A)) : option (list (list A)) :=
  match fuel with
  | O => None
  | S fuel' =>
      if (i <? length array)%nat
      then createBatches_loop fuel' array batchSize (i + batchSize)%nat
             (batches ++ [slice i (i + batchSize) array])
      else Some batches
  end.

Definition createBatches {A} (array : list A) (batchSize : nat)
    : option (list (list A)) :=
  createBatches_loop (S (length array)) array batchSize 0 [].

(** *** Onboarding sessions and batch status in Redis *)

Definition session_key (onboardingId : string) : string :=
  "onboarding:" +:+ onboardingId.

Definition batch_key (onboardingId : string) (batchIndex : nat) : string :=
  "batch:" +:+ onboardingId +:+ ":" +:+ pretty batchIndex.

Definition createOnboardingSession (tenantId onboardingId : string) (data : Doc)
    : M unit :=
  now <- date_now ;;
  _ <- redis_setex (session_key onboardingId) 86400
         (spread {| d_tenantId := Some tenantId; d_status := Some "started";
                    d_startTime := Some now;
                    d_filename := None; d_fileSize := None; d_options := None;
                    d_totalEmployees := None; d_totalBatches := None;
                    d_batchIds := None; d_error := None; d_lastUpdate := None;
                    d_processedCount := None; d_successCount := None;
                    d_processingTimeMs := None |}
                 data) ;;
  ret tt.

Definition with_lastUpdate (d : Doc) (now : Z) : Doc :=
  spread d {| d_tenantId := None; d_status := None; d_startTime := None;
              d_filename := None; d_fileSize := None; d_options := None;
              d_totalEmployees := None; d_totalBatches := None;
              d_batchIds := None; d_error := None; d_lastUpdate := Some now;
              d_processedCount := None; d_successCount := None;
              d_processingTimeMs := None |}.

Definition updateOnboardingSession (tenantId onboardingId : string) (updates : Doc)
    : M unit :=
  existing <- redis_get (session_key onboardingId) ;;
  match existing with
  | Some session =>
      now <- date_now ;;
      _ <- redis_setex (session_key onboardingId) 86400
             (with_lastUpdate (spread session updates) now) ;;
      ret tt
  | None => ret tt
  end.

Definition updateBatchStatus (tenantId onboardingId : string) (batchIndex : nat)
    (status : Doc) : M unit :=
  _ <- redis_setex (batch_key onboardingId batchIndex) 86400 status ;;
  ret tt.

(** *** Upload *)

(** The uploaded buffer, by what the csv-parser stream makes of it: an
    ['error'] event, or the rows, each already passed through
    [normalizeEmployeeData]. *)
Inductive CsvBuffer :=
| CsvError (message : string)
| CsvRows (rows : list Employee).

Record CsvFile := {
  originalname : string;
  size : Z;
  buffer : CsvBuffer
}.

Definition parseCSV (csvBuffer : CsvBuffer) : M (list Employee) :=
  match csvBuffer with
  | CsvError message => throw ("CSV parsing failed: " +:+ message)
  | CsvRows rows => ret rows
  end.

Record UploadResponse := {
  r_onboardingId : string;
  r_status : string;
  r_totalEmployees : nat;
  r_totalBatches : nat;
  r_invalidRecords : nat;
  r_processingTimeMs : Z;
  r_estimatedCompletionTime : Z
}.

Definition estimateCompletionTime (employeeCount : nat) : M Z :=
  let estimatedSeconds := Z.of_nat employeeCount * 5 in
  now <- date_now ;;
  ret (now + estimatedSeconds * 1000).

(** [this.employeeQueue.add('process-employee-batch', data, opts)]. *)
Definition queue_add (job : QueueJob) : M unit :=
  fun w => (Ok tt, set_queue (employeeQueue w ++ [job]) w).

(** [batches.map((batch, index) => this.employeeQueue.add(...))], from
    index [index] on. *)
Fixpoint enqueue_batches (tenantId onboardingId : string) (options : JVal)
    (index : nat) (batches : list (list Employee)) : M unit :=
  match batches with
  | [] => ret tt
  | batch :: rest =>
      _ <- queue_add {| job_name := "process-employee-batch";
                        job_tenantId := tenantId;
                        job_onboardingId := onboardingId;
                        job_batchIndex := index;
                        job_employees := batch;
                        job_options := options;
                        job_delay := Z.of_nat index * 1000;
                        job_attempts := 3;
                        job_backoff := "exponential" |} ;;
      enqueue_batches tenantId onboardingId options (S index) rest
  end.

Definition session_data (csvFile : CsvFile) (options : JVal) : Doc :=
  spread empty_doc
    {| d_tenantId := None; d_status := None; d_startTime := None;
       d_filename := Some (originalname csvFile);
       d_fileSize := Some (size csvFile);
       d_options := Some options;
       d_totalEmployees := None; d_totalBatches := None; d_batchIds := None;
       d_error := None; d_lastUpdate := None; d_processedCount := None;
       d_successCount := None; d_processingTimeMs := None |}.

(** The update written once the batches are queued. [batchPromises] holds
    promises, whose [id] is undefined: [batchIds] is stored as nulls. *)
Definition processing_update (totalEmployees totalBatches : nat) : Doc :=
  spread empty_doc
    {| d_tenantId := None; d_status := Some "processing"; d_startTime := None;
       d_filename := None; d_fileSize := None; d_options := None;
       d_totalEmployees := Some (Z.of_nat totalEmployees);
       d_totalBatches := Some (Z.of_nat totalBatches);
       d_batchIds := Some (repeat JNull totalBatches);
       d_error := None; d_lastUpdate := None; d_processedCount := None;
       d_successCount := None; d_processingTimeMs := None |}.

Definition failed_update (message : string) : Doc :=
  spread empty_doc
    {| d_tenantId := None; d_status := Some "failed"; d_startTime := None;
       d_filename := None; d_fileSize := None; d_options := None;
       d_totalEmployees := None; d_totalBatches := None; d_batchIds := None;
       d_error := Some message; d_lastUpdate := None; d_processedCount := None;
       d_successCount := None; d_processingTimeMs := None |}.

Definition diverge {A} : M A := fun w => (Diverge, w).

(** The [try] block of [processCSVUpload]. *)
Definition upload_try (tenantId onboardingId : string) (csvFile : CsvFile)
    (options : JVal) (startTime : Z) : M UploadResponse :=
  _ <- createOnboardingSession tenantId onboardingId (session_data csvFile options) ;;
  employees <- parseCSV (buffer csvFile) ;;
  validationResult <- validateEmployeeData employees tenantId ;;
  match errors validationResult with
  | _ :: _ =>
      throw ("Validation failed: " +:+ join ", " (errors validationResult))
  | [] =>
      match createBatches (validEmployees validationResult) batchSize with
      | None => diverge
      | Some batches =>
          _ <- enqueue_batches tenantId onboardingId options 0%nat batches ;;
          _ <- updateOnboardingSession tenantId onboardingId
                 (processing_update (length (validEmployees validationResult))
                                    (length batches)) ;;
          now <- date_now ;;
          let processingTime := now - startTime in
          eta <- estimateCompletionTime (length (validEmployees validationResult)) ;;
          ret {| r_onboardingId := onboardingId;
                 r_status := "processing";
                 r_totalEmployees := length (validEmployees validationResult);
                 r_totalBatches := length batches;
                 r_invalidRecords := length (invalidEmployees validationResult);
                 r_processingTimeMs := processingTime;
                 r_estimatedCompletionTime := eta |}
      end
  end.

(** The [catch] block of [processCSVUpload]. *)
Definition upload_catch (tenantId onboardingId : string) (message : string)
    : M UploadResponse :=
  _ <- updateOnboardingSession tenantId onboardingId (failed_update message) ;;
  throw message.

Definition processCSVUpload (tenantId : string) (csvFile : CsvFile) (options : JVal)
    : M UploadResponse :=
  startTime <- date_now ;;
  stamp <- date_now ;;
  let onboardingId := "onboarding_" +:+ tenantId +:+ "_" +:+ pretty stamp in
  try_catch (upload_try tenantId onboardingId csvFile options startTime)
            (upload_catch tenantId onboardingId).

(** *** Status *)

Record OnboardingStatus := {
  sessionData : Doc;
  batchStatuses : list Doc;
  completedBatches : nat;
  totalProcessed : Z;
  totalSuccessful : Z
}.

(** The [for] loop of [getOnboardingStatus]: [n] turns left, counter [i]. *)
Fixpoint collect_batchStatuses (onboardingId : string) (n i : nat)
    (batchStatuses : list Doc) : M (list Doc) :=
  match n with
  | O => ret batchStatuses
  | S n' =>
      batchStatus <- redis_get (batch_key onboardingId i) ;;
      collect_batchStatuses onboardingId n' (S i)
        (match batchStatus with
         | Some b => batchStatuses ++ [b]
         | None => batchStatuses
         end)
  end.

Definition is_completed (b : Doc) : bool := str_is (d_status b) "completed".

Definition getOnboardingStatus (tenantId onboardingId : string) : M OnboardingStatus :=
  session <- redis_get (session_key onboardingId) ;;
  match session with
  | None => throw "Onboarding session not found"
  | Some sessionData =>
      batchStatuses <-
        collect_batchStatuses onboardingId
          (Z.to_nat (default 0 (d_totalBatches sessionData))) 0%nat [] ;;
      ret {| sessionData := sessionData;
             batchStatuses := batchStatuses;
             completedBatches := length (List.filter is_completed batchStatuses);
             totalProcessed :=
               fold_left (fun sum b => sum + default 0 (d_processedCount b))
                         batchStatuses 0;
             totalSuccessful :=
               fold_left (fun sum b => sum + default 0 (d_successCount b))
                         batchStatuses 0 |}
  end.

(** [GET /api/onboarding/status/:onboardingId]
    ([src/routes/analytics.js]); the progress percentage, a rounded
    floating-point quotient, is left out of the reply. *)
Record StatusReply := {
  sr_onboardingId : string;
  sr_status : option string;
  sr_completedBatches : nat;
  sr_totalBatches : option Z;
  sr_totalEmployees : option Z;
  sr_totalProcessed : Z;
  sr_totalSuccessful : Z;
  sr_totalFailed : Z;
  sr_batchDetails : list Doc
}.

Inductive HttpReply :=
| Json200 (body : StatusReply)
| Json404 (error : string).

Definition overallStatus (status : OnboardingStatus) : option string :=
  match d_totalBatches (sessionData status) with
  | Some totalBatches =>
      if (Z.of_nat (completedBatches status) =? totalBatches) && (totalBatches >? 0)
      then Some "completed"
      else d_status (sessionData status)
  | None => d_status (sessionData status)
  end.

Definition status_route (tenantId onboardingId : string) : M HttpReply :=
  try_catch
    (status <- getOnboardingStatus tenantId onboardingId ;;
     ret (Json200
            {| sr_onboardingId := onboardingId;
               sr_status := overallStatus status;
               sr_completedBatches := completedBatches status;
               sr_totalBatches := d_totalBatches (sessionData status);
               sr_totalEmployees := d_totalEmployees (sessionData status);
               sr_totalProcessed := totalProcessed status;
               sr_totalSuccessful := totalSuccessful status;
               sr_totalFailed := totalProcessed status - totalSuccessful status;
               sr_batchDetails := batchStatuses status |}))
    (fun message => ret (Json404 message)).

(** * Vocabulary of the properties *)

(** The recommendation names an app of the catalog. *)
Definition in_catalog (rec : JVal) : Prop :=
  exists app, prop rec "app" = Some (JStr app) /\ In app validApps.

Definition menowellness_rec : JVal :=
  mkRecommendation "menowellness" "Perimenopausal/menopausal age range" "high" false.

Definition supportpartner_rec : JVal :=
  mkRecommendation "supportpartner"
    "Partner support during menopause transition" "medium" true.

Definition innerarchitect_rec : JVal :=
  mkRecommendation "innerarchitect"
    "High-stress department - personal development" "medium" false.

Definition soberpal_rec : JVal :=
  mkRecommendation "soberpal" "Addiction recovery support" "high" false.

(** A roster row with the given e-mail and names and nothing else. *)
Definition plain_employee (e f l : option string) : Employee :=
  {| email := e; employeeId := None; firstName := f; lastName := l;
     department := None; role := None; managerId := None; location := None;
     birthYear := None; age := None; gender := None; maritalStatus := None;
     hasDependents := false; includeSpouse := false; spouseEmail := None;
     healthConditions := None; stressLevel := None; customFields := ∅;
     rowIndex := None |}.

(** A woman of 50 with spouse access, in the department [dept]. *)
Definition employee_50 (dept : option string) : Employee :=
  {| email := Some "pat@corp.example"; employeeId := None;
     firstName := Some "Pat"; lastName := Some "Lee";
     department := dept; role := None; managerId := None; location := None;
     birthYear := None; age := Some 50; gender := Some "female";
     maritalStatus := None; hasDependents := false; includeSpouse := true;
     spouseEmail := Some "sam@home.example";
     healthConditions := None; stressLevel := None; customFields := ∅;
     rowIndex := None |}.

(** Successive readings of the clock, in milliseconds. *)
Definition sample_clock (n : nat) : Z :=
  nth n [1700000000000; 1700000000001; 1700000000005; 1700000000040;
         1700000000041; 1700000000042]
      1700000000100.

(** A tenant ["t1"] with one employee ["e1"], empty Redis and queue, and an
    AI endpoint that is unreachable. *)
Definition sample_world (limit : option Z) : World :=
  {| redis_connected := true; redis := ∅; db_connected := true;
     companies := {[ "t1" := {| maxEmployees := limit |} ]};
     employees := [{| er_id := "e1"; er_company_id := "t1";
                      er_email := "old@corp.example" |}];
     app_assignments := []; next_id := 0%nat; db_queries := [];
     employeeQueue := [];
     ai_reply := fun _ => AIError "fetch failed"; ai_calls := 0%nat;
     clock := sample_clock; ticks := 0%nat |}.

(** The batch documents stored for the indices [i, i + n). *)
Fixpoint stored_batches (w : World) (onboardingId : string) (i n : nat) : list Doc :=
  match n with
  | O => []
  | S n' =>
      match redis w !! batch_key onboardingId i with
      | Some b => b :: stored_batches w onboardingId (S i) n'
      | None => stored_batches w onboardingId (S i) n'
      end
  end.

(** How many of them are [completed]. *)
Definition completed (w : World) (onboardingId : string) (i n : nat) : nat :=
  length (List.filter is_completed (stored_batches w onboardingId i n)).

Definition batch_doc (status : string) (processed succeeded : option Z) : Doc :=
  spread empty_doc
    {| d_tenantId := None; d_status := Some status; d_startTime := None;
       d_filename := None; d_fileSize := None; d_options := None;
       d_totalEmployees := None; d_totalBatches := None; d_batchIds := None;
       d_error := None; d_lastUpdate := None; d_processedCount := processed;
       d_successCount := succeeded; d_processingTimeMs := None |}.

(** A job ["job1"] of tenant ["t1"] in two batches, the first completed and
    the second left in the state [second] by its worker. *)
Definition two_batch_world (second : Doc) : World :=
  set_redis
    (<[session_key "job1" :=
         spread (processing_update 3 2)
           {| d_tenantId := Some "t1"; d_status := None; d_startTime := Some 0;
              d_filename := None; d_fileSize := None; d_options := None;
              d_totalEmployees := None; d_totalBatches := None;
              d_batchIds := None; d_error := None; d_lastUpdate := None;
              d_processedCount := None; d_successCount := None;
              d_processingTimeMs := None |}]>
     (<[batch_key "job1" 0 := batch_doc "completed" (Some 2) (Some 2)]>
      (<[batch_key "job1" 1 := second]> ∅)))
    (sample_world None).

Definition reply_status (r : Outcome HttpReply) : option string :=
  match r with
  | Ok (Json200 body) => sr_status body
  | _ => None
  end.

Definition duplicate_key : string :=
  "duplicate key value violates unique constraint unique_employee_app".

Definition log_queries (qs : list SqlCall) (w : World) : World :=
  fold_left (fun w q => log_query q w) qs w.



(** The existence checks issued for the rows of a roster. *)
Definition existence_checks (tenantId : string) (rows : list Employee) : list SqlCall :=
  flat_map (fun e => if truthy_str (email e)
                     then [SelectEmployee tenantId (default "" (email e))]
                     else [])
           rows.

(** A roster of three acceptable rows for a tenant limited to one
    employee. *)
Definition three_rows : list Employee :=
  [plain_employee (Some "ann@corp.example") (Some "Ann") (Some "Ba");
   plain_employee (Some "bob@corp.example") (Some "Bob") (Some "Ca");
   plain_employee (Some "cyd@corp.example") (Some "Cyd") (Some "Da")].

(** The line of the itemized error list for a rejected row. *)
Definition error_line (ie : InvalidEmployee) : string :=
  "Row " +:+ pretty (ie_rowIndex ie) +:+ ": " +:+ join ", " (ie_errors ie).

(** The rows of a roster end up accepted or rejected, one way or the other;
    a rejected row has its reasons and its line in the error list. *)
Record partitioned (rows : list Employee) (before after : ValidationResult) : Prop := {
  part_accepted :
    exists accepted,
      validEmployees after = validEmployees before ++ accepted /\
      exists rejected,
        invalidEmployees after = invalidEmployees before ++ rejected /\
        errors after = errors before ++ map error_line rejected /\
        (length accepted + length rejected = length rows)%nat /\
        Forall (fun ie => ie_errors ie <> []) rejected
}.

(** The identifier [processCSVUpload] gives the upload: the clock is read
    once for [startTime] and once more for the identifier. *)
Definition upload_id (tenantId : string) (w : World) : string :=
  "onboarding_" +:+ tenantId +:+ "_" +:+ pretty (clock w (S (ticks w))).

(** The world in which the roster is parsed and validated: the session
    record has just been written. *)
Definition session_opened (tenantId : string) (csvFile : CsvFile) (options : JVal)
    (w : World) : World :=
  snd (createOnboardingSession tenantId (upload_id tenantId w)
         (session_data csvFile options) (set_ticks (S (S (ticks w))) w)).

(** A roster with one acceptable row and one row without e-mail. *)
Definition mixed_rows : list Employee :=
  [plain_employee (Some "ann@corp.example") (Some "Ann") (Some "Ba");
   plain_employee None (Some "Bob") (Some "Ca")].

Definition roster_file (rows : list Employee) : CsvFile :=
  {| originalname := "roster.csv"; size := 2048; buffer := CsvRows rows |}.

Definition dry_run_options : JVal := JObj (<["dryRun" := JBool true]> ∅).

(** ** Vocabulary of the validation properties *)

Definition duplicate_message : string := "Duplicate email address".

(** The employee table has a row for this tenant and e-mail. *)
Definition already_employed (w : World) (tenantId e : string) : Prop :=
  exists row, In row (employees w) /\
              er_company_id row = tenantId /\ er_email row = e.

(** The state in which [validateEmployeeData] enters its loop. *)
Definition validation_start : ValidationState :=
  {| vs_result := {| validEmployees := []; invalidEmployees := []; errors := [] |};
     vs_emailSet := ∅ |}.

(** What the loop has established once it has gone through the rows
    [done]. *)
Record validated (w : World) (tenantId : string) (tenant : option Tenant)
    (done : list Employee) (st : ValidationState) : Prop := {
  v_accepted :
    forall e, In e (validEmployees (vs_result st)) ->
      exists i r a,
        done !! i = Some r /\ e = with_rowIndex r (i + 2) /\
        email r = Some a /\ isValidEmail a = true /\ a ∈ vs_emailSet st /\
        truthy_str (firstName r) = true /\ truthy_str (lastName r) = true /\
        ~ already_employed w tenantId a;
  v_distinct : NoDup (map email (validEmployees (vs_result st)));
  v_seen :
    forall r a, In r done -> email r = Some a -> isValidEmail a = true ->
                a ∈ vs_emailSet st;
  v_rejected :
    forall ie, In ie (invalidEmployees (vs_result st)) ->
      exists i, done !! i = Some (ie_employee ie) /\ ie_rowIndex ie = (i + 2)%nat;
  v_duplicates :
    forall i j r r' a,
      (j < i)%nat -> done !! j = Some r' -> done !! i = Some r ->
      email r' = Some a -> email r = Some a -> isValidEmail a = true ->
      exists ie, In ie (invalidEmployees (vs_result st)) /\
                 ie_employee ie = r /\ ie_rowIndex ie = (i + 2)%nat /\
                 In duplicate_message (ie_errors ie);
  v_capacity :
    forall t m, tenant = Some t -> maxEmployees t = Some m -> 0 < m ->
                Z.of_nat (length (validEmployees (vs_result st))) <= m
}.

(** A roster whose third row repeats the e-mail of the first. *)
Definition repeated_rows : list Employee :=
  [plain_employee (Some "ann@corp.example") (Some "Ann") (Some "Ba");
   plain_employee (Some "bob@corp.example") (Some "Bob") (Some "Ca");
   plain_employee (Some "ann@corp.example") (Some "Anna") (Some "Bb")].

(** ** Vocabulary of the provisioning properties *)

Definition pair_of (row : AssignmentRow) : string * string :=
  (as_employee_id row, as_app_name row).

(** The constraints of [tenant_main.app_assignments] that the service
    relies on: one row per employee and app, app names of the catalog,
    employees that exist. *)
Record assignments_consistent (w : World) : Prop := {
  unique_pairs : NoDup (map pair_of (app_assignments w));
  catalog_names :
    Forall (fun row => In (as_app_name row) validApps) (app_assignments w);
  known_employees :
    Forall (fun row => exists e, In e (employees w) /\ er_id e = as_employee_id row)
           (app_assignments w)
}.

(** A row as [createAppAssignment] writes it for [employeeId]. *)
Definition provisioned_row (employeeId : string) (row : AssignmentRow) : Prop :=
  as_employee_id row = employeeId /\
  as_access_level row = "basic" /\
  as_status row = "active" /\
  as_assigned_to_spouse row = false /\
  as_spouse_email row = None.

(** The app a recommendation names. *)
Definition rec_app (rec : JVal) : option JVal := prop rec "app".

(** ** Vocabulary of the upload properties *)

(** The document [createOnboardingSession] writes at time [now]. *)
Definition created_doc (tenantId : string) (csvFile : CsvFile) (options : JVal)
    (now : Z) : Doc :=
  spread {| d_tenantId := Some tenantId; d_status := Some "started";
            d_startTime := Some now;
            d_filename := None; d_fileSize := None; d_options := None;
            d_totalEmployees := None; d_totalBatches := None;
            d_batchIds := None; d_error := None; d_lastUpdate := None;
            d_processedCount := None; d_successCount := None;
            d_processingTimeMs := None |}
         (session_data csvFile options).

(** The job [processCSVUpload] queues for the batch of index [index]. *)
Definition batch_job (tenantId onboardingId : string) (options : JVal)
    (index : nat) (batch : list Employee) : QueueJob :=
  {| job_name := "process-employee-batch";
     job_tenantId := tenantId;
     job_onboardingId := onboardingId;
     job_batchIndex := index;
     job_employees := batch;
     job_options := options;
     job_delay := Z.of_nat index * 1000;
     job_attempts := 3;
     job_backoff := "exponential" |}.

(** [POST /api/onboarding/validate] ([src/routes/analytics.js]): the body of
    the 200 reply; [warnings] is always the empty array, the result of
    [processCSVUpload] having no such property. *)
Record ValidateReply := {
  v_valid : bool;
  v_totalRecords : nat;
  v_validRecords : Z;
  v_invalidRecords : nat;
  v_estimatedProcessingTime : Z;
  v_warnings : list JVal
}.

Inductive ValidateHttp :=
| Validate200 (body : ValidateReply)
| Validate400 (error : string).

Definition validate_route (tenantId : string) (file : option CsvFile) : M ValidateHttp :=
  match file with
  | None => ret (Validate400 "No file uploaded")
  | Some file =>
      try_catch
        (result <- processCSVUpload tenantId file
                     (JObj (<["dryRun" := JBool true]> ∅)) ;;
         ret (Validate200
                {| v_valid := Nat.eqb (r_invalidRecords result) 0;
                   v_totalRecords := r_totalEmployees result;
                   v_validRecords :=
                     Z.of_nat (r_totalEmployees result) -
                     Z.of_nat (r_invalidRecords result);
                   v_invalidRecords := r_invalidRecords result;
                   v_estimatedProcessingTime := r_estimatedCompletionTime result;
                   v_warnings := [] |}))
        (fun message => ret (Validate400 message))
  end.

(** ** The batch worker *)

Definition set_employees (rows : list EmployeeRow) (n : nat) (w : World) : World :=
  {| redis_connected := redis_connected w; redis := redis w;
     db_connected := db_connected w; companies := companies w;
     employees := rows; app_assignments := app_assignments w;
     next_id := n; db_queries := db_queries w;
     employeeQueue := employeeQueue w; ai_reply := ai_reply w;
     ai_calls := ai_calls w; clock := clock w; ticks := ticks w |}.

(** [VARCHAR(n)]: a longer value is an error of the insert. *)
Definition fits (n : nat) (o : option string) : bool :=
  match o with
  | Some s => (String.length s <=? n)%nat
  | None => true
  end.

(** [INTEGER]. *)
Definition fits_integer (o : option Z) : bool :=
  match o with
  | Some z => (-2147483648 <=? z) && (z <=? 2147483647)
  | None => true
  end.

(** [INSERT INTO tenant_main.employees (company_id, email, employee_id, ...,
    account_status, created_at) ... RETURNING id, email, created_at] under
    the constraints of the table: the column types, [email NOT NULL],
    [unique_employee_per_company], the primary key and the foreign key to
    [companies]. Of the row the model keeps the columns that the service
    reads back. The statement is not entered in [db_queries], which lists
    the statements of validation and of assignment. *)
Definition insert_employee (tenantId : string) (employee : Employee) : M EmployeeRow :=
  fun w =>
    if negb (db_connected w) then (Throw "Database not connected", w)
    else
      match email employee with
      | None => (Throw "null value in column email violates not-null constraint", w)
      | Some e =>
          if negb (fits 255 (email employee) && fits 100 (employeeId employee) &&
                   fits 100 (department employee) && fits 100 (role employee) &&
                   fits 20 (gender employee) && fits 50 (maritalStatus employee))
          then (Throw "value too long for type character varying", w)
          else if negb (fits_integer (birthYear employee))
          then (Throw "integer out of range", w)
          else if existsb (fun r => String.eqb (er_company_id r) tenantId &&
                                    String.eqb (er_email r) e) (employees w)
          then (Throw "duplicate key value violates unique constraint unique_employee_per_company", w)
          else if existsb (fun r => String.eqb (er_id r) ("emp-" +:+ pretty (next_id w)))
                          (employees w)
          then (Throw "duplicate key value violates unique constraint employees_pkey", w)
          else
            match companies w !! tenantId with
            | None => (Throw "violates foreign key constraint", w)
            | Some _ =>
                let row := {| er_id := "emp-" +:+ pretty (next_id w);
                              er_company_id := tenantId;
                              er_email := e |} in
                (Ok row, set_employees (employees w ++ [row]) (S (next_id w)) w)
            end
      end.

(** [encryptionService.encryptPHI data tenantId employeeId]: key derivation
    and AES, outside this development; a call gives an error message or a
    cipher object. *)
Definition Encryption : Type := option string -> string -> option string -> string + JVal.

Definition encrypt_call (encryptPHI : Encryption) (data : option string)
    (tenantId : string) (employeeId : option string) : M JVal :=
  match encryptPHI data tenantId employeeId with
  | inl message => throw message
  | inr cipher => ret cipher
  end.

Definition createEmployeeRecord (encryptPHI : Encryption) (tenantId : string)
    (employee : Employee) : M EmployeeRow :=
  _ <- encrypt_call encryptPHI (firstName employee) tenantId (email employee) ;;
  _ <- encrypt_call encryptPHI (lastName employee) tenantId (email employee) ;;
  insert_employee tenantId employee.

(** A job of the ['notifications'] queue. *)
Record Notification := {
  n_tenantId : string;
  n_employeeId : string;
  n_email : option string;
  n_appAssignments : list Assignment;
  n_onboardingId : string
}.

(** An entry of the [results] array of [processEmployeeBatch]. *)
Record EmployeeResult := {
  res_email : option string;
  res_employeeId : option string;
  res_status : string;
  res_appsAssigned : option nat;
  res_error : option string
}.

(** The loop state of [processEmployeeBatch]: the [results] array and the
    notification queue. *)
Record BatchRun := {
  br_results : list EmployeeResult;
  br_notifications : list Notification
}.

(** The [try] block of one turn of the loop. [notificationQueue.add] is
    taken to succeed, as [employeeQueue.add] is in [queue_add]. *)
Definition process_employee_try (encryptPHI : Encryption)
    (tenantId onboardingId : string) (employee : Employee) (run : BatchRun)
    : M BatchRun :=
  employeeRecord <- createEmployeeRecord encryptPHI tenantId employee ;;
  appRecommendations <- getAppRecommendations employee tenantId ;;
  appAssignments <- provisionAppAccess tenantId (er_id employeeRecord)
                      appRecommendations employee ;;
  ret {| br_results :=
           br_results run ++
           [{| res_email := email employee;
               res_employeeId := Some (er_id employeeRecord);
               res_status := "success";
               res_appsAssigned := Some (length appAssignments);
               res_error := None |}];
         br_notifications :=
           br_notifications run ++
           [{| n_tenantId := tenantId;
               n_employeeId := er_id employeeRecord;
               n_email := email employee;
               n_appAssignments := appAssignments;
               n_onboardingId := onboardingId |}] |}.

(** The [catch] block of one turn of the loop. *)
Definition process_employee_catch (employee : Employee) (run : BatchRun)
    (message : string) : M BatchRun :=
  ret {| br_results :=
           br_results run ++
           [{| res_email := email employee;
               res_employeeId := None;
               res_status := "failed";
               res_appsAssigned := None;
               res_error := Some message |}];
         br_notifications := br_notifications run |}.

Fixpoint process_employees (encryptPHI : Encryption)
    (tenantId onboardingId : string) (employees : list Employee) (run : BatchRun)
    : M BatchRun :=
  match employees with
  | [] => ret run
  | employee :: rest =>
      run' <- try_catch
                (process_employee_try encryptPHI tenantId onboardingId employee run)
                (process_employee_catch employee run) ;;
      process_employees encryptPHI tenantId onboardingId rest run'
  end.

Definition is_success (r : EmployeeResult) : bool :=
  String.eqb (res_status r) "success".

Definition completed_status (processed succeeded : nat) (processingTime : Z) : Doc :=
  spread empty_doc
    {| d_tenantId := None; d_status := Some "completed"; d_startTime := None;
       d_filename := None; d_fileSize := None; d_options := None;
       d_totalEmployees := None; d_totalBatches := None; d_batchIds := None;
       d_error := None; d_lastUpdate := None;
       d_processedCount := Some (Z.of_nat processed);
       d_successCount := Some (Z.of_nat succeeded);
       d_processingTimeMs := Some processingTime |}.

Definition failed_status (message : string) : Doc :=
  spread empty_doc
    {| d_tenantId := None; d_status := Some "failed"; d_startTime := None;
       d_filename := None; d_fileSize := None; d_options := None;
       d_totalEmployees := None; d_totalBatches := None; d_batchIds := None;
       d_error := Some message; d_lastUpdate := None; d_processedCount := None;
       d_successCount := None; d_processingTimeMs := None |}.

(** [processEmployeeBatch], with the notification queue passed in and out;
    the result pairs the returned [results] with that queue. *)
Definition processEmployeeBatch (encryptPHI : Encryption)
    (tenantId onboardingId : string) (batchIndex : nat)
    (employees : list Employee) (options : JVal)
    (notificationQueue : list Notification)
    : M (list EmployeeResult * list Notification) :=
  startTime <- date_now ;;
  try_catch
    (run <- process_employees encryptPHI tenantId onboardingId employees
              {| br_results := []; br_notifications := notificationQueue |} ;;
     now <- date_now ;;
     let processingTime := now - startTime in
     let successCount := length (List.filter is_success (br_results run)) in
     _ <- updateBatchStatus tenantId onboardingId batchIndex
            (completed_status (length (br_results run)) successCount processingTime) ;;
     ret (br_results run, br_notifications run))
    (fun message =>
       _ <- updateBatchStatus tenantId onboardingId batchIndex
              (failed_status message) ;;
       throw message).

(** The processor of the ['employee processing'] queue on one job: Bull
    calls the handler again, up to [attempts] times in all, as long as it
    throws. Delays are left out. *)
Fixpoint attempt_job (encryptPHI : Encryption) (job : QueueJob) (attempts : nat)
    (notificationQueue : list Notification) : M (list Notification) :=
  match attempts with
  | O => ret notificationQueue
  | S remaining =>
      try_catch
        (r <- processEmployeeBatch encryptPHI (job_tenantId job)
                (job_onboardingId job) (job_batchIndex job) (job_employees job)
                (job_options job) notificationQueue ;;
         ret (snd r))
        (fun _ => attempt_job encryptPHI job remaining notificationQueue)
  end.

(** One worker taking the jobs one after the other, in the order given. *)
Fixpoint run_jobs (encryptPHI : Encryption) (jobs : list QueueJob)
    (notificationQueue : list Notification) : M (list Notification) :=
  match jobs with
  | [] => ret notificationQueue
  | job :: rest =>
      notificationQueue <-
        attempt_job encryptPHI job (Z.to_nat (job_attempts job)) notificationQueue ;;
      run_jobs encryptPHI rest notificationQueue
  end.

(** Two worlds with the same Redis, clock, queue and database connection. *)
Record same_store (w w' : World) : Prop := {
  ss_redis : redis w' = redis w;
  ss_up : redis_connected w' = redis_connected w;
  ss_clock : clock w' = clock w;
  ss_ticks : ticks w' = ticks w;
  ss_queue : employeeQueue w' = employeeQueue w;
  ss_db : db_connected w' = db_connected w
}.

(** The Redis key of the batch record a job writes. *)
Definition job_key (job : QueueJob) : string :=
  batch_key (job_onboardingId job) (job_batchIndex job).

(** The batch record of a job that has been processed. *)
Definition job_done (job : QueueJob) (record : Doc) : Prop :=
  d_status record = Some "completed" /\
  d_processedCount record = Some (Z.of_nat (length (job_employees job))) /\
  exists succeeded : nat,
    d_successCount record = Some (Z.of_nat succeeded) /\
    (succeeded <= length (job_employees job))%nat.

(** The sum the status query makes of a field of the batch records. *)
Definition total (field : Doc -> option Z) (records : list Doc) : Z :=
  fold_left (fun sum b => sum + default 0 (field b)) records 0.

(** The columns of [unique_employee_per_company]. *)
Definition company_email (row : EmployeeRow) : string * string :=
  (er_company_id row, er_email row).

(** The constraints of [tenant_main.employees] that the service relies on. *)
Record employees_unique (w : World) : Prop := {
  unique_per_company : NoDup (map company_email (employees w));
  unique_ids : NoDup (map er_id (employees w))
}.

(** A [success] result and the employee row it reports. *)
Definition created_for (tenantId : string) (row : EmployeeRow) (res : EmployeeResult)
    : Prop :=
  res_status res = "success" /\
  res_employeeId res = Some (er_id row) /\
  res_email res = Some (er_email row) /\
  er_company_id row = tenantId /\
  exists n : nat, res_appsAssigned res = Some n /\ (n <= 3)%nat.

(** A welcome e-mail and the employee row it is for. *)
Definition notified_of (row : EmployeeRow) (note : Notification) : Prop :=
  n_employeeId note = er_id row /\
  n_email note = Some (er_email row) /\
  (length (n_appAssignments note) <= 3)%nat.

(** What a run of the worker from [w] to [w'] has done to the tables. *)
Record batch_ledger (tenantId : string) (w w' : World)
    (results : list EmployeeResult) (notes : list Notification) : Prop := {
  ledger_rows :
    exists rows,
      employees w' = employees w ++ rows /\
      Forall2 (created_for tenantId) rows (List.filter is_success results) /\
      Forall2 notified_of rows notes;
  ledger_assignments :
    exists rows,
      app_assignments w' = app_assignments w ++ rows /\
      Forall (fun row => exists e, In e (employees w') /\ ~ In e (employees w) /\
                                   er_id e = as_employee_id row) rows;
  ledger_unique : employees_unique w -> employees_unique w';
  ledger_consistent : assignments_consistent w -> assignments_consistent w'
}.

(** * Properties *)

(** ** Batching *)

Section Batches.
Context {A : Type}.
Implicit Types (array : list A) (batches : list (list A)).

Lemma slice_take_drop array i n :
  slice i (i + n) array = firstn n (skipn i array).
Proof. unfold slice. do 2 f_equal. lia. Qed.

Lemma ceil_step (n bs : nat) :
  (0 < bs)%nat -> (0 < n)%nat ->
  ((n + bs - 1) / bs = S ((n - bs + bs - 1) / bs))%nat.
Proof.
  intros Hbs Hn.
  destruct (Nat.le_gt_cases bs n) as [Hle | Hlt].
  - replace (n + bs - 1)%nat with ((n - bs + bs - 1) + 1 * bs)%nat by lia.
    rewrite Nat.div_add by lia. lia.
  - replace (n - bs + bs - 1)%nat with (bs - 1)%nat by lia.
    rewrite (Nat.div_small (bs - 1)) by lia.
    replace (n + bs - 1)%nat with ((n - 1) + 1 * bs)%nat by lia.
    rewrite Nat.div_add by lia.
    rewrite Nat.div_small by lia. reflexivity.
Qed.

(** The loop, entered at counter [i] with enough fuel, appends to the
    batches pushed so far the slices of width [bs] of the rest of the
    array. *)
Lemma createBatches_loop_spec (bs : nat) array :
  (0 < bs)%nat ->
  forall fuel i batches,
    (length array - i < fuel)%nat ->
    exists rest,
      createBatches_loop fuel array bs i batches = Some (batches ++ rest) /\
      concat rest = skipn i array /\
      length rest = ((length array - i + bs - 1) / bs)%nat /\
      forall k, (k < length rest)%nat ->
                nth k rest [] = slice (i + k * bs) (i + k * bs + bs) array.
Proof.
  intros Hbs fuel.
  induction fuel as [| fuel IH]; intros i batches Hfuel; [lia |].
  simpl. destruct (Nat.ltb_spec i (length array)) as [Hlt | Hge].
  - destruct (IH (i + bs)%nat (batches ++ [slice i (i + bs) array])) as
      (rest & Hrun & Hcat & Hlen & Hnth); [lia |].
    exists (slice i (i + bs) array :: rest).
    rewrite Hrun, <- app_assoc. simpl.
    split; [reflexivity |]. split; [| split].
    + rewrite Hcat, slice_take_drop.
      replace (i + bs)%nat with (bs + i)%nat by lia.
      rewrite <- skipn_skipn. apply firstn_skipn.
    + rewrite Hlen.
      replace (length array - (i + bs))%nat with (length array - i - bs)%nat by lia.
      symmetry. apply ceil_step; lia.
    + intros [| k] Hk; simpl.
      * f_equal; lia.
      * rewrite Hnth by lia. f_equal; lia.
  - exists []. rewrite app_nil_r.
    split; [reflexivity |]. split; [| split].
    + simpl. symmetry. apply skipn_all2. lia.
    + simpl. replace (length array - i)%nat with 0%nat by lia.
      symmetry. apply Nat.div_small. lia.
    + simpl. intros k Hk. lia.
Qed.

(** More fuel does not change the result of a loop that has ended. *)
Lemma createBatches_loop_fuel (bs : nat) array fuel :
  forall i batches r,
    createBatches_loop fuel array bs i batches = Some r ->
    createBatches_loop (S fuel) array bs i batches = Some r.
Proof.
  induction fuel as [| fuel IH]; intros i batches r H; [discriminate |].
  simpl in H. cbn [createBatches_loop].
  destruct (i <? length array)%nat; [| exact H].
  apply IH in H. exact H.
Qed.

(** With a batch size of zero the counter never moves: no amount of fuel
    ends the loop on a non-empty array. *)
Lemma createBatches_loop_zero array fuel :
  forall batches,
    (0 < length array)%nat ->
    createBatches_loop fuel array 0 0 batches = None.
Proof.
  induction fuel as [| fuel IH]; intros batches Hlen; [reflexivity |].
  simpl. destruct (Nat.ltb_spec 0 (length array)); [| lia].
  apply IH. exact Hlen.
Qed.
End Batches.

(** C7. For a positive batch size [createBatches] returns, and returns
    exactly [ceil (|array| / batchSize)] batches; the batch of index [k] is
    the contiguous slice [array.slice(k * batchSize, (k + 1) * batchSize)];
    concatenating the batches in index order gives back the array. *)
Theorem createBatches_partition {A} (array : list A) (batchSize : nat) :
  (0 < batchSize)%nat ->
  exists batches,
    createBatches array batchSize = Some batches /\
    length batches = ((length array + batchSize - 1) / batchSize)%nat /\
    (forall k, (k < length batches)%nat ->
               nth k batches [] =
               slice (k * batchSize) (k * batchSize + batchSize) array) /\
    concat batches = array.
Proof.
  intros Hbs.
  destruct (createBatches_loop_spec batchSize array Hbs (S (length array)) 0 [])
    as (rest & Hrun & Hcat & Hlen & Hnth); [lia |].
  exists rest. unfold createBatches. rewrite Hrun. simpl.
  split; [reflexivity |]. split; [| split].
  - rewrite Hlen. f_equal. lia.
  - intros k Hk. rewrite (Hnth k Hk). reflexivity.
  - rewrite Hcat. reflexivity.
Qed.

Lemma createBatches_partition_witness :
  (0 < 2)%nat /\
  exists batches,
    createBatches [1; 2; 3; 4; 5] 2 = Some batches /\
    length batches = ((length [1; 2; 3; 4; 5] + 2 - 1) / 2)%nat /\
    (forall k, (k < length batches)%nat ->
               nth k batches [] = slice (k * 2) (k * 2 + 2) [1; 2; 3; 4; 5]) /\
    concat batches = [1; 2; 3; 4; 5].
Proof.
  split; [lia | apply (createBatches_partition [1; 2; 3; 4; 5] 2); lia].
Defined.

(** ** Recommendations *)

Lemma arr_includes_In arr s : arr_includes arr s = true -> In s arr.
Proof.
  unfold arr_includes. rewrite existsb_exists.
  intros (x & Hx & Heq). apply String.eqb_eq in Heq. subst. exact Hx.
Qed.

Lemma rec_in_catalog_sound rec :
  rec_in_catalog rec = Ok true -> in_catalog rec.
Proof.
  unfold rec_in_catalog, in_catalog, prop.
  destruct rec as [| b | z | s | l | m]; intros H; try discriminate.
  destruct (m !! "app") as [[| b | z | a | l | m'] |]; try discriminate.
  injection H as H.
  exists a. split; [reflexivity |]. apply arr_includes_In. exact H.
Qed.

Lemma filter_catalog_sound recs :
  forall kept, filter_catalog recs = Ok kept -> Forall in_catalog kept.
Proof.
  induction recs as [| rec rest IH]; intros kept H; simpl in H.
  - inversion H. constructor.
  - destruct (rec_in_catalog rec) as [keep | |] eqn:Hrec; try discriminate.
    destruct (filter_catalog rest) as [kept' | |]; try discriminate.
    inversion H; subst. destruct keep.
    + constructor; [apply rec_in_catalog_sound; exact Hrec | apply IH; reflexivity].
    + apply IH. reflexivity.
Qed.

Lemma slice0_length {A} (n : nat) (l : list A) : (length (slice0 n l) <= n)%nat.
Proof. unfold slice0. rewrite length_firstn. lia. Qed.

Lemma slice0_Forall {A} (P : A -> Prop) (n : nat) (l : list A) :
  Forall P l -> Forall P (slice0 n l).
Proof. unfold slice0. apply Forall_take. Qed.

Lemma validateRecommendations_sound recommendations recs :
  validateRecommendations recommendations = Ok recs ->
  Forall in_catalog recs /\ (length recs <= 3)%nat.
Proof.
  unfold validateRecommendations. intros H.
  destruct recommendations; try discriminate.
  destruct (m !! "recommendations") as [[| | | | l |] |]; try discriminate.
  destruct (filter_catalog l) as [kept | |] eqn:Hf; try discriminate.
  assert (recs = slice0 3 kept) as -> by congruence. split.
  - apply slice0_Forall. eapply filter_catalog_sound. exact Hf.
  - apply slice0_length.
Qed.

Lemma mkRecommendation_in_catalog app reason priority spouse :
  In app validApps -> in_catalog (mkRecommendation app reason priority spouse).
Proof.
  intros Hin. exists app. split; [| exact Hin].
  unfold mkRecommendation, prop. apply lookup_insert_eq.
Qed.

Lemma getFallbackRecommendations_sound employee :
  Forall in_catalog (getFallbackRecommendations employee) /\
  (length (getFallbackRecommendations employee) <= 3)%nat.
Proof.
  unfold getFallbackRecommendations. split; [| apply slice0_length].
  apply slice0_Forall.
  repeat (apply Forall_app; split);
    repeat match goal with
           | |- Forall _ (if ?c then _ else _) => destruct c
           | |- Forall _ (_ :: _) => constructor
           | |- Forall _ [] => constructor
           | |- in_catalog _ =>
               apply mkRecommendation_in_catalog; unfold validApps; simpl; tauto
           end.
Qed.

(** C8. Whatever the AI endpoint does, [getAppRecommendations] returns a
    list, of at most three recommendations, each naming an app of the fixed
    catalog: entries outside the catalog are filtered out of the AI's
    answer, and the rule-based fallback only builds catalog entries. This
    list is what [processEmployeeBatch] passes to [provisionAppAccess]. *)
Theorem recommendations_within_catalog (employee : Employee) (tenantId : string)
    (w : World) :
  exists recs,
    fst (getAppRecommendations employee tenantId w) = Ok recs /\
    Forall in_catalog recs /\
    (length recs <= 3)%nat.
Proof.
  unfold getAppRecommendations, try_catch, bind, claude_getAppRecommendations, lift, ret.
  destruct (ai_reply w (ai_calls w)) as [msg | v].
  - exists (getFallbackRecommendations employee). simpl.
    split; [reflexivity | apply getFallbackRecommendations_sound].
  - destruct (validateRecommendations v) as [recs | e |] eqn:Hv.
    + exists recs. split; [reflexivity |].
      apply (validateRecommendations_sound v). exact Hv.
    + exists (getFallbackRecommendations employee). simpl.
      split; [reflexivity | apply getFallbackRecommendations_sound].
    + exfalso. unfold validateRecommendations in Hv.
      destruct v; try discriminate.
      destruct (m !! "recommendations") as [[| | | | l |] |]; try discriminate.
      destruct (filter_catalog l) eqn:Hf; try discriminate.
      clear Hv. induction l as [| r l IH] in Hf |- *; simpl in Hf; [discriminate |].
      destruct (rec_in_catalog r) eqn:Hr.
      * destruct (filter_catalog l); try discriminate. apply IH. reflexivity.
      * discriminate.
      * destruct r; discriminate.
Qed.

(** *** The fallback at age 50 *)

Lemma getAppRecommendations_on_failure employee tenantId w msg :
  ai_reply w (ai_calls w) = AIError msg ->
  getAppRecommendations employee tenantId w =
  (Ok (getFallbackRecommendations employee), set_ai_calls (S (ai_calls w)) w).
Proof.
  intros Hai.
  unfold getAppRecommendations, try_catch, bind, claude_getAppRecommendations.
  rewrite Hai. reflexivity.
Qed.

(** C9, as stated, fails: in a high-stress department the same profile gets
    a third recommendation. *)
Lemma fallback_age50_counterexample :
  let employee := employee_50 (Some "Sales") in
  let w := sample_world None in
  age employee = Some 50 /\ gender employee = Some "female" /\
  includeSpouse employee = true /\
  spouseEmail employee = Some "sam@home.example" /\
  ai_reply w (ai_calls w) = AIError "fetch failed" /\
  fst (getAppRecommendations employee "t1" w) =
    Ok [menowellness_rec; supportpartner_rec; innerarchitect_rec] /\
  fst (getAppRecommendations employee "t1" w) <>
    Ok [menowellness_rec; supportpartner_rec].
Proof.
  cbv zeta. do 5 (split; [reflexivity |]).
  assert (H : fst (getAppRecommendations (employee_50 (Some "Sales")) "t1"
                     (sample_world None)) =
              Ok [menowellness_rec; supportpartner_rec; innerarchitect_rec])
    by reflexivity.
  split; [exact H |]. rewrite H. intros Heq. discriminate Heq.
Qed.

(** C9, amended. For a profile of age 50, gender female and
    [includeSpouse] set, when the AI call fails [getAppRecommendations]
    returns the fallback list after that one failed request and no other
    external call. The list starts with [menowellness] (high) and
    [supportpartner] (medium, spouse included); these two are the whole list
    when the department is not a high-stress one and no health condition
    mentions addiction or alcohol, and otherwise one more recommendation
    ([innerarchitect], else [soberpal]) follows. *)
Theorem fallback_age50_female_spouse (employee : Employee) (tenantId : string)
    (w : World) (msg : string) :
  age employee = Some 50 ->
  gender employee = Some "female" ->
  includeSpouse employee = true ->
  ai_reply w (ai_calls w) = AIError msg ->
  getAppRecommendations employee tenantId w =
    (Ok (getFallbackRecommendations employee),
     set_ai_calls (S (ai_calls w)) w) /\
  getFallbackRecommendations employee =
    menowellness_rec :: supportpartner_rec ::
    slice0 1 ((if high_stress_department employee then [innerarchitect_rec] else []) ++
              (if addiction_condition employee then [soberpal_rec] else [])) /\
  (high_stress_department employee = false ->
   addiction_condition employee = false ->
   getFallbackRecommendations employee = [menowellness_rec; supportpartner_rec]).
Proof.
  intros Hage Hgender Hspouse Hai.
  assert (Hlist : getFallbackRecommendations employee =
    menowellness_rec :: supportpartner_rec ::
    slice0 1 ((if high_stress_department employee then [innerarchitect_rec] else []) ++
              (if addiction_condition employee then [soberpal_rec] else []))).
  { unfold getFallbackRecommendations, age_lt, age_gt, str_is.
    rewrite Hage, Hgender, Hspouse.
    destruct (high_stress_department employee), (addiction_condition employee);
      reflexivity. }
  split; [apply getAppRecommendations_on_failure with msg; exact Hai |].
  split; [exact Hlist |].
  intros Hd Hc. rewrite Hlist, Hd, Hc. reflexivity.
Qed.

Lemma fallback_age50_female_spouse_witness :
  let employee := employee_50 None in
  let w := sample_world None in
  getAppRecommendations employee "t1" w =
    (Ok (getFallbackRecommendations employee),
     set_ai_calls (S (ai_calls w)) w) /\
  getFallbackRecommendations employee =
    menowellness_rec :: supportpartner_rec ::
    slice0 1 ((if high_stress_department employee then [innerarchitect_rec] else []) ++
              (if addiction_condition employee then [soberpal_rec] else [])) /\
  (high_stress_department employee = false ->
   addiction_condition employee = false ->
   getFallbackRecommendations employee = [menowellness_rec; supportpartner_rec]).
Proof.
  cbv zeta.
  apply (fallback_age50_female_spouse (employee_50 None) "t1" (sample_world None)
           "fetch failed"); reflexivity.
Defined.

(** ** Job status *)

Lemma collect_batchStatuses_spec w onboardingId n :
  redis_connected w = true ->
  forall i batchStatuses,
    collect_batchStatuses onboardingId n i batchStatuses w =
    (Ok (batchStatuses ++ stored_batches w onboardingId i n), w).
Proof.
  intros Hup. induction n as [| n IH]; intros i acc.
  - simpl. unfold ret. rewrite app_nil_r. reflexivity.
  - cbn [collect_batchStatuses stored_batches].
    unfold bind at 1. unfold redis_get at 1.
    rewrite Hup. rewrite IH.
    destruct (redis w !! batch_key onboardingId i).
    + rewrite <- app_assoc. reflexivity.
    + reflexivity.
Qed.

Lemma getOnboardingStatus_spec w tenantId onboardingId session :
  redis_connected w = true ->
  redis w !! session_key onboardingId = Some session ->
  getOnboardingStatus tenantId onboardingId w =
  (let batchStatuses :=
     stored_batches w onboardingId 0
       (Z.to_nat (default 0 (d_totalBatches session))) in
   Ok {| sessionData := session;
         batchStatuses := batchStatuses;
         completedBatches := length (List.filter is_completed batchStatuses);
         totalProcessed :=
           fold_left (fun sum b => sum + default 0 (d_processedCount b))
                     batchStatuses 0;
         totalSuccessful :=
           fold_left (fun sum b => sum + default 0 (d_successCount b))
                     batchStatuses 0 |}, w).
Proof.
  intros Hup Hs. unfold getOnboardingStatus, bind at 1. unfold redis_get at 1.
  rewrite Hup, Hs. unfold bind.
  rewrite collect_batchStatuses_spec by exact Hup. reflexivity.
Qed.

Section Counting.
Variables (w : World) (onboardingId : string).

Lemma completed_le n : forall i, (completed w onboardingId i n <= n)%nat.
Proof.
  unfold completed.
  induction n as [| n IH]; intros i; simpl; [lia |].
  specialize (IH (S i)).
  destruct (redis w !! batch_key onboardingId i) as [b |]; simpl;
    [destruct (is_completed b); simpl |]; lia.
Qed.

Lemma completed_full n :
  forall i,
    (forall k, (i <= k < i + n)%nat ->
               exists b, redis w !! batch_key onboardingId k = Some b /\
                         is_completed b = true) ->
    completed w onboardingId i n = n.
Proof.
  unfold completed.
  induction n as [| n IH]; intros i H; simpl; [reflexivity |].
  destruct (H i) as (b & Hb & Hc); [lia |].
  rewrite Hb. simpl. rewrite Hc. simpl. f_equal.
  apply IH. intros k Hk. apply H. lia.
Qed.

Lemma completed_lt n :
  forall i k b,
    (i <= k < i + n)%nat ->
    redis w !! batch_key onboardingId k = Some b ->
    is_completed b = false ->
    (completed w onboardingId i n < n)%nat.
Proof.
  unfold completed.
  induction n as [| n IH]; intros i k b Hk Hb Hc; simpl; [lia |].
  destruct (Nat.eq_dec k i) as [-> | Hne].
  - rewrite Hb. simpl. rewrite Hc.
    pose proof (completed_le n (S i)) as Hle. unfold completed in Hle. lia.
  - assert (Hlt : (length (List.filter is_completed
                             (stored_batches w onboardingId (S i) n)) < n)%nat)
      by (apply (IH (S i) k b); [lia | exact Hb | exact Hc]).
    destruct (redis w !! batch_key onboardingId i) as [b' |]; simpl;
      [destruct (is_completed b'); simpl |]; lia.
Qed.
End Counting.

(** Two tenants' view of the same session. *)
Lemma session_readable_by_any_tenant w owner other onboardingId data :
  redis_connected w = true ->
  d_tenantId data = None ->
  exists status w',
    getOnboardingStatus other onboardingId
      (snd (createOnboardingSession owner onboardingId data w)) = (Ok status, w') /\
    d_tenantId (sessionData status) = Some owner.
Proof.
  intros Hup Hdata.
  unfold createOnboardingSession, bind, date_now, redis_setex, ret. simpl.
  rewrite Hup. simpl.
  eexists _, _. split.
  - apply getOnboardingStatus_spec; [exact Hup |]. simpl. apply lookup_insert_eq.
  - simpl. rewrite Hdata. reflexivity.
Qed.

(** C10. [getOnboardingStatus] does not look at its [tenantId] argument:
    the session and the batch statuses are fetched by [onboardingId] alone,
    so any two tenants get the same answer for the same identifier. *)
Theorem getOnboardingStatus_ignores_tenant (w : World) (t1 t2 onboardingId : string) :
  getOnboardingStatus t1 onboardingId w = getOnboardingStatus t2 onboardingId w.
Proof.
  unfold getOnboardingStatus. reflexivity.
Qed.

(** C6, as stated, fails: with one batch completed and the other failed,
    both terminal, the status route still answers [processing]. *)
Lemma status_with_failed_batch_counterexample :
  let w := two_batch_world (batch_doc "failed" None None) in
  option_map d_status (redis w !! batch_key "job1" 0) = Some (Some "completed") /\
  option_map d_status (redis w !! batch_key "job1" 1) = Some (Some "failed") /\
  option_map d_totalBatches (redis w !! session_key "job1") = Some (Some 2) /\
  reply_status (fst (status_route "t1" "job1" w)) = Some "processing" /\
  reply_status (fst (status_route "t1" "job1" w)) <> Some "completed".
Proof.
  cbv zeta. do 3 (split; [vm_compute; reflexivity |]).
  assert (H : reply_status
                (fst (status_route "t1" "job1"
                        (two_batch_world (batch_doc "failed" None None)))) =
              Some "processing") by (vm_compute; reflexivity).
  split; [exact H |]. rewrite H. intros Heq. discriminate Heq.
Qed.

(** C6, amended. For a job all of whose batches have reached a terminal
    state, the status route answers; it reports [completed] when every batch
    is [completed], and when some batch is [failed] it reports the status
    stored in the session ([processing] once the upload was accepted). *)
Theorem status_completed_needs_all_batches_completed
    (w : World) (tenantId onboardingId : string) (session : Doc) (n : nat) :
  redis_connected w = true ->
  redis w !! session_key onboardingId = Some session ->
  d_totalBatches session = Some (Z.of_nat n) ->
  (0 < n)%nat ->
  (forall i, (i < n)%nat ->
     exists b, redis w !! batch_key onboardingId i = Some b /\
               (d_status b = Some "completed" \/ d_status b = Some "failed")) ->
  exists body,
    status_route tenantId onboardingId w = (Ok (Json200 body), w) /\
    ((forall i b, (i < n)%nat -> redis w !! batch_key onboardingId i = Some b ->
                  d_status b = Some "completed") ->
     sr_status body = Some "completed") /\
    ((exists i b, (i < n)%nat /\ redis w !! batch_key onboardingId i = Some b /\
                  d_status b = Some "failed") ->
     sr_status body = d_status session).
Proof.
  intros Hup Hs Htotal Hpos Hterminal.
  unfold status_route, try_catch, bind.
  rewrite (getOnboardingStatus_spec w tenantId onboardingId session Hup Hs).
  cbv zeta. unfold ret. eexists. split; [reflexivity |].
  cbn [sr_status]. unfold overallStatus. cbn [sessionData completedBatches].
  rewrite Htotal. cbn [from_option id]. rewrite Nat2Z.id.
  split.
  - intros Hall.
    fold (completed w onboardingId 0 n). rewrite (completed_full w onboardingId n 0).
    + rewrite Z.eqb_refl.
      destruct (Z.gtb_spec (Z.of_nat n) 0); [reflexivity | lia].
    + intros k Hk. destruct (Hterminal k) as (b & Hb & _); [lia |].
      exists b. split; [exact Hb |].
      unfold is_completed. rewrite (Hall k b) by (lia || exact Hb). reflexivity.
  - intros (i & b & Hi & Hb & Hfailed).
    fold (completed w onboardingId 0 n).
    pose proof (completed_lt w onboardingId n 0 i b) as Hlt.
    assert (Hnot : is_completed b = false)
      by (unfold is_completed; rewrite Hfailed; reflexivity).
    specialize (Hlt ltac:(lia) Hb Hnot).
    destruct (Z.eqb_spec (Z.of_nat (completed w onboardingId 0 n)) (Z.of_nat n))
      as [Heq | Hne]; [lia | reflexivity].
Qed.

Lemma status_completed_needs_all_batches_completed_witness :
  let w := two_batch_world (batch_doc "completed" (Some 1) (Some 1)) in
  exists body,
    status_route "t1" "job1" w = (Ok (Json200 body), w) /\
    ((forall i b, (i < 2)%nat -> redis w !! batch_key "job1" i = Some b ->
                  d_status b = Some "completed") ->
     sr_status body = Some "completed") /\
    ((exists i b, (i < 2)%nat /\ redis w !! batch_key "job1" i = Some b /\
                  d_status b = Some "failed") ->
     sr_status body =
     d_status (spread (processing_update 3 2)
                 {| d_tenantId := Some "t1"; d_status := None;
                    d_startTime := Some 0;
                    d_filename := None; d_fileSize := None; d_options := None;
                    d_totalEmployees := None; d_totalBatches := None;
                    d_batchIds := None; d_error := None; d_lastUpdate := None;
                    d_processedCount := None; d_successCount := None;
                    d_processingTimeMs := None |})).
Proof.
  cbv zeta.
  apply (status_completed_needs_all_batches_completed
           (two_batch_world (batch_doc "completed" (Some 1) (Some 1)))
           "t1" "job1" _ 2).
  - reflexivity.
  - vm_compute. reflexivity.
  - reflexivity.
  - lia.
  - intros i Hi.
    destruct i as [| [| i]]; [| | lia];
      (eexists; split; [vm_compute; reflexivity | left; reflexivity]).
Defined.

(** ** Provisioning *)

Lemma filter_none {A} (f : A -> bool) (l : list A) :
  existsb f l = false -> List.filter f l = [].
Proof.
  induction l as [| x l IH]; simpl; [reflexivity |].
  destruct (f x); simpl; [discriminate | exact IH].
Qed.

Lemma same_pair_refl employee_id app_name row :
  as_employee_id row = employee_id -> as_app_name row = app_name ->
  same_pair employee_id app_name row = true.
Proof.
  intros <- <-. unfold same_pair. rewrite !String.eqb_refl. reflexivity.
Qed.

(** Case analysis on every test met when a call is run in hypothesis [H]. *)
Ltac run_cases H :=
  repeat (match type of H with
          | context [if ?c then _ else _] => destruct c eqn:?
          | context [match ?x with _ => _ end] => destruct x eqn:?
          end;
          cbv beta iota in H;
          try discriminate H).

Ltac unfold_create H :=
  unfold createAppAssignment, bind, db_query, insert_assignment, throw, ret, prop in H;
  cbn [app_assignments log_query employees next_id db_connected] in H.

(** What a successful [createAppAssignment] has done. *)
Lemma createAppAssignment_ok tenantId employeeId rec w a w1 :
  createAppAssignment tenantId employeeId rec w = (Ok a, w1) ->
  exists app row,
    prop rec "app" = Some (JStr app) /\
    db_connected w = true /\
    arr_includes validApps app = true /\
    existsb (same_pair employeeId app) (app_assignments w) = false /\
    row = {| as_id := next_id w; as_employee_id := employeeId;
             as_app_name := app; as_access_level := "basic";
             as_app_config := appConfig rec; as_status := "active";
             as_assigned_to_spouse := false; as_spouse_email := None |} /\
    a = {| a_id := next_id w; a_app_name := app; a_access_level := "basic" |} /\
    w1 = set_assignments (app_assignments w ++ [row]) (S (next_id w))
           (log_query (InsertAssignment employeeId app) w).
Proof.
  intros H. unfold_create H. run_cases H.
  all: injection H as <- <-.
  all: eexists _, _; unfold prop.
  all: repeat split; try reflexivity; try eassumption.
  all: match goal with
       | Hn : negb ?b = false |- ?b = true => destruct b; [reflexivity | discriminate Hn]
       end.
Qed.

(** A failed [createAppAssignment] leaves the table as it was. *)
Lemma createAppAssignment_throw tenantId employeeId rec w e w1 :
  createAppAssignment tenantId employeeId rec w = (Throw e, w1) ->
  app_assignments w1 = app_assignments w.
Proof.
  intros H. unfold_create H. run_cases H.
  all: injection H as _ <-; reflexivity.
Qed.

Lemma createAppAssignment_returns tenantId employeeId rec w w1 :
  createAppAssignment tenantId employeeId rec w <> (Diverge, w1).
Proof.
  intros H. unfold_create H. run_cases H.
Qed.

(** C3 fails on the code: for a recommendation with [includeSpouse] set and
    an employee whose spouse e-mail is present, [provisionAppAccess] creates
    the employee's own assignment and nothing else; the call of the missing
    method throws inside the [try] block and no spouse assignment is made. *)
Lemma spouse_assignment_missing :
  let w := sample_world None in
  let employee := employee_50 None in
  let r := provisionAppAccess "t1" "e1" [supportpartner_rec] employee w in
  truthy_opt (prop supportpartner_rec "includeSpouse") = true /\
  spouseEmail employee = Some "sam@home.example" /\
  fst r = Ok [{| a_id := 0; a_app_name := "supportpartner";
                 a_access_level := "basic" |}] /\
  map (fun row => (as_app_name row, as_assigned_to_spouse row, as_spouse_email row))
      (app_assignments (snd r)) = [("supportpartner", false, None)].
Proof.
  cbv zeta. repeat split; vm_compute; reflexivity.
Qed.

(** No turn of the loop of [provisionAppAccess] stores a row for a spouse
    or pushes more than one assignment. *)
Lemma provision_one_no_spouse tenantId employeeId employee rec assignments w r w' :
  provision_one tenantId employeeId employee assignments rec w = (r, w') ->
  (exists rows, app_assignments w' = app_assignments w ++ rows /\
                (length rows <= 1)%nat /\
                Forall (fun row => as_assigned_to_spouse row = false) rows) /\
  (forall out, r = Ok out -> (length out <= S (length assignments))%nat).
Proof.
  intros H. unfold provision_one in H. unfold bind at 1 in H.
  unfold try_catch at 1 in H. unfold bind at 1 in H.
  destruct (createAppAssignment tenantId employeeId rec w) as [[a | e |] w1] eqn:Hc.
  - apply createAppAssignment_ok in Hc as (app & row & _ & _ & _ & _ & Hrow & _ & Hw1).
    assert (Hrows : app_assignments w1 = app_assignments w ++ [row])
      by (rewrite Hw1; reflexivity).
    unfold ret at 1 in H.
    assert (Hout :
      (r = Ok (assignments ++ [a]) \/ exists e, r = Throw e) /\ w' = w1).
    { unfold try_catch, bind, createSpouseAppAssignment, throw, provision_catch, ret in H.
      destruct (truthy_opt (prop rec "includeSpouse") &&
                truthy_str (spouseEmail employee));
        destruct rec; cbv beta iota in H; injection H as <- <-; eauto. }
    destruct Hout as [Hr ->]. split.
    + exists [row]. split; [exact Hrows |]. split; [simpl; lia |].
      constructor; [rewrite Hrow; reflexivity | constructor].
    + intros out ->. destruct Hr as [Hr | [e Hr]]; [| discriminate Hr].
      injection Hr as ->. rewrite length_app. simpl. lia.
  - apply createAppAssignment_throw in Hc.
    assert (Hout : (r = Ok assignments \/ exists e, r = Throw e) /\ w' = w1).
    { unfold provision_catch, ret, throw in H.
      destruct rec; cbv beta iota in H; injection H as <- <-; eauto. }
    destruct Hout as [Hr ->]. split.
    + exists []. rewrite app_nil_r. split; [exact Hc |]. split; [simpl; lia | constructor].
    + intros out ->. destruct Hr as [Hr | [e' Hr]]; [| discriminate Hr].
      injection Hr as <-. lia.
  - exfalso. exact (createAppAssignment_returns _ _ _ _ _ Hc).
Qed.

Lemma provision_loop_no_spouse tenantId employeeId employee recs :
  forall assignments w r w',
    provision_loop tenantId employeeId employee assignments recs w = (r, w') ->
    (exists rows, app_assignments w' = app_assignments w ++ rows /\
                  (length rows <= length recs)%nat /\
                  Forall (fun row => as_assigned_to_spouse row = false) rows) /\
    (forall out, r = Ok out ->
                 (length out <= length assignments + length recs)%nat).
Proof.
  induction recs as [| rec rest IH]; intros assignments w r w' H.
  - simpl in H. unfold ret in H. injection H as <- <-. split.
    + exists []. rewrite app_nil_r. repeat split; [simpl; lia | constructor].
    + intros out [= <-]. lia.
  - cbn [provision_loop] in H. unfold bind in H.
    destruct (provision_one tenantId employeeId employee assignments rec w)
      as [[acc | e |] w1] eqn:Hone.
    + apply provision_one_no_spouse in Hone as [(rows1 & Hr1 & Hl1 & Hf1) Hlen1].
      apply IH in H as [(rows2 & Hr2 & Hl2 & Hf2) Hlen2]. split.
      * exists (rows1 ++ rows2). rewrite Hr2, Hr1, <- app_assoc.
        split; [reflexivity |]. split; [rewrite length_app; simpl; lia |].
        apply Forall_app. split; assumption.
      * intros out Hout. specialize (Hlen2 out Hout).
        specialize (Hlen1 acc eq_refl). simpl. lia.
    + apply provision_one_no_spouse in Hone as [(rows1 & Hr1 & Hl1 & Hf1) _].
      injection H as <- <-. split.
      * exists rows1. split; [exact Hr1 |]. split; [simpl; lia | exact Hf1].
      * intros out Hout. discriminate Hout.
    + apply provision_one_no_spouse in Hone as [(rows1 & Hr1 & Hl1 & Hf1) _].
      injection H as <- <-. split.
      * exists rows1. split; [exact Hr1 |]. split; [simpl; lia | exact Hf1].
      * intros out Hout. discriminate Hout.
Qed.

(** The part of C3 that the code keeps: without a spouse e-mail the spouse
    step is skipped and the employee's own assignment is made. *)
Lemma provision_without_spouse_email tenantId employeeId employee rec w a w1 :
  createAppAssignment tenantId employeeId rec w = (Ok a, w1) ->
  truthy_str (spouseEmail employee) = false ->
  provisionAppAccess tenantId employeeId [rec] employee w = (Ok [a], w1).
Proof.
  intros Hc Hno.
  unfold provisionAppAccess. cbn [provision_loop].
  unfold bind at 1. unfold provision_one. unfold bind at 1.
  unfold try_catch at 1. unfold bind at 1. rewrite Hc.
  unfold ret at 1. cbv beta iota. rewrite Hno, andb_false_r. reflexivity.
Qed.

(** ** Re-provisioning *)

(** C4, as stated, fails: the second provisioning of the same pair is an
    error, and the stored configuration is still that of the first call. *)
Lemma reprovision_counterexample :
  let w := sample_world None in
  let again := mkRecommendation "menowellness" "Second opinion" "low" false in
  let first := createAppAssignment "t1" "e1" menowellness_rec w in
  let second := createAppAssignment "t1" "e1" again (snd first) in
  fst first = Ok {| a_id := 0; a_app_name := "menowellness";
                    a_access_level := "basic" |} /\
  fst second = Throw duplicate_key /\
  map as_app_config (app_assignments (snd second)) = [appConfig menowellness_rec] /\
  appConfig again <> appConfig menowellness_rec.
Proof.
  cbv zeta. do 3 (split; [vm_compute; reflexivity |]).
  intros H. vm_compute in H. discriminate H.
Qed.

(** C4, amended. After a successful provisioning of [(employeeId, appName)],
    a second provisioning of the same pair is rejected by the unique
    constraint: [createAppAssignment] throws, the table is unchanged, and it
    holds exactly one row for the pair, active and with the configuration of
    the first call; [provisionAppAccess] swallows the error and returns no
    assignment for that recommendation. *)
Theorem reprovision_rejected_by_unique_constraint
    (w w1 : World) (tenantId employeeId : string) (rec rec' : JVal)
    (employee : Employee) (a : Assignment) :
  createAppAssignment tenantId employeeId rec w = (Ok a, w1) ->
  prop rec' "app" = prop rec "app" ->
  exists w2 row,
    createAppAssignment tenantId employeeId rec' w1 = (Throw duplicate_key, w2) /\
    app_assignments w2 = app_assignments w1 /\
    List.filter (same_pair employeeId (a_app_name a)) (app_assignments w2) = [row] /\
    as_id row = a_id a /\
    as_status row = "active" /\
    as_app_config row = appConfig rec /\
    provisionAppAccess tenantId employeeId [rec'] employee w1 = (Ok [], w2).
Proof.
  intros Hfirst Happ.
  apply createAppAssignment_ok in Hfirst
    as (app & row & Hprop & Hdb & Hvalid & Hfresh & Hrow & Ha & Hw1).
  rewrite Hprop in Happ.
  assert (Hrows : app_assignments w1 = app_assignments w ++ [row])
    by (rewrite Hw1; reflexivity).
  assert (Hdb1 : db_connected w1 = true) by (rewrite Hw1; exact Hdb).
  assert (Hpair : same_pair employeeId app row = true)
    by (apply same_pair_refl; rewrite Hrow; reflexivity).
  assert (Hdup : existsb (same_pair employeeId app) (app_assignments w1) = true).
  { rewrite Hrows, existsb_app. simpl. rewrite Hpair. apply orb_true_iff.
    right. reflexivity. }
  assert (Hsecond :
    createAppAssignment tenantId employeeId rec' w1 =
    (Throw duplicate_key, log_query (InsertAssignment employeeId app) w1)).
  { unfold createAppAssignment.
    destruct rec'; try discriminate Happ. unfold prop in Happ |- *.
    rewrite Happ. unfold bind, db_query, insert_assignment.
    rewrite Hdb1. cbn [app_assignments log_query].
    rewrite Hvalid, Hdup. reflexivity. }
  exists (log_query (InsertAssignment employeeId app) w1), row.
  split; [exact Hsecond |]. split; [reflexivity |].
  split; [| split; [| split; [| split]]].
  - cbn [app_assignments log_query]. rewrite Hrows, Ha. cbn [a_app_name].
    rewrite List.filter_app, (filter_none _ _ Hfresh). simpl.
    rewrite Hpair. reflexivity.
  - rewrite Hrow, Ha. reflexivity.
  - rewrite Hrow. reflexivity.
  - rewrite Hrow. reflexivity.
  - unfold provisionAppAccess. cbn [provision_loop].
    unfold bind at 1. unfold provision_one. unfold bind at 1.
    unfold try_catch at 1. unfold bind at 1. rewrite Hsecond.
    unfold provision_catch.
    destruct rec'; try discriminate Happ. reflexivity.
Qed.

Lemma reprovision_rejected_by_unique_constraint_witness :
  let w := sample_world None in
  let w1 := snd (createAppAssignment "t1" "e1" menowellness_rec w) in
  let a := {| a_id := 0; a_app_name := "menowellness"; a_access_level := "basic" |} in
  exists w2 row,
    createAppAssignment "t1" "e1" menowellness_rec w1 = (Throw duplicate_key, w2) /\
    app_assignments w2 = app_assignments w1 /\
    List.filter (same_pair "e1" (a_app_name a)) (app_assignments w2) = [row] /\
    as_id row = a_id a /\
    as_status row = "active" /\
    as_app_config row = appConfig menowellness_rec /\
    provisionAppAccess "t1" "e1" [menowellness_rec] (employee_50 None) w1 = (Ok [], w2).
Proof.
  cbv zeta.
  apply (reprovision_rejected_by_unique_constraint (sample_world None)
           (snd (createAppAssignment "t1" "e1" menowellness_rec (sample_world None)))
           "t1" "e1" menowellness_rec menowellness_rec (employee_50 None)
           {| a_id := 0; a_app_name := "menowellness"; a_access_level := "basic" |});
    reflexivity.
Defined.

(** ** Validation *)

Lemma log_queries_app qs1 qs2 w :
  log_queries (qs1 ++ qs2) w = log_queries qs2 (log_queries qs1 w).
Proof. unfold log_queries. apply fold_left_app. Qed.

Lemma log_queries_frame qs :
  forall w,
    db_connected (log_queries qs w) = db_connected w /\
    companies (log_queries qs w) = companies w /\
    employees (log_queries qs w) = employees w /\
    employeeQueue (log_queries qs w) = employeeQueue w /\
    redis (log_queries qs w) = redis w /\
    redis_connected (log_queries qs w) = redis_connected w /\
    ticks (log_queries qs w) = ticks w /\
    clock (log_queries qs w) = clock w /\
    db_queries (log_queries qs w) = db_queries w ++ qs.
Proof.
  induction qs as [| q qs IH]; intros w; simpl.
  - rewrite app_nil_r. repeat split.
  - destruct (IH (log_query q w)) as (H1 & H2 & H3 & H4 & H5 & H6 & H7 & H8 & H9).
    rewrite H1, H2, H3, H4, H5, H6, H7, H8, H9. simpl.
    rewrite <- app_assoc. repeat split.
Qed.



Lemma existing_rule_run tenantId employee w :
  db_connected w = true ->
  exists e3,
    existing_rule tenantId employee w =
    (Ok e3, log_queries (existence_checks tenantId [employee]) w).
Proof.
  intros Hdb. unfold existing_rule, existence_checks. simpl.
  destruct (truthy_str (email employee)); simpl.
  - unfold bind, checkExistingEmployee, bind, db_query, ret. rewrite Hdb.
    eexists. reflexivity.
  - eexists. reflexivity.
Qed.



(** The loop over a roster in two parts is the loop over the first part
    followed by the loop over the second. *)
Lemma validate_rows_app tenantId tenant rows1 rows2 :
  forall st index w,
    validate_rows tenantId tenant st index (rows1 ++ rows2) w =
    match validate_rows tenantId tenant st index rows1 w with
    | (Ok st1, w1) =>
        validate_rows tenantId tenant st1 (index + length rows1)%nat rows2 w1
    | (Throw e, w1) => (Throw e, w1)
    | (Diverge, w1) => (Diverge, w1)
    end.
Proof.
  induction rows1 as [| employee rest IH]; intros st index w.
  - simpl. unfold ret. rewrite Nat.add_0_r. reflexivity.
  - cbn [validate_rows app length]. unfold bind.
    destruct (validate_row tenantId tenant st index employee w) as [[st1 | e |] w1];
      [| reflexivity | reflexivity].
    rewrite IH. replace (S index + length rest)%nat with (index + S (length rest))%nat by lia.
    reflexivity.
Qed.

(** The only trace a validation leaves in the world is its queries. *)
Lemma validate_row_world tenantId tenant st index employee w r w' :
  validate_row tenantId tenant st index employee w = (r, w') ->
  exists qs, w' = log_queries qs w.
Proof.
  unfold validate_row. destruct (email_rule employee (vs_emailSet st)) as [e1 es].
  unfold bind, existing_rule, checkExistingEmployee, bind, db_query, capacity_rule,
    throw, ret.
  intros H.
  destruct (truthy_str (email employee)); [destruct (db_connected w) |];
    destruct tenant; cbv beta iota in H; injection H as _ <-;
    first [ exists []; reflexivity | eexists [_]; reflexivity ].
Qed.

Lemma validate_rows_world tenantId tenant rows :
  forall st index w r w',
    validate_rows tenantId tenant st index rows w = (r, w') ->
    exists qs, w' = log_queries qs w.
Proof.
  induction rows as [| employee rest IH]; intros st index w r w' H.
  - simpl in H. unfold ret in H. injection H as _ <-. exists []. reflexivity.
  - cbn [validate_rows] in H. unfold bind in H.
    destruct (validate_row tenantId tenant st index employee w) as [[st1 | e |] w1] eqn:Hrow;
      apply validate_row_world in Hrow as [qs1 ->].
    + apply IH in H as [qs2 ->]. exists (qs1 ++ qs2). apply eq_sym, log_queries_app.
    + injection H as _ <-. exists qs1. reflexivity.
    + injection H as _ <-. exists qs1. reflexivity.
Qed.

Lemma validateEmployeeData_world employees tenantId w r w' :
  validateEmployeeData employees tenantId w = (r, w') ->
  exists qs, w' = log_queries qs w.
Proof.
  unfold validateEmployeeData, getTenantConfig. unfold bind at 1 2.
  unfold db_query. intros H.
  destruct (db_connected w).
  - cbv beta iota in H. unfold bind in H.
    destruct (validate_rows _ _ _ _ _ _) as [[st | e |] w1] eqn:Hrows in H;
      apply validate_rows_world in Hrows as [qs ->];
      unfold ret in H; injection H as _ <-;
      exists (SelectCompany tenantId :: qs); reflexivity.
  - injection H as _ <-. exists [SelectCompany tenantId]. reflexivity.
Qed.




(** ** Upload *)

Lemma validate_row_partitioned tenantId tenant st index employee w st' w' :
  validate_row tenantId tenant st index employee w = (Ok st', w') ->
  partitioned [employee] (vs_result st) (vs_result st').
Proof.
  unfold validate_row.
  destruct (email_rule employee (vs_emailSet st)) as [e1 es].
  unfold bind. destruct (existing_rule tenantId employee w) as [[e3 | |] w1];
    try discriminate.
  destruct (capacity_rule tenant _ w1) as [[e4 | |] w2]; try discriminate.
  unfold ret. intros H. injection H as <- _. cbn [vs_result].
  destruct (e1 ++ name_rules employee ++ e3 ++ e4) as [| x l] eqn:Herr;
    constructor; cbn.
  - exists [with_rowIndex employee (index + 2)]. split; [reflexivity |].
    exists []. rewrite !app_nil_r. repeat split. constructor.
  - exists []. rewrite app_nil_r. split; [reflexivity |].
    eexists [_]. split; [reflexivity |]. split; [reflexivity |].
    split; [reflexivity |]. constructor; [discriminate | constructor].
Qed.

Lemma partitioned_refl a : partitioned [] a a.
Proof.
  constructor. exists []. split; [symmetry; apply app_nil_r |].
  exists []. simpl. rewrite !app_nil_r. repeat split. constructor.
Qed.

Lemma partitioned_trans rows1 rows2 a b c :
  partitioned rows1 a b -> partitioned rows2 b c -> partitioned (rows1 ++ rows2) a c.
Proof.
  intros [(acc1 & Hv1 & rej1 & Hi1 & He1 & Hl1 & Hf1)]
         [(acc2 & Hv2 & rej2 & Hi2 & He2 & Hl2 & Hf2)].
  constructor. exists (acc1 ++ acc2). split; [rewrite Hv2, Hv1, app_assoc; reflexivity |].
  exists (rej1 ++ rej2). split; [rewrite Hi2, Hi1, app_assoc; reflexivity |].
  split; [rewrite He2, He1, map_app, app_assoc; reflexivity |].
  split; [rewrite !length_app; lia |].
  apply Forall_app. split; assumption.
Qed.

Lemma validate_rows_partitioned tenantId tenant rows :
  forall st index w st' w',
    validate_rows tenantId tenant st index rows w = (Ok st', w') ->
    partitioned rows (vs_result st) (vs_result st').
Proof.
  induction rows as [| employee rest IH]; intros st index w st' w' H.
  - simpl in H. unfold ret in H. injection H as <- _. apply partitioned_refl.
  - cbn [validate_rows] in H. unfold bind in H.
    destruct (validate_row tenantId tenant st index employee w) as [[st1 | |] w1] eqn:Hrow;
      try discriminate H.
    apply validate_row_partitioned in Hrow. apply IH in H.
    exact (partitioned_trans [employee] rest _ _ _ Hrow H).
Qed.

Lemma validateEmployeeData_partitioned employees tenantId w vr w' :
  validateEmployeeData employees tenantId w = (Ok vr, w') ->
  (length (validEmployees vr) + length (invalidEmployees vr) = length employees)%nat /\
  errors vr = map error_line (invalidEmployees vr) /\
  Forall (fun ie => ie_errors ie <> []) (invalidEmployees vr).
Proof.
  unfold validateEmployeeData. unfold bind at 1.
  destruct (getTenantConfig tenantId w) as [[tenant | |] w0]; try discriminate.
  unfold bind.
  destruct (validate_rows _ _ _ _ _ _) as [[st | |] w1] eqn:Hrows; try discriminate.
  unfold ret. intros H. injection H as <- _.
  apply validate_rows_partitioned in Hrows
    as [(acc & Hv & rej & Hi & He & Hl & Hf)].
  cbn in Hv, Hi, He. rewrite Hv, Hi, He. repeat split; assumption.
Qed.

Lemma processCSVUpload_unfold tenantId csvFile options w :
  processCSVUpload tenantId csvFile options w =
  try_catch
    (upload_try tenantId (upload_id tenantId w) csvFile options (clock w (ticks w)))
    (upload_catch tenantId (upload_id tenantId w))
    (set_ticks (S (S (ticks w))) w).
Proof. reflexivity. Qed.

Lemma createOnboardingSession_run tenantId onboardingId data w :
  createOnboardingSession tenantId onboardingId data w =
    (Ok tt, snd (createOnboardingSession tenantId onboardingId data w)) /\
  employeeQueue (snd (createOnboardingSession tenantId onboardingId data w)) =
    employeeQueue w.
Proof.
  unfold createOnboardingSession, bind, date_now, redis_setex, ret.
  cbn [redis_connected set_ticks]. destruct (redis_connected w); split; reflexivity.
Qed.






(** ** Dry run *)

(** C2 fails on the code: [processCSVUpload] never reads [options.dryRun].
    An upload of one acceptable row with [dryRun: true], as made by
    [POST /api/onboarding/validate], answers [processing], leaves a session
    record in Redis and a batch job on the queue. *)
Lemma dry_run_has_side_effects :
  let w := sample_world None in
  let rows := firstn 1 mixed_rows in
  let r := processCSVUpload "t1" (roster_file rows) dry_run_options w in
  truthy_opt (prop dry_run_options "dryRun") = true /\
  redis w = ∅ /\ employeeQueue w = [] /\
  option_map r_status (match fst r with Ok response => Some response | _ => None end) =
    Some "processing" /\
  option_map d_status (redis (snd r) !! session_key (upload_id "t1" w)) =
    Some (Some "processing") /\
  map (fun job => (job_name job, job_batchIndex job, length (job_employees job),
                   truthy_opt (prop (job_options job) "dryRun")))
      (employeeQueue (snd r)) =
    [("process-employee-batch", 0%nat, 1%nat, true)].
Proof.
  cbv zeta. repeat split; vm_compute; reflexivity.
Qed.

(** ** What validation guarantees *)

Lemma isValidEmail_nonempty a : isValidEmail a = true -> a <> "".
Proof. intros H ->. discriminate H. Qed.

Lemma email_rule_accepts r S :
  fst (email_rule r S) = [] ->
  exists a, email r = Some a /\ isValidEmail a = true /\ (a ∉ S) /\
            snd (email_rule r S) = {[a]} ∪ S.
Proof.
  unfold email_rule. destruct (email r) as [a |]; simpl; [| discriminate].
  destruct (String.eqb a ""); simpl; [discriminate |].
  destruct (isValidEmail a) eqn:Hv; simpl; [| discriminate].
  case_bool_decide; simpl; [discriminate |].
  intros _. exists a. repeat split; assumption.
Qed.

Lemma email_rule_grows r S a : a ∈ S -> a ∈ snd (email_rule r S).
Proof.
  intros Hin. unfold email_rule.
  destruct (negb (truthy_str (email r))); [exact Hin |].
  destruct (negb (isValidEmail _)); [exact Hin |].
  case_bool_decide; simpl; [exact Hin | set_solver].
Qed.

Lemma email_rule_records r S a :
  email r = Some a -> isValidEmail a = true -> a ∈ snd (email_rule r S).
Proof.
  intros He Hv. unfold email_rule. rewrite He. simpl.
  destruct (String.eqb_spec a "") as [-> | _]; [discriminate Hv |]. simpl.
  rewrite Hv. simpl. case_bool_decide; simpl; [assumption | set_solver].
Qed.

Lemma email_rule_duplicate r S a :
  email r = Some a -> isValidEmail a = true -> a ∈ S ->
  fst (email_rule r S) = [duplicate_message].
Proof.
  intros He Hv Hin. unfold email_rule. rewrite He. simpl.
  destruct (String.eqb_spec a "") as [-> | _]; [discriminate Hv |]. simpl.
  rewrite Hv. simpl. rewrite bool_decide_eq_true_2 by exact Hin. reflexivity.
Qed.

Lemma name_rules_accepts r :
  name_rules r = [] ->
  truthy_str (firstName r) = true /\ truthy_str (lastName r) = true.
Proof.
  unfold name_rules.
  destruct (truthy_str (firstName r)), (truthy_str (lastName r)); simpl;
    intros H; try discriminate H; split; reflexivity.
Qed.

Lemma head_filter_none {A} (P : A -> Prop) `{forall x, Decision (P x)} (l : list A) :
  head (filter P l) = None -> forall x, In x l -> ~ P x.
Proof.
  induction l as [| y l IH]; intros Hh x Hin; [destruct Hin |].
  rewrite filter_cons in Hh. destruct (decide (P y)) as [Hy | Hy]; [discriminate Hh |].
  destruct Hin as [-> | Hin]; [exact Hy | exact (IH Hh x Hin)].
Qed.

Lemma existing_rule_accepts tenantId r a w w1 :
  existing_rule tenantId r w = (Ok [], w1) ->
  email r = Some a -> a <> "" ->
  ~ already_employed w tenantId a.
Proof.
  unfold existing_rule. intros H He Hne. rewrite He in H. simpl in H.
  destruct (String.eqb_spec a "") as [| _]; [contradiction |]. simpl in H.
  unfold bind, checkExistingEmployee, bind, db_query, ret in H.
  destruct (db_connected w); [| discriminate H].
  cbn [employees log_query] in H.
  destruct (head _) as [row |] eqn:Hhead in H; [discriminate H |].
  intros (row & Hin & Hc & Hm).
  apply (head_filter_none _ _ Hhead row Hin).
  rewrite Hc, Hm, !String.eqb_refl. reflexivity.
Qed.

Lemma capacity_rule_accepts tenant accepted w w1 t m :
  capacity_rule tenant accepted w = (Ok [], w1) ->
  tenant = Some t -> maxEmployees t = Some m -> 0 < m ->
  Z.of_nat (length accepted) < m.
Proof.
  intros H -> Hm Hpos. unfold capacity_rule, ret in H. rewrite Hm in H.
  destruct (Z.eqb_spec m 0); [lia |]. simpl in H.
  destruct (Z.geb_spec (Z.of_nat (length accepted)) m); [discriminate H | lia].
Qed.

(** The two ways one turn of the loop can end. *)
Lemma validate_row_verdict tenantId tenant st index r w st' w' :
  validate_row tenantId tenant st index r w = (Ok st', w') ->
  vs_emailSet st' = snd (email_rule r (vs_emailSet st)) /\
  exists e3 e4 w1,
    existing_rule tenantId r w = (Ok e3, w1) /\
    capacity_rule tenant (validEmployees (vs_result st)) w1 = (Ok e4, w') /\
    ((fst (email_rule r (vs_emailSet st)) = [] /\ name_rules r = [] /\
      e3 = [] /\ e4 = [] /\
      validEmployees (vs_result st') =
        validEmployees (vs_result st) ++ [with_rowIndex r (index + 2)] /\
      invalidEmployees (vs_result st') = invalidEmployees (vs_result st)) \/
     (exists reasons,
        reasons = fst (email_rule r (vs_emailSet st)) ++ name_rules r ++ e3 ++ e4 /\
        reasons <> [] /\
        validEmployees (vs_result st') = validEmployees (vs_result st) /\
        invalidEmployees (vs_result st') =
          invalidEmployees (vs_result st) ++
          [{| ie_rowIndex := index + 2; ie_employee := r; ie_errors := reasons |}])).
Proof.
  unfold validate_row.
  destruct (email_rule r (vs_emailSet st)) as [e1 S'] eqn:Hrule.
  unfold bind.
  destruct (existing_rule tenantId r w) as [[e3 | |] w1]; try discriminate.
  destruct (capacity_rule tenant _ w1) as [[e4 | |] w2] eqn:Hcap; try discriminate.
  unfold ret. intros H. injection H as <- <-. cbn [vs_emailSet vs_result snd fst].
  split; [reflexivity |]. exists e3, e4, w1.
  split; [reflexivity |]. split; [exact Hcap |].
  destruct (e1 ++ name_rules r ++ e3 ++ e4) as [| x l] eqn:Herr.
  - left. apply app_eq_nil in Herr as [-> Herr].
    apply app_eq_nil in Herr as [-> Herr].
    apply app_eq_nil in Herr as [-> ->]. cbn. repeat split.
  - right. eexists. split; [reflexivity |]. split; [discriminate |].
    cbn. split; reflexivity.
Qed.

Lemma validate_rows_snoc tenantId tenant st0 done r w st w' :
  validate_rows tenantId tenant st0 0 (done ++ [r]) w = (Ok st, w') ->
  exists st1 w1,
    validate_rows tenantId tenant st0 0 done w = (Ok st1, w1) /\
    validate_row tenantId tenant st1 (length done) r w1 = (Ok st, w').
Proof.
  rewrite validate_rows_app.
  destruct (validate_rows tenantId tenant st0 0 done w) as [[st1 | |] w1];
    try discriminate.
  cbn [validate_rows]. unfold bind.
  destruct (validate_row tenantId tenant st1 (0 + length done) r w1)
    as [[st2 | |] w2] eqn:Hrow; try discriminate.
  unfold ret. intros H. injection H as <- <-.
  exists st1, w1. split; [reflexivity | exact Hrow].
Qed.

Lemma already_employed_frame qs w tenantId a :
  already_employed (log_queries qs w) tenantId a <-> already_employed w tenantId a.
Proof.
  unfold already_employed.
  destruct (log_queries_frame qs w) as (_ & _ & -> & _). reflexivity.
Qed.

Lemma validated_start w tenantId tenant : validated w tenantId tenant [] validation_start.
Proof.
  constructor; simpl; try (intros; contradiction); try constructor.
  - intros i j r r' a _ H. discriminate H.
  - intros t m _ _ Hm. lia.
Qed.

(** One more row keeps what the loop has established. *)
Lemma validated_step w w1 w' tenantId tenant done st1 r st qs :
  w1 = log_queries qs w ->
  validated w tenantId tenant done st1 ->
  validate_row tenantId tenant st1 (length done) r w1 = (Ok st, w') ->
  validated w tenantId tenant (done ++ [r]) st.
Proof.
  intros Hw1 IH Hrow.
  apply validate_row_verdict in Hrow
    as (Hset & e3 & e4 & w2 & Hex & Hcap & Hverdict).
  assert (Hgrow : forall a, a ∈ vs_emailSet st1 -> a ∈ vs_emailSet st)
    by (intros a Ha; rewrite Hset; apply email_rule_grows; exact Ha).
  assert (Hold : forall e, In e (validEmployees (vs_result st1)) ->
    exists i r0 a,
      (done ++ [r]) !! i = Some r0 /\ e = with_rowIndex r0 (i + 2) /\
      email r0 = Some a /\ isValidEmail a = true /\ a ∈ vs_emailSet st /\
      truthy_str (firstName r0) = true /\ truthy_str (lastName r0) = true /\
      ~ already_employed w tenantId a).
  { intros e He. destruct (v_accepted _ _ _ _ _ IH e He)
      as (i & r0 & a & Hi & -> & Ha & Hv & Hin & Hf & Hl & Hn).
    exists i, r0, a. split; [apply lookup_app_l_Some; exact Hi |].
    repeat split; auto. }
  assert (Hold_rej : forall ie, In ie (invalidEmployees (vs_result st1)) ->
    exists i, (done ++ [r]) !! i = Some (ie_employee ie) /\
              ie_rowIndex ie = (i + 2)%nat).
  { intros ie Hie. destruct (v_rejected _ _ _ _ _ IH ie Hie) as (i & Hi & Hidx).
    exists i. split; [apply lookup_app_l_Some; exact Hi | exact Hidx]. }
  assert (Hseen : forall r0 a, In r0 (done ++ [r]) -> email r0 = Some a ->
                               isValidEmail a = true -> a ∈ vs_emailSet st).
  { intros r0 a Hin Ha Hv. apply in_app_or in Hin as [Hin | [<- | []]].
    - apply Hgrow. exact (v_seen _ _ _ _ _ IH r0 a Hin Ha Hv).
    - rewrite Hset. apply email_rule_records; assumption. }
  assert (Hlast : (done ++ [r]) !! length done = Some r)
    by apply list_lookup_middle, eq_refl.
  destruct Hverdict as [(He1 & He2 & -> & -> & Hvalid & Hinvalid)
                       | (reasons & Hreasons & Hne & Hvalid & Hinvalid)].
  - (* the row is accepted *)
    apply email_rule_accepts in He1 as (a & Ha & Hv & Hfresh & Hset').
    apply name_rules_accepts in He2 as [Hf Hl].
    assert (Hnew : ~ already_employed w tenantId a).
    { rewrite <- (already_employed_frame qs). rewrite <- Hw1.
      apply (existing_rule_accepts tenantId r a w1 w2 Hex Ha).
      apply isValidEmail_nonempty. exact Hv. }
    constructor.
    + intros e He. rewrite Hvalid in He. apply in_app_or in He as [He | [<- | []]].
      * exact (Hold e He).
      * exists (length done), r, a. repeat split; auto.
        rewrite Hset, Hset'. apply elem_of_union_l, elem_of_singleton. reflexivity.
    + rewrite Hvalid, map_app. apply NoDup_app. split; [exact (v_distinct _ _ _ _ _ IH) |].
      split; [| apply NoDup_singleton].
      intros x Hx Hx'. apply list_elem_of_In in Hx, Hx'.
      simpl in Hx'. destruct Hx' as [<- | []]. simpl in Hx. rewrite Ha in Hx.
      apply in_map_iff in Hx as (e & Heq & He).
      destruct (v_accepted _ _ _ _ _ IH e He)
        as (i & r0 & a0 & _ & -> & Ha0 & _ & Hin0 & _).
      simpl in Heq. rewrite Ha0 in Heq. injection Heq as ->. contradiction.
    + exact Hseen.
    + intros ie Hie. rewrite Hinvalid in Hie. exact (Hold_rej ie Hie).
    + intros i j r0 r' a0 Hji Hj Hi Ha' Ha0 Hv0.
      destruct (Nat.eq_dec i (length done)) as [-> | Hne].
      * exfalso. rewrite Hlast in Hi. injection Hi as <-.
        rewrite Ha in Ha0. injection Ha0 as <-.
        apply Hfresh. apply (v_seen _ _ _ _ _ IH r' a); [| exact Ha' | exact Hv].
        rewrite lookup_app_l in Hj by lia.
        apply list_elem_of_In. eapply list_elem_of_lookup_2. exact Hj.
      * assert (Hi' : (i < length done)%nat).
        { apply lookup_lt_Some in Hi. rewrite length_app in Hi. simpl in Hi. lia. }
        rewrite lookup_app_l in Hi, Hj by lia.
        destruct (v_duplicates _ _ _ _ _ IH i j r0 r' a0 Hji Hj Hi Ha' Ha0 Hv0)
          as (ie & Hie & Hrest).
        exists ie. rewrite Hinvalid. split; [exact Hie | exact Hrest].
    + intros t m Ht Hm Hpos. rewrite Hvalid, length_app. simpl.
      pose proof (capacity_rule_accepts _ _ _ _ t m Hcap Ht Hm Hpos). lia.
  - (* the row is rejected *)
    constructor.
    + intros e He. rewrite Hvalid in He. exact (Hold e He).
    + rewrite Hvalid. exact (v_distinct _ _ _ _ _ IH).
    + exact Hseen.
    + intros ie Hie. rewrite Hinvalid in Hie.
      apply in_app_or in Hie as [Hie | [<- | []]]; [exact (Hold_rej ie Hie) |].
      exists (length done). split; [exact Hlast | reflexivity].
    + intros i j r0 r' a0 Hji Hj Hi Ha' Ha0 Hv0.
      destruct (Nat.eq_dec i (length done)) as [-> | Hnei].
      * rewrite Hlast in Hi. injection Hi as <-.
        assert (Hin : a0 ∈ vs_emailSet st1).
        { apply (v_seen _ _ _ _ _ IH r' a0); [| exact Ha' | exact Hv0].
          rewrite lookup_app_l in Hj by lia.
          apply list_elem_of_In. eapply list_elem_of_lookup_2. exact Hj. }
        eexists. rewrite Hinvalid. split; [apply in_or_app; right; left; reflexivity |].
        cbn. repeat split. rewrite Hreasons.
        rewrite (email_rule_duplicate r _ a0 Ha0 Hv0 Hin). left. reflexivity.
      * assert (Hi' : (i < length done)%nat).
        { apply lookup_lt_Some in Hi. rewrite length_app in Hi. simpl in Hi. lia. }
        rewrite lookup_app_l in Hi, Hj by lia.
        destruct (v_duplicates _ _ _ _ _ IH i j r0 r' a0 Hji Hj Hi Ha' Ha0 Hv0)
          as (ie & Hie & Hrest).
        exists ie. rewrite Hinvalid. split; [apply in_or_app; left; exact Hie | exact Hrest].
    + intros t m Ht Hm Hpos. rewrite Hvalid.
      exact (v_capacity _ _ _ _ _ IH t m Ht Hm Hpos).
Qed.

Lemma validate_rows_validated w0 tenantId tenant qs0 done :
  forall st w',
    validate_rows tenantId tenant validation_start 0 done (log_queries qs0 w0) =
      (Ok st, w') ->
    validated w0 tenantId tenant done st.
Proof.
  induction done as [| r done IH] using rev_ind; intros st w' H.
  - simpl in H. unfold ret in H. injection H as <- _. apply validated_start.
  - apply validate_rows_snoc in H as (st1 & w1 & Hdone & Hrow).
    pose proof (IH st1 w1 Hdone) as Hinv.
    apply validate_rows_world in Hdone as [qs ->].
    rewrite <- log_queries_app in Hrow.
    exact (validated_step w0 _ w' tenantId tenant done st1 r st (qs0 ++ qs)
             eq_refl Hinv Hrow).
Qed.

(** What a completed run of [validateEmployeeData] has established. *)
Lemma validateEmployeeData_validated employees tenantId w vr w' :
  validateEmployeeData employees tenantId w = (Ok vr, w') ->
  exists st,
    vs_result st = vr /\
    validated w tenantId (companies w !! tenantId) employees st.
Proof.
  unfold validateEmployeeData, getTenantConfig. unfold bind at 1 2.
  unfold db_query. intros H.
  destruct (db_connected w); [| discriminate H].
  cbv beta iota in H. cbn [companies log_query] in H. unfold bind in H.
  destruct (validate_rows _ _ _ _ _ _) as [[st | |] w1] eqn:Hrows in H;
    try discriminate H.
  unfold ret in H. injection H as <- _. exists st. split; [reflexivity |].
  exact (validate_rows_validated w tenantId _ [SelectCompany tenantId] employees
           st w1 Hrows).
Qed.

(** X1. Every row that [validateEmployeeData] accepts has a well-formed
    e-mail, a first and a last name, and no employee record of the tenant
    under that e-mail; no two accepted rows share an e-mail. *)
Theorem accepted_rows_are_sound
    (employees : list Employee) (tenantId : string) (w w' : World)
    (vr : ValidationResult) :
  validateEmployeeData employees tenantId w = (Ok vr, w') ->
  (forall e, In e (validEmployees vr) ->
     exists a, email e = Some a /\ isValidEmail a = true /\
               truthy_str (firstName e) = true /\
               truthy_str (lastName e) = true /\
               ~ already_employed w tenantId a) /\
  NoDup (map email (validEmployees vr)).
Proof.
  intros H. apply validateEmployeeData_validated in H as (st & <- & Hinv).
  split; [| exact (v_distinct _ _ _ _ _ Hinv)].
  intros e He.
  destruct (v_accepted _ _ _ _ _ Hinv e He)
    as (i & r & a & _ & -> & Ha & Hv & _ & Hf & Hl & Hn).
  exists a. repeat split; assumption.
Qed.

Lemma accepted_rows_are_sound_witness :
  exists vr,
    fst (validateEmployeeData repeated_rows "t1" (sample_world None)) = Ok vr /\
    (forall e, In e (validEmployees vr) ->
       exists a, email e = Some a /\ isValidEmail a = true /\
                 truthy_str (firstName e) = true /\
                 truthy_str (lastName e) = true /\
                 ~ already_employed (sample_world None) "t1" a) /\
    NoDup (map email (validEmployees vr)).
Proof.
  destruct (validateEmployeeData repeated_rows "t1" (sample_world None))
    as [[vr | e |] w'] eqn:Hrun; try (vm_compute in Hrun; discriminate Hrun).
  exists vr. split; [reflexivity |].
  exact (accepted_rows_are_sound repeated_rows "t1" (sample_world None) w' vr Hrun).
Defined.

(** X2. The row number carried by an accepted or a rejected record is that
    of its row in the roster, counted from 2 (the header is line 1): the
    record at [rowIndex] n is the row of index n - 2. *)
Theorem row_numbers_point_to_rows
    (employees : list Employee) (tenantId : string) (w w' : World)
    (vr : ValidationResult) :
  validateEmployeeData employees tenantId w = (Ok vr, w') ->
  (forall e, In e (validEmployees vr) ->
     exists i r, employees !! i = Some r /\ e = with_rowIndex r (i + 2)) /\
  (forall ie, In ie (invalidEmployees vr) ->
     exists i, employees !! i = Some (ie_employee ie) /\
               ie_rowIndex ie = (i + 2)%nat).
Proof.
  intros H. apply validateEmployeeData_validated in H as (st & <- & Hinv). split.
  - intros e He.
    destruct (v_accepted _ _ _ _ _ Hinv e He) as (i & r & a & Hi & -> & _).
    exists i, r. split; [exact Hi | reflexivity].
  - exact (v_rejected _ _ _ _ _ Hinv).
Qed.

Lemma row_numbers_point_to_rows_witness :
  exists vr,
    fst (validateEmployeeData repeated_rows "t1" (sample_world None)) = Ok vr /\
    (forall e, In e (validEmployees vr) ->
       exists i r, repeated_rows !! i = Some r /\ e = with_rowIndex r (i + 2)) /\
    (forall ie, In ie (invalidEmployees vr) ->
       exists i, repeated_rows !! i = Some (ie_employee ie) /\
                 ie_rowIndex ie = (i + 2)%nat).
Proof.
  destruct (validateEmployeeData repeated_rows "t1" (sample_world None))
    as [[vr | e |] w'] eqn:Hrun; try (vm_compute in Hrun; discriminate Hrun).
  exists vr. split; [reflexivity |].
  exact (row_numbers_point_to_rows repeated_rows "t1" (sample_world None) w' vr Hrun).
Defined.

(** X3. A row whose well-formed e-mail already occurs in an earlier row of
    the same roster is rejected with the reason "Duplicate email address",
    under its own row number. *)
Theorem repeated_email_is_rejected
    (employees : list Employee) (tenantId : string) (w w' : World)
    (vr : ValidationResult) (i j : nat) (r r' : Employee) (a : string) :
  validateEmployeeData employees tenantId w = (Ok vr, w') ->
  (j < i)%nat ->
  employees !! j = Some r' ->
  employees !! i = Some r ->
  email r' = Some a ->
  email r = Some a ->
  isValidEmail a = true ->
  exists ie,
    In ie (invalidEmployees vr) /\
    ie_employee ie = r /\
    ie_rowIndex ie = (i + 2)%nat /\
    In duplicate_message (ie_errors ie).
Proof.
  intros H Hji Hj Hi Ha' Ha Hv.
  apply validateEmployeeData_validated in H as (st & <- & Hinv).
  exact (v_duplicates _ _ _ _ _ Hinv i j r r' a Hji Hj Hi Ha' Ha Hv).
Qed.

Lemma repeated_email_is_rejected_witness :
  exists vr ie,
    fst (validateEmployeeData repeated_rows "t1" (sample_world None)) = Ok vr /\
    In ie (invalidEmployees vr) /\
    ie_employee ie =
      plain_employee (Some "ann@corp.example") (Some "Anna") (Some "Bb") /\
    ie_rowIndex ie = 4%nat /\
    In duplicate_message (ie_errors ie).
Proof.
  destruct (validateEmployeeData repeated_rows "t1" (sample_world None))
    as [[vr | e |] w'] eqn:Hrun; try (vm_compute in Hrun; discriminate Hrun).
  destruct (repeated_email_is_rejected repeated_rows "t1" (sample_world None) w' vr
              2 0 (plain_employee (Some "ann@corp.example") (Some "Anna") (Some "Bb"))
              (plain_employee (Some "ann@corp.example") (Some "Ann") (Some "Ba"))
              "ann@corp.example" Hrun)
    as (ie & H); [lia | reflexivity | reflexivity | reflexivity | reflexivity |
                  reflexivity |].
  exists vr, ie. split; [reflexivity | exact H].
Defined.



(** X5. For a tenant without a company row, validation of a roster that
    has at least one row does not report "tenant not found": it issues the
    first row's existence check and then throws the TypeError of reading
    [maxEmployees] on [undefined]; no row is accepted or rejected. *)
Theorem unknown_tenant_throws
    (r : Employee) (rest : list Employee) (tenantId : string) (w : World) :
  db_connected w = true ->
  companies w !! tenantId = None ->
  validateEmployeeData (r :: rest) tenantId w =
    (Throw "Cannot read properties of undefined (reading 'maxEmployees')",
     log_queries (SelectCompany tenantId :: existence_checks tenantId [r]) w).
Proof.
  intros Hdb Hnone.
  unfold validateEmployeeData, getTenantConfig. unfold bind at 1 2.
  unfold db_query. rewrite Hdb. cbv beta iota. cbn [companies log_query].
  rewrite Hnone. unfold bind at 1. cbn [validate_rows]. unfold bind at 1.
  unfold validate_row.
  destruct (email_rule r (vs_emailSet _)) as [e1 S'].
  destruct (existing_rule_run tenantId r (log_query (SelectCompany tenantId) w))
    as (e3 & He3); [exact Hdb |].
  unfold bind at 1. rewrite He3. reflexivity.
Qed.

Lemma unknown_tenant_throws_witness :
  validateEmployeeData three_rows "nobody" (sample_world None) =
    (Throw "Cannot read properties of undefined (reading 'maxEmployees')",
     log_queries (SelectCompany "nobody" ::
                  existence_checks "nobody" (firstn 1 three_rows))
       (sample_world None)).
Proof.
  apply (unknown_tenant_throws _ _ "nobody" (sample_world None)); reflexivity.
Defined.

(** ** The e-mail pattern *)






(** ** Sizes of the batches *)

Lemma ceil_index (n bs k : nat) :
  (0 < bs)%nat -> (k < (n + bs - 1) / bs)%nat -> (k * bs < n)%nat.
Proof.
  intros Hbs Hk.
  pose proof (Nat.Div0.mul_div_le (n + bs - 1) bs) as Hle. nia.
Qed.

(** X7. For a positive batch size no batch is empty and none is longer than
    the batch size; the batch of index [k] holds
    [min batchSize (n - k * batchSize)] rows, so every batch but the last is
    full. *)
Theorem createBatches_batch_sizes {A} (array : list A) (batchSize : nat)
    (batches : list (list A)) (k : nat) :
  (0 < batchSize)%nat ->
  createBatches array batchSize = Some batches ->
  (k < length batches)%nat ->
  length (nth k batches []) = Nat.min batchSize (length array - k * batchSize) /\
  (0 < length (nth k batches []) <= batchSize)%nat /\
  ((S k < length batches)%nat -> length (nth k batches []) = batchSize).
Proof.
  intros Hbs Hrun Hk.
  destruct (createBatches_loop_spec batchSize array Hbs (S (length array)) 0 [])
    as (rest & Hrest & _ & Hlen & Hnth); [lia |].
  unfold createBatches in Hrun. rewrite Hrest in Hrun. simpl in Hrun.
  injection Hrun as <-.
  rewrite Nat.sub_0_r in Hlen.
  assert (Hsize : length (nth k rest []) =
                  Nat.min batchSize (length array - k * batchSize)).
  { rewrite (Hnth k Hk). simpl. rewrite slice_take_drop.
    rewrite length_firstn, length_skipn. reflexivity. }
  pose proof (ceil_index (length array) batchSize k Hbs ltac:(lia)) as Hin.
  split; [exact Hsize |]. split; [lia |].
  intros Hnext.
  pose proof (ceil_index (length array) batchSize (S k) Hbs ltac:(lia)) as Hin'.
  rewrite Hsize. simpl in Hin'. lia.
Qed.

Lemma createBatches_batch_sizes_witness :
  length (nth 2 [[1; 2]; [3; 4]; [5]] []) = Nat.min 2 (length [1; 2; 3; 4; 5] - 2 * 2) /\
  (0 < length (nth 2 [[1; 2]; [3; 4]; [5]] []) <= 2)%nat /\
  ((3 < length [[1; 2]; [3; 4]; [5]])%nat ->
   length (nth 2 [[1; 2]; [3; 4]; [5]] []) = 2%nat).
Proof.
  apply (createBatches_batch_sizes [1; 2; 3; 4; 5] 2 [[1; 2]; [3; 4]; [5]] 2);
    [lia | reflexivity | simpl; lia].
Defined.

(** X8. With a batch size of zero the counter of [createBatches] never
    advances: on a non-empty array the loop is still running after any
    number of turns. *)
Theorem createBatches_zero_size_diverges {A} (array : list A) (fuel : nat) :
  (0 < length array)%nat ->
  createBatches_loop fuel array 0 0 [] = None.
Proof.
  intros Hlen. revert Hlen. generalize (@nil (list A)).
  induction fuel as [| fuel IH]; intros batches Hlen; [reflexivity |].
  simpl. destruct (Nat.ltb_spec 0 (length array)); [| lia].
  apply IH. exact Hlen.
Qed.

Lemma createBatches_zero_size_diverges_witness :
  createBatches_loop 1000 [1; 2; 3] 0 0 [] = None.
Proof.
  apply (createBatches_zero_size_diverges [1; 2; 3] 1000). simpl. lia.
Defined.

(** ** More on recommendations *)

Lemma filter_catalog_sublist recs :
  forall kept, filter_catalog recs = Ok kept -> sublist kept recs.
Proof.
  induction recs as [| rec rest IH]; intros kept H; simpl in H.
  - injection H as <-. constructor.
  - destruct (rec_in_catalog rec) as [keep | |]; try discriminate H.
    destruct (filter_catalog rest) as [kept' | |]; try discriminate H.
    injection H as <-. destruct keep.
    + apply sublist_skip. apply IH. reflexivity.
    + apply sublist_cons. apply IH. reflexivity.
Qed.

(** X9. The list [validateRecommendations] returns is taken from the
    [recommendations] array of the AI's answer, in the array's order: it
    holds no entry the AI did not give and never reorders entries. *)
Theorem validateRecommendations_keeps_order (answer : JVal) (recs : list JVal) :
  validateRecommendations answer = Ok recs ->
  exists given,
    prop answer "recommendations" = Some (JArr given) /\
    sublist recs given.
Proof.
  unfold validateRecommendations, prop. intros H.
  destruct answer as [| b | z | s | l | m]; try discriminate H.
  destruct (m !! "recommendations") as [[| b | z | s | given | m'] |];
    try discriminate H.
  destruct (filter_catalog given) as [kept | |] eqn:Hf; try discriminate H.
  assert (recs = slice0 3 kept) as -> by congruence.
  exists given. split; [reflexivity |].
  transitivity kept; [apply sublist_take | apply filter_catalog_sublist; exact Hf].
Qed.

Lemma validateRecommendations_keeps_order_witness :
  let answer :=
    JObj (<["recommendations" :=
              JArr [soberpal_rec; JStr "yoga"; menowellness_rec]]> ∅) in
  exists given,
    prop answer "recommendations" = Some (JArr given) /\
    sublist [soberpal_rec; menowellness_rec] given.
Proof.
  cbv zeta.
  apply (validateRecommendations_keeps_order
           (JObj (<["recommendations" :=
                      JArr [soberpal_rec; JStr "yoga"; menowellness_rec]]> ∅))
           [soberpal_rec; menowellness_rec]).
  vm_compute. reflexivity.
Defined.

Lemma rec_app_differs app app' reason reason' priority priority' spouse spouse' :
  app <> app' ->
  mkRecommendation app reason priority spouse <>
  mkRecommendation app' reason' priority' spouse'.
Proof.
  intros Hne Heq. apply (f_equal (fun r => prop r "app")) in Heq.
  unfold mkRecommendation, prop in Heq. rewrite !lookup_insert_eq in Heq.
  congruence.
Qed.

Lemma age_rules_exclusive e : age_lt e 35 && age_gt e 45 = false.
Proof.
  unfold age_lt, age_gt. destruct (age e) as [a |]; [| reflexivity].
  destruct (a =? 0); simpl; [reflexivity |].
  destruct (Z.ltb_spec a 35), (Z.gtb_spec a 45); simpl; try reflexivity; lia.
Qed.

(** X10. The rule-based fallback recommends [soberpal] exactly when a
    health condition mentions addiction or alcohol, unless the profile
    already takes all three places: a woman over 45 with spouse access in a
    high-stress department gets [menowellness], [supportpartner] and
    [innerarchitect], and the addiction recommendation is cut off. *)
Theorem fallback_soberpal_unless_crowded_out (employee : Employee) :
  In soberpal_rec (getFallbackRecommendations employee) <->
  addiction_condition employee = true /\
  (age_gt employee 45 && str_is (gender employee) "female" &&
   includeSpouse employee && high_stress_department employee) = false.
Proof.
  pose proof (age_rules_exclusive employee) as Hex.
  unfold getFallbackRecommendations, soberpal_rec.
  destruct (age_lt employee 35), (age_gt employee 45); try discriminate Hex;
    destruct (str_is (maritalStatus employee) "married"),
             (str_is (gender employee) "female"),
             (includeSpouse employee),
             (high_stress_department employee),
             (addiction_condition employee);
    cbn [andb app slice0 firstn In];
    (split;
     [ intros H; repeat split; try reflexivity;
       repeat (destruct H as [H | H];
               [exfalso; revert H; apply rec_app_differs; discriminate |]);
       destruct H
     | intros [H1 H2]; try discriminate H1; try discriminate H2; tauto ]).
Qed.

(** ** More on provisioning *)

Lemma same_pair_pair_of employeeId app row :
  same_pair employeeId app row = true <-> pair_of row = (employeeId, app).
Proof.
  unfold same_pair, pair_of. rewrite andb_true_iff, !String.eqb_eq. split.
  - intros [-> ->]. reflexivity.
  - intros [= -> ->]. split; reflexivity.
Qed.

Lemma no_same_pair employeeId app rows :
  existsb (same_pair employeeId app) rows = false <->
  ~ In (employeeId, app) (map pair_of rows).
Proof.
  split.
  - intros Hex Hin. apply in_map_iff in Hin as (row & Hp & Hin).
    assert (Ht : existsb (same_pair employeeId app) rows = true)
      by (apply existsb_exists; exists row; split;
          [exact Hin | apply same_pair_pair_of; exact Hp]).
    congruence.
  - intros Hnot. destruct (existsb _ rows) eqn:Hex; [| reflexivity].
    exfalso. apply Hnot. apply existsb_exists in Hex as (row & Hin & Hp).
    apply same_pair_pair_of in Hp. rewrite <- Hp. apply in_map. exact Hin.
Qed.

(** The foreign key that a successful insert has passed. *)
Lemma createAppAssignment_employee tenantId employeeId rec w a w1 :
  createAppAssignment tenantId employeeId rec w = (Ok a, w1) ->
  (exists e, In e (employees w) /\ er_id e = employeeId) /\
  employees w1 = employees w.
Proof.
  intros H. unfold_create H. run_cases H.
  all: injection H as _ <-.
  all: split; [| reflexivity].
  all: match goal with
       | Hn : negb (existsb _ (employees _)) = false |- _ =>
           apply negb_false_iff, existsb_exists in Hn as (e & Hin & He);
           apply String.eqb_eq in He; exists e; split; assumption
       end.
Qed.

Lemma createAppAssignment_throw_world tenantId employeeId rec w e w1 :
  createAppAssignment tenantId employeeId rec w = (Throw e, w1) ->
  employees w1 = employees w.
Proof.
  intros H. unfold_create H. run_cases H.
  all: injection H as _ <-; reflexivity.
Qed.

(** One turn of the loop of [provisionAppAccess] writes nothing or one
    row. *)
Lemma provision_one_rows tenantId employeeId employee rec assignments w r w' :
  provision_one tenantId employeeId employee assignments rec w = (r, w') ->
  employees w' = employees w /\
  (app_assignments w' = app_assignments w \/
   exists row,
     app_assignments w' = app_assignments w ++ [row] /\
     provisioned_row employeeId row /\
     In (as_app_name row) validApps /\
     ~ In (pair_of row) (map pair_of (app_assignments w)) /\
     exists e, In e (employees w) /\ er_id e = employeeId).
Proof.
  intros H. unfold provision_one in H. unfold bind at 1 in H.
  unfold try_catch at 1 in H. unfold bind at 1 in H.
  destruct (createAppAssignment tenantId employeeId rec w) as [[a | e |] w1] eqn:Hc.
  - destruct (createAppAssignment_employee _ _ _ _ _ _ Hc) as [Hfk Hemp].
    apply createAppAssignment_ok in Hc
      as (app & row & _ & _ & Hvalid & Hfresh & Hrow & _ & Hw1).
    assert (Hw' : w' = w1).
    { unfold ret at 1 in H.
      unfold try_catch, bind, createSpouseAppAssignment, throw, provision_catch, ret in H.
      destruct (truthy_opt (prop rec "includeSpouse") &&
                truthy_str (spouseEmail employee));
        destruct rec; cbv beta iota in H; injection H as _ <-; reflexivity. }
    subst w'. split; [exact Hemp |]. right. exists row.
    split; [rewrite Hw1; reflexivity |].
    rewrite Hrow. unfold provisioned_row, pair_of.
    cbn [as_employee_id as_app_name as_access_level as_status
         as_assigned_to_spouse as_spouse_email].
    split; [repeat split |].
    split; [apply arr_includes_In; exact Hvalid |].
    split; [apply no_same_pair; exact Hfresh | exact Hfk].
  - pose proof (createAppAssignment_throw_world _ _ _ _ _ _ Hc) as Hemp.
    apply createAppAssignment_throw in Hc.
    assert (Hw' : w' = w1).
    { unfold provision_catch, ret, throw in H.
      destruct rec; cbv beta iota in H; injection H as _ <-; reflexivity. }
    subst w'. split; [exact Hemp |]. left. exact Hc.
  - exfalso. exact (createAppAssignment_returns _ _ _ _ _ Hc).
Qed.

Lemma assignments_consistent_step w w' row :
  assignments_consistent w ->
  employees w' = employees w ->
  app_assignments w' = app_assignments w ++ [row] ->
  In (as_app_name row) validApps ->
  ~ In (pair_of row) (map pair_of (app_assignments w)) ->
  (exists e, In e (employees w) /\ er_id e = as_employee_id row) ->
  assignments_consistent w'.
Proof.
  intros [Hu Hc Hk] Hemp Hrows Hin Hfresh Hfk. constructor; rewrite Hrows.
  - rewrite map_app. apply NoDup_app. split; [exact Hu |].
    split; [| apply NoDup_singleton].
    intros x Hx Hx'. apply list_elem_of_In in Hx, Hx'.
    destruct Hx' as [<- | []]. contradiction.
  - apply Forall_app. split; [exact Hc |]. constructor; [exact Hin | constructor].
  - rewrite Hemp. apply Forall_app. split; [exact Hk |].
    constructor; [exact Hfk | constructor].
Qed.

Lemma provision_loop_rows tenantId employeeId employee recs :
  forall assignments w r w',
    provision_loop tenantId employeeId employee assignments recs w = (r, w') ->
    employees w' = employees w /\
    (assignments_consistent w -> assignments_consistent w') /\
    exists rows,
      app_assignments w' = app_assignments w ++ rows /\
      (length rows <= length recs)%nat /\
      Forall (provisioned_row employeeId) rows.
Proof.
  induction recs as [| rec rest IH]; intros assignments w r w' H.
  - simpl in H. unfold ret in H. injection H as _ <-.
    split; [reflexivity |]. split; [tauto |].
    exists []. rewrite app_nil_r. repeat split; [simpl; lia | constructor].
  - cbn [provision_loop] in H. unfold bind in H.
    destruct (provision_one tenantId employeeId employee assignments rec w)
      as [[acc | e |] w1] eqn:Hone;
      apply provision_one_rows in Hone as [Hemp1 Hone].
    + apply IH in H as (Hemp & Hcons & rows & Hrows & Hlen & Hshape).
      split; [congruence |].
      destruct Hone as [Hsame | (row & Hrow & Hr & Hin & Hfresh & Hfk)].
      * split.
        -- intros Hc. apply Hcons. destruct Hc as [Hu Hcat Hk].
           constructor; rewrite Hsame; [exact Hu | exact Hcat |].
           rewrite Hemp1. exact Hk.
        -- exists rows. rewrite Hrows, Hsame. repeat split; [simpl; lia | exact Hshape].
      * split.
        -- intros Hc. apply Hcons.
           apply (assignments_consistent_step w w1 row Hc Hemp1 Hrow Hin Hfresh).
           destruct Hr as [-> _]. exact Hfk.
        -- exists (row :: rows). rewrite Hrows, Hrow, <- app_assoc.
           repeat split; [simpl; lia | constructor; assumption].
    + injection H as _ <-. split; [exact Hemp1 |].
      destruct Hone as [Hsame | (row & Hrow & Hr & Hin & Hfresh & Hfk)].
      * split.
        -- intros [Hu Hcat Hk]. constructor; rewrite Hsame; [exact Hu | exact Hcat |].
           rewrite Hemp1. exact Hk.
        -- exists []. rewrite app_nil_r. repeat split; [exact Hsame | simpl; lia | constructor].
      * split.
        -- intros Hc.
           apply (assignments_consistent_step w w1 row Hc Hemp1 Hrow Hin Hfresh).
           destruct Hr as [-> _]. exact Hfk.
        -- exists [row]. repeat split; [exact Hrow | simpl; lia |].
           constructor; [exact Hr | constructor].
    + injection H as _ <-. split; [exact Hemp1 |].
      destruct Hone as [Hsame | (row & Hrow & Hr & Hin & Hfresh & Hfk)].
      * split.
        -- intros [Hu Hcat Hk]. constructor; rewrite Hsame; [exact Hu | exact Hcat |].
           rewrite Hemp1. exact Hk.
        -- exists []. rewrite app_nil_r. repeat split; [exact Hsame | simpl; lia | constructor].
      * split.
        -- intros Hc.
           apply (assignments_consistent_step w w1 row Hc Hemp1 Hrow Hin Hfresh).
           destruct Hr as [-> _]. exact Hfk.
        -- exists [row]. repeat split; [exact Hrow | simpl; lia |].
           constructor; [exact Hr | constructor].
Qed.

(** X11. [provisionAppAccess] only ever appends to the assignment table:
    at most one row per recommendation, each for the given employee, with
    access level [basic], status [active] and no spouse attached; rows that
    were there are neither changed nor removed. *)
Theorem provisionAppAccess_only_appends
    (tenantId employeeId : string) (recommendations : list JVal)
    (employee : Employee) (w : World) :
  exists rows,
    app_assignments (snd (provisionAppAccess tenantId employeeId recommendations
                            employee w)) = app_assignments w ++ rows /\
    (length rows <= length recommendations)%nat /\
    Forall (provisioned_row employeeId) rows.
Proof.
  destruct (provisionAppAccess tenantId employeeId recommendations employee w)
    as [r w'] eqn:H.
  apply provision_loop_rows in H as (_ & _ & Hrows). exact Hrows.
Qed.

(** X12. [provisionAppAccess] keeps the assignment table consistent: if no
    employee has two rows for one app, every app name is of the catalog and
    every row belongs to an existing employee, the same holds afterwards,
    whatever the recommendations and however many inserts fail. *)
Theorem provisionAppAccess_keeps_table_consistent
    (tenantId employeeId : string) (recommendations : list JVal)
    (employee : Employee) (w : World) :
  assignments_consistent w ->
  assignments_consistent
    (snd (provisionAppAccess tenantId employeeId recommendations employee w)).
Proof.
  intros Hc.
  destruct (provisionAppAccess tenantId employeeId recommendations employee w)
    as [r w'] eqn:H.
  apply provision_loop_rows in H as (_ & Hcons & _). exact (Hcons Hc).
Qed.

Lemma provisionAppAccess_keeps_table_consistent_witness :
  assignments_consistent
    (snd (provisionAppAccess "t1" "e1"
            [menowellness_rec; menowellness_rec; supportpartner_rec]
            (employee_50 None) (sample_world None))).
Proof.
  apply (provisionAppAccess_keeps_table_consistent "t1" "e1"
           [menowellness_rec; menowellness_rec; supportpartner_rec]
           (employee_50 None) (sample_world None)).
  constructor; simpl; constructor.
Defined.

Lemma In_arr_includes arr s : In s arr -> arr_includes arr s = true.
Proof.
  intros Hin. unfold arr_includes. apply existsb_exists.
  exists s. split; [exact Hin | apply String.eqb_refl].
Qed.

(** When nothing stands in its way, [createAppAssignment] inserts. *)
Lemma createAppAssignment_succeeds tenantId employeeId rec app w :
  rec_app rec = Some (JStr app) ->
  In app validApps ->
  db_connected w = true ->
  (exists e, In e (employees w) /\ er_id e = employeeId) ->
  ~ In (employeeId, app) (map pair_of (app_assignments w)) ->
  exists row,
    createAppAssignment tenantId employeeId rec w =
      (Ok {| a_id := next_id w; a_app_name := app; a_access_level := "basic" |},
       set_assignments (app_assignments w ++ [row]) (S (next_id w))
         (log_query (InsertAssignment employeeId app) w)) /\
    pair_of row = (employeeId, app).
Proof.
  intros Happ Hin Hdb (e & He & Hid) Hfresh.
  unfold createAppAssignment. unfold rec_app in Happ.
  destruct rec as [| b | z | s | l | m]; try discriminate Happ.
  unfold prop in Happ |- *. rewrite Happ.
  unfold bind, db_query, insert_assignment, ret.
  rewrite Hdb. cbn [app_assignments log_query employees next_id].
  rewrite (In_arr_includes _ _ Hin). cbn [negb].
  rewrite (proj2 (no_same_pair employeeId app (app_assignments w)) Hfresh).
  assert (Hfk : existsb (fun e0 => String.eqb (er_id e0) employeeId) (employees w) = true)
    by (apply existsb_exists; exists e; split;
        [exact He | rewrite Hid; apply String.eqb_refl]).
  rewrite Hfk. cbn [negb]. eexists. split; reflexivity.
Qed.

Lemma provision_loop_all tenantId employeeId employee recs :
  forall assignments w,
    db_connected w = true ->
    (exists e, In e (employees w) /\ er_id e = employeeId) ->
    Forall in_catalog recs ->
    NoDup (map rec_app recs) ->
    (forall rec app, In rec recs -> rec_app rec = Some (JStr app) ->
                     ~ In (employeeId, app) (map pair_of (app_assignments w))) ->
    exists out w',
      provision_loop tenantId employeeId employee assignments recs w =
        (Ok (assignments ++ out), w') /\
      map (fun a => Some (JStr (a_app_name a))) out = map rec_app recs /\
      length (app_assignments w') = (length (app_assignments w) + length recs)%nat.
Proof.
  induction recs as [| rec rest IH]; intros assignments w Hdb Hfk Hcat Hnd Hfresh.
  - exists [], w. simpl. unfold ret. rewrite app_nil_r. repeat split. lia.
  - apply Forall_cons in Hcat as [(app & Happ & Hin) Hcat].
    change (rec_app rec = Some (JStr app)) in Happ.
    apply NoDup_cons in Hnd as [Hhead Hnd].
    destruct (createAppAssignment_succeeds tenantId employeeId rec app w Happ Hin Hdb Hfk)
      as (row & Hrun & Hpair);
      [apply (Hfresh rec app); [left; reflexivity | exact Happ] |].
    set (a := {| a_id := next_id w; a_app_name := app; a_access_level := "basic" |}) in *.
    set (w1 := set_assignments _ _ _) in Hrun.
    assert (Hone : provision_one tenantId employeeId employee assignments rec w =
                   (Ok (assignments ++ [a]), w1)).
    { unfold provision_one. unfold bind at 1. unfold try_catch at 1. unfold bind at 1.
      rewrite Hrun. unfold ret at 1. cbv beta iota.
      assert (Hobj : rec <> JNull) by (intros ->; discriminate Happ).
      destruct rec as [| b | z | s | l | m]; try contradiction;
        destruct (truthy_opt _ && truthy_str _); reflexivity. }
    destruct (IH (assignments ++ [a]) w1) as (out & w' & Hrest & Happs & Hlen);
      [exact Hdb | exact Hfk | exact Hcat | exact Hnd | |].
    + intros rec' app' Hin' Happ'. subst w1. cbn [app_assignments set_assignments].
      rewrite map_app, in_app_iff. intros [Hold | [Hnew | []]].
      * exact (Hfresh rec' app' (or_intror Hin') Happ' Hold).
      * rewrite Hpair in Hnew. injection Hnew as ->.
        apply Hhead. apply list_elem_of_In.
        replace (rec_app rec) with (rec_app rec') by congruence.
        apply in_map. exact Hin'.
    + exists (a :: out), w'. cbn [provision_loop]. unfold bind. rewrite Hone, Hrest.
      rewrite <- app_assoc. split; [reflexivity |].
      split; [simpl; rewrite Happs, Happ; reflexivity |].
      rewrite Hlen. subst w1. cbn [app_assignments set_assignments].
      rewrite length_app. simpl. lia.
Qed.

(** X13. With the database up and the employee on record, recommendations
    that name distinct catalog apps not yet assigned to the employee are all
    provisioned: [provisionAppAccess] returns one assignment per
    recommendation, in the order of the recommendations, and the table grows
    by as many rows. A spouse e-mail on the employee changes nothing to
    this. *)
Theorem provisionAppAccess_provisions_all
    (tenantId employeeId : string) (recommendations : list JVal)
    (employee : Employee) (w : World) :
  db_connected w = true ->
  (exists e, In e (employees w) /\ er_id e = employeeId) ->
  Forall in_catalog recommendations ->
  NoDup (map rec_app recommendations) ->
  (forall rec app, In rec recommendations -> rec_app rec = Some (JStr app) ->
                   ~ In (employeeId, app) (map pair_of (app_assignments w))) ->
  exists out w',
    provisionAppAccess tenantId employeeId recommendations employee w = (Ok out, w') /\
    map (fun a => Some (JStr (a_app_name a))) out = map rec_app recommendations /\
    length (app_assignments w') =
      (length (app_assignments w) + length recommendations)%nat.
Proof.
  intros Hdb Hfk Hcat Hnd Hfresh.
  destruct (provision_loop_all tenantId employeeId employee recommendations [] w
              Hdb Hfk Hcat Hnd Hfresh) as (out & w' & Hrun & Hrest).
  exists out, w'. split; [exact Hrun | exact Hrest].
Qed.

Lemma provisionAppAccess_provisions_all_witness :
  exists out w',
    provisionAppAccess "t1" "e1" [menowellness_rec; supportpartner_rec]
      (employee_50 None) (sample_world None) = (Ok out, w') /\
    map (fun a => Some (JStr (a_app_name a))) out =
      map rec_app [menowellness_rec; supportpartner_rec] /\
    length (app_assignments w') =
      (length (app_assignments (sample_world None)) +
       length [menowellness_rec; supportpartner_rec])%nat.
Proof.
  apply (provisionAppAccess_provisions_all "t1" "e1"
           [menowellness_rec; supportpartner_rec] (employee_50 None)
           (sample_world None)).
  - reflexivity.
  - eexists. split; [left; reflexivity | reflexivity].
  - repeat constructor; apply mkRecommendation_in_catalog; simpl; tauto.
  - vm_compute. repeat constructor; intros H; inversion H as [| ? ? ? H']; subst;
      try discriminate; inversion H'.
  - intros rec app _ _ H. destruct H.
Defined.

(** ** More on the job status *)

Lemma stored_batches_length w onboardingId n :
  forall i, (length (stored_batches w onboardingId i n) <= n)%nat.
Proof.
  induction n as [| n IH]; intros i; simpl; [lia |].
  specialize (IH (S i)).
  destruct (redis w !! batch_key onboardingId i); simpl; lia.
Qed.

(** What [getOnboardingStatus] has read when it returns. *)
Lemma getOnboardingStatus_ok tenantId onboardingId w status w' :
  getOnboardingStatus tenantId onboardingId w = (Ok status, w') ->
  redis_connected w = true /\
  redis w !! session_key onboardingId = Some (sessionData status) /\
  getOnboardingStatus tenantId onboardingId w =
    (let batchStatuses :=
       stored_batches w onboardingId 0
         (Z.to_nat (default 0 (d_totalBatches (sessionData status)))) in
     Ok {| sessionData := sessionData status;
           batchStatuses := batchStatuses;
           completedBatches := length (List.filter is_completed batchStatuses);
           totalProcessed :=
             fold_left (fun sum b => sum + default 0 (d_processedCount b))
                       batchStatuses 0;
           totalSuccessful :=
             fold_left (fun sum b => sum + default 0 (d_successCount b))
                       batchStatuses 0 |}, w).
Proof.
  intros H.
  destruct (redis_connected w) eqn:Hup.
  - destruct (redis w !! session_key onboardingId) as [session |] eqn:Hs.
    + pose proof (getOnboardingStatus_spec w tenantId onboardingId session Hup Hs) as Hspec.
      rewrite Hspec in H. cbv zeta in H. injection H as <- _.
      cbn [sessionData]. split; [reflexivity |]. split; [reflexivity | exact Hspec].
    + unfold getOnboardingStatus, bind, redis_get, throw in H.
      rewrite Hup, Hs in H. discriminate H.
  - unfold getOnboardingStatus, bind, redis_get, throw in H.
    rewrite Hup in H. discriminate H.
Qed.

(** X14. The status query is read-only, and its counts are bounded: the
    world is left as it was, and [completedBatches] is at most the number
    of batch records found, which is at most the [totalBatches] of the
    session. *)
Theorem getOnboardingStatus_reads_only
    (tenantId onboardingId : string) (w w' : World) (status : OnboardingStatus) :
  getOnboardingStatus tenantId onboardingId w = (Ok status, w') ->
  w' = w /\
  (completedBatches status <= length (batchStatuses status))%nat /\
  (length (batchStatuses status) <=
   Z.to_nat (default 0%Z (d_totalBatches (sessionData status))))%nat.
Proof.
  intros H. pose proof (getOnboardingStatus_ok _ _ _ _ _ H) as (_ & _ & Hspec).
  rewrite Hspec in H. cbv zeta in H. injection H as <- <-.
  cbn [completedBatches batchStatuses sessionData].
  split; [reflexivity |]. split.
  - generalize (stored_batches w onboardingId 0
                  (Z.to_nat (default 0 (d_totalBatches (sessionData status))))).
    intros l. induction l as [| b l IH]; simpl; [lia |].
    destruct (is_completed b); simpl; lia.
  - apply stored_batches_length.
Qed.

Lemma getOnboardingStatus_reads_only_witness :
  let w := two_batch_world (batch_doc "failed" None None) in
  exists status,
    fst (getOnboardingStatus "t1" "job1" w) = Ok status /\
    snd (getOnboardingStatus "t1" "job1" w) = w /\
    (completedBatches status <= length (batchStatuses status))%nat /\
    (length (batchStatuses status) <=
     Z.to_nat (default 0%Z (d_totalBatches (sessionData status))))%nat.
Proof.
  cbv zeta.
  destruct (getOnboardingStatus "t1" "job1"
              (two_batch_world (batch_doc "failed" None None)))
    as [[status | e |] w'] eqn:Hrun; try (vm_compute in Hrun; discriminate Hrun).
  exists status. split; [reflexivity |].
  exact (getOnboardingStatus_reads_only "t1" "job1" _ w' status Hrun).
Defined.

(** X15. The status route always answers and never changes the world. It
    answers 404, with the message "Onboarding session not found", exactly
    when Redis is down or holds no session under the identifier; otherwise
    it answers 200. *)
Theorem status_route_always_answers (tenantId onboardingId : string) (w : World) :
  exists reply,
    status_route tenantId onboardingId w = (Ok reply, w) /\
    (reply = Json404 "Onboarding session not found" <->
     redis_connected w = false \/ redis w !! session_key onboardingId = None) /\
    (reply <> Json404 "Onboarding session not found" ->
     exists body, reply = Json200 body).
Proof.
  unfold status_route, try_catch, bind.
  destruct (redis_connected w) eqn:Hup.
  - destruct (redis w !! session_key onboardingId) as [session |] eqn:Hs.
    + rewrite (getOnboardingStatus_spec w tenantId onboardingId session Hup Hs).
      cbv zeta. unfold ret. eexists. split; [reflexivity |]. split.
      * split; [discriminate | intros [H | H]; discriminate H].
      * intros _. eexists. reflexivity.
    + unfold getOnboardingStatus, bind, redis_get, throw, ret.
      rewrite Hup, Hs. eexists. split; [reflexivity |]. split.
      * split; [intros _; right; reflexivity | reflexivity].
      * intros H. contradiction.
  - unfold getOnboardingStatus, bind, redis_get, throw, ret.
    rewrite Hup. eexists. split; [reflexivity |]. split.
    + split; [intros _; left; reflexivity | reflexivity].
    + intros H. contradiction.
Qed.

(** X16. A session that has just been created reads back as [started]:
    with Redis up, the status query right after [createOnboardingSession]
    returns the tenant, the file name and size and the options given, the
    clock reading as start time, no batch record and zero counts. *)
Theorem created_session_reads_back
    (tenantId reader onboardingId : string) (csvFile : CsvFile) (options : JVal)
    (w : World) :
  redis_connected w = true ->
  let w1 := snd (createOnboardingSession tenantId onboardingId
                   (session_data csvFile options) w) in
  getOnboardingStatus reader onboardingId w1 =
    (Ok {| sessionData :=
             {| d_tenantId := Some tenantId; d_status := Some "started";
                d_startTime := Some (clock w (ticks w));
                d_filename := Some (originalname csvFile);
                d_fileSize := Some (size csvFile);
                d_options := Some options;
                d_totalEmployees := None; d_totalBatches := None;
                d_batchIds := None; d_error := None; d_lastUpdate := None;
                d_processedCount := None; d_successCount := None;
                d_processingTimeMs := None |};
           batchStatuses := []; completedBatches := 0;
           totalProcessed := 0; totalSuccessful := 0 |}, w1).
Proof.
  intros Hup w1. subst w1.
  unfold createOnboardingSession, bind, date_now, redis_setex, ret.
  cbn [redis_connected set_ticks]. rewrite Hup. cbn [snd].
  rewrite (getOnboardingStatus_spec _ reader onboardingId
             (spread
                {| d_tenantId := Some tenantId; d_status := Some "started";
                   d_startTime := Some (clock w (ticks w));
                   d_filename := None; d_fileSize := None; d_options := None;
                   d_totalEmployees := None; d_totalBatches := None;
                   d_batchIds := None; d_error := None; d_lastUpdate := None;
                   d_processedCount := None; d_successCount := None;
                   d_processingTimeMs := None |}
                (session_data csvFile options))).
  - reflexivity.
  - exact Hup.
  - cbn [redis set_redis]. apply lookup_insert_eq.
Qed.

Lemma created_session_reads_back_witness :
  let w := sample_world None in
  let w1 := snd (createOnboardingSession "t1" "job7"
                   (session_data (roster_file mixed_rows) dry_run_options) w) in
  getOnboardingStatus "t2" "job7" w1 =
    (Ok {| sessionData :=
             {| d_tenantId := Some "t1"; d_status := Some "started";
                d_startTime := Some (clock w (ticks w));
                d_filename := Some (originalname (roster_file mixed_rows));
                d_fileSize := Some (size (roster_file mixed_rows));
                d_options := Some dry_run_options;
                d_totalEmployees := None; d_totalBatches := None;
                d_batchIds := None; d_error := None; d_lastUpdate := None;
                d_processedCount := None; d_successCount := None;
                d_processingTimeMs := None |};
           batchStatuses := []; completedBatches := 0;
           totalProcessed := 0; totalSuccessful := 0 |}, w1).
Proof.
  apply (created_session_reads_back "t1" "t2" "job7" (roster_file mixed_rows)
           dry_run_options (sample_world None)).
  reflexivity.
Defined.

(** ** More on the upload *)

Lemma set_ticks_twice n m w : set_ticks n (set_ticks m w) = set_ticks n w.
Proof. reflexivity. Qed.

Lemma enqueue_batches_spec tenantId onboardingId options batches :
  forall index w,
    exists jobs,
      enqueue_batches tenantId onboardingId options index batches w =
        (Ok tt, set_queue (employeeQueue w ++ jobs) w) /\
      length jobs = length batches /\
      forall k batch, batches !! k = Some batch ->
        jobs !! k = Some (batch_job tenantId onboardingId options (index + k) batch).
Proof.
  induction batches as [| batch rest IH]; intros index w.
  - exists []. simpl. unfold ret. rewrite app_nil_r.
    split; [destruct w; reflexivity |]. split; [reflexivity |].
    intros k b H. discriminate H.
  - cbn [enqueue_batches]. unfold bind, queue_add.
    destruct (IH (S index)
                (set_queue
                   (employeeQueue w ++
                    [batch_job tenantId onboardingId options index batch]) w))
      as (jobs & Hrun & Hlen & Hjobs).
    exists (batch_job tenantId onboardingId options index batch :: jobs).
    unfold batch_job in Hrun at 1. rewrite Hrun.
    cbn [employeeQueue set_queue]. rewrite <- app_assoc.
    split; [reflexivity |]. split; [simpl; rewrite Hlen; reflexivity |].
    intros [| k] b Hk; simpl in Hk |- *.
    + injection Hk as <-. rewrite Nat.add_0_r. reflexivity.
    + rewrite (Hjobs k b Hk). do 2 f_equal. lia.
Qed.

(** [processCSVUpload] up to the end of validation. *)
Lemma upload_after_validation tenantId csvFile options w rows vr w2 :
  buffer csvFile = CsvRows rows ->
  validateEmployeeData rows tenantId (session_opened tenantId csvFile options w) =
    (Ok vr, w2) ->
  exists qs,
    w2 = log_queries qs (session_opened tenantId csvFile options w) /\
    errors vr = map error_line (invalidEmployees vr) /\
    processCSVUpload tenantId csvFile options w =
      try_catch
        (match errors vr with
         | _ :: _ => throw ("Validation failed: " +:+ join ", " (errors vr))
         | [] =>
             match createBatches (validEmployees vr) batchSize with
             | None => diverge
             | Some batches =>
                 _ <- enqueue_batches tenantId (upload_id tenantId w) options
                        0%nat batches ;;
                 _ <- updateOnboardingSession tenantId (upload_id tenantId w)
                        (processing_update (length (validEmployees vr))
                                           (length batches)) ;;
                 now <- date_now ;;
                 eta <- estimateCompletionTime (length (validEmployees vr)) ;;
                 ret {| r_onboardingId := upload_id tenantId w;
                        r_status := "processing";
                        r_totalEmployees := length (validEmployees vr);
                        r_totalBatches := length batches;
                        r_invalidRecords := length (invalidEmployees vr);
                        r_processingTimeMs := now - clock w (ticks w);
                        r_estimatedCompletionTime := eta |}
             end
         end)
        (upload_catch tenantId (upload_id tenantId w)) w2.
Proof.
  intros Hbuf Hval.
  destruct (validateEmployeeData_partitioned _ _ _ _ _ Hval) as (_ & Herr & _).
  destruct (validateEmployeeData_world _ _ _ _ _ Hval) as [qs Hqs].
  exists qs. split; [exact Hqs |]. split; [exact Herr |].
  rewrite processCSVUpload_unfold. unfold try_catch at 1 2. unfold upload_try.
  unfold bind at 1.
  destruct (createOnboardingSession_run tenantId (upload_id tenantId w)
              (session_data csvFile options) (set_ticks (S (S (ticks w))) w))
    as [-> _].
  rewrite Hbuf. unfold bind at 1. unfold parseCSV, ret at 1.
  unfold bind at 1. fold (session_opened tenantId csvFile options w).
  rewrite Hval. reflexivity.
Qed.

Lemma session_opened_frame tenantId csvFile options w :
  redis_connected (session_opened tenantId csvFile options w) = redis_connected w /\
  employeeQueue (session_opened tenantId csvFile options w) = employeeQueue w /\
  db_queries (session_opened tenantId csvFile options w) = db_queries w /\
  clock (session_opened tenantId csvFile options w) = clock w /\
  ticks (session_opened tenantId csvFile options w) = S (S (S (ticks w))) /\
  redis (session_opened tenantId csvFile options w) =
    (if redis_connected w
     then <[session_key (upload_id tenantId w) :=
              created_doc tenantId csvFile options (clock w (S (S (ticks w))))]>
            (redis w)
     else redis w).
Proof.
  unfold session_opened, createOnboardingSession, bind, date_now, redis_setex, ret.
  cbn [redis_connected set_ticks ticks clock].
  destruct (redis_connected w) eqn:Hup; cbn; rewrite ?Hup; repeat split.
Qed.

(** The run of an upload whose roster is accepted. *)
Lemma accepted_upload_run tenantId csvFile options w rows vr w2 :
  buffer csvFile = CsvRows rows ->
  validateEmployeeData rows tenantId (session_opened tenantId csvFile options w) =
    (Ok vr, w2) ->
  invalidEmployees vr = [] ->
  exists batches jobs response w3,
    createBatches (validEmployees vr) batchSize = Some batches /\
    processCSVUpload tenantId csvFile options w = (Ok response, w3) /\
    r_onboardingId response = upload_id tenantId w /\
    r_status response = "processing" /\
    r_totalBatches response = length batches /\
    r_totalEmployees response = length (validEmployees vr) /\
    r_invalidRecords response = 0%nat /\
    employeeQueue w3 = employeeQueue w ++ jobs /\
    length jobs = length batches /\
    (forall k batch, batches !! k = Some batch ->
       jobs !! k = Some (batch_job tenantId (upload_id tenantId w) options k batch)) /\
    redis_connected w3 = redis_connected w /\
    redis w3 =
      (if redis_connected w
       then <[session_key (upload_id tenantId w) :=
                with_lastUpdate
                  (spread (created_doc tenantId csvFile options
                             (clock w (S (S (ticks w)))))
                          (processing_update (length (validEmployees vr))
                                             (length batches)))
                  (clock w (S (S (S (ticks w)))))]> (redis w)
       else redis w).
Proof.
  intros Hbuf Hval Hnone.
  destruct (upload_after_validation _ _ _ _ _ _ _ Hbuf Hval) as (qs & Hw2 & Herr & Hrun).
  rewrite Hnone in Herr. simpl in Herr. rewrite Herr in Hrun.
  destruct (createBatches_loop_spec batchSize (validEmployees vr)
              ltac:(unfold batchSize; lia) (S (length (validEmployees vr))) 0 []
              ltac:(lia)) as (batches & Hbatches & _).
  assert (Hcb : createBatches (validEmployees vr) batchSize = Some batches)
    by exact Hbatches.
  rewrite Hcb in Hrun.
  destruct (enqueue_batches_spec tenantId (upload_id tenantId w) options batches 0 w2)
    as (jobs & Henq & Hlen & Hjobs).
  destruct (log_queries_frame qs (session_opened tenantId csvFile options w))
    as (_ & _ & _ & Hq & Hredis & Hup & Hticks & Hclock & _).
  rewrite <- Hw2 in Hq, Hredis, Hup, Hticks, Hclock.
  destruct (session_opened_frame tenantId csvFile options w)
    as (Hup0 & Hq0 & _ & Hclock0 & Hticks0 & Hredis0).
  rewrite Hup0 in Hup. rewrite Hq0 in Hq. rewrite Hclock0 in Hclock.
  rewrite Hticks0 in Hticks. rewrite Hredis0 in Hredis.
  exists batches, jobs.
  unfold try_catch, bind at 1 in Hrun. rewrite Henq in Hrun.
  unfold bind at 1 in Hrun.
  unfold updateOnboardingSession, bind at 1, redis_get in Hrun.
  cbn [redis_connected set_queue redis] in Hrun.
  destruct (redis_connected w) eqn:Hconn.
  - rewrite Hup, Hredis, lookup_insert_eq in Hrun.
    unfold bind, date_now, redis_setex, estimateCompletionTime, bind, date_now, ret in Hrun.
    cbn [redis_connected set_queue set_ticks redis ticks clock set_redis] in Hrun.
    rewrite Hup in Hrun.
    cbn [redis_connected set_queue set_ticks redis ticks clock set_redis] in Hrun.
    eexists _, _. split; [exact Hcb |]. split; [exact Hrun |].
    cbn. rewrite Hq, Hup, Hredis, Hticks, Hclock, insert_insert_eq, Hnone.
    repeat split; assumption.
  - rewrite Hup in Hrun.
    unfold bind, date_now, estimateCompletionTime, bind, date_now, ret in Hrun.
    cbn [redis_connected set_queue set_ticks redis ticks clock set_redis] in Hrun.
    eexists _, _. split; [exact Hcb |]. split; [exact Hrun |].
    cbn. rewrite Hq, Hup, Hredis, Hnone. repeat split; assumption.
Qed.

(** X17. An accepted upload, with Redis up, leaves exactly this behind: the
    queue is extended by one job per batch, the job of index [k] carrying
    batch [k], the tenant, the upload's identifier, the options and a delay
    of [k] seconds; the session record holds status [processing], the
    tenant, the file name and the totals; no other Redis key is touched. *)
Theorem accepted_upload_effects
    (w w2 : World) (tenantId : string) (csvFile : CsvFile) (options : JVal)
    (rows : list Employee) (vr : ValidationResult) :
  redis_connected w = true ->
  buffer csvFile = CsvRows rows ->
  validateEmployeeData rows tenantId (session_opened tenantId csvFile options w) =
    (Ok vr, w2) ->
  invalidEmployees vr = [] ->
  exists batches response w3 doc,
    createBatches (validEmployees vr) batchSize = Some batches /\
    processCSVUpload tenantId csvFile options w = (Ok response, w3) /\
    length (employeeQueue w3) = (length (employeeQueue w) + length batches)%nat /\
    (forall k, (k < length (employeeQueue w))%nat ->
               employeeQueue w3 !! k = employeeQueue w !! k) /\
    (forall k batch, batches !! k = Some batch ->
       employeeQueue w3 !! (length (employeeQueue w) + k)%nat =
       Some (batch_job tenantId (r_onboardingId response) options k batch)) /\
    redis w3 !! session_key (r_onboardingId response) = Some doc /\
    d_status doc = Some "processing" /\
    d_tenantId doc = Some tenantId /\
    d_filename doc = Some (originalname csvFile) /\
    d_totalEmployees doc = Some (Z.of_nat (length (validEmployees vr))) /\
    d_totalBatches doc = Some (Z.of_nat (length batches)) /\
    (forall key, key <> session_key (r_onboardingId response) ->
                 redis w3 !! key = redis w !! key).
Proof.
  intros Hup Hbuf Hval Hnone.
  destruct (accepted_upload_run _ _ _ _ _ _ _ Hbuf Hval Hnone)
    as (batches & jobs & response & w3 & Hcb & Hrun & Hid & _ & _ & _ & _ &
        Hq & Hlen & Hjobs & _ & Hredis).
  rewrite Hup in Hredis.
  exists batches, response, w3. eexists. split; [exact Hcb |].
  split; [exact Hrun |]. rewrite Hq, Hid, Hredis.
  split; [rewrite length_app, Hlen; reflexivity |].
  split; [intros k Hk; apply lookup_app_l; exact Hk |].
  split; [intros k batch Hk; rewrite lookup_app_r by lia;
          replace (length (employeeQueue w) + k - length (employeeQueue w))%nat
            with k by lia; exact (Hjobs k batch Hk) |].
  split; [apply lookup_insert_eq |].
  do 5 (split; [reflexivity |]).
  intros key Hkey. apply lookup_insert_ne. congruence.
Qed.

Lemma accepted_upload_effects_witness :
  let w := sample_world None in
  let csvFile := roster_file three_rows in
  exists vr,
    fst (validateEmployeeData three_rows "t1"
           (session_opened "t1" csvFile (JObj ∅) w)) = Ok vr /\
  exists batches response w3 doc,
    createBatches (validEmployees vr) batchSize = Some batches /\
    processCSVUpload "t1" csvFile (JObj ∅) w = (Ok response, w3) /\
    length (employeeQueue w3) = (length (employeeQueue w) + length batches)%nat /\
    (forall k, (k < length (employeeQueue w))%nat ->
               employeeQueue w3 !! k = employeeQueue w !! k) /\
    (forall k batch, batches !! k = Some batch ->
       employeeQueue w3 !! (length (employeeQueue w) + k)%nat =
       Some (batch_job "t1" (r_onboardingId response) (JObj ∅) k batch)) /\
    redis w3 !! session_key (r_onboardingId response) = Some doc /\
    d_status doc = Some "processing" /\
    d_tenantId doc = Some "t1" /\
    d_filename doc = Some (originalname csvFile) /\
    d_totalEmployees doc = Some (Z.of_nat (length (validEmployees vr))) /\
    d_totalBatches doc = Some (Z.of_nat (length batches)) /\
    (forall key, key <> session_key (r_onboardingId response) ->
                 redis w3 !! key = redis w !! key).
Proof.
  cbv zeta.
  destruct (validateEmployeeData three_rows "t1"
              (session_opened "t1" (roster_file three_rows) (JObj ∅) (sample_world None)))
    as [[vr | e |] w2] eqn:Hval; try (vm_compute in Hval; discriminate Hval).
  assert (Hnone : invalidEmployees vr = []).
  { assert (Hfst : fst (validateEmployeeData three_rows "t1"
                          (session_opened "t1" (roster_file three_rows) (JObj ∅)
                             (sample_world None))) = Ok vr)
      by (rewrite Hval; reflexivity).
    vm_compute in Hfst. injection Hfst as <-. reflexivity. }
  exists vr. split; [reflexivity |].
  apply (accepted_upload_effects (sample_world None) w2 "t1"
           (roster_file three_rows) (JObj ∅) three_rows vr);
    [reflexivity | reflexivity | exact Hval | exact Hnone].
Defined.

Lemma upload_catch_throws tenantId onboardingId message w :
  exists w',
    upload_catch tenantId onboardingId message w = (Throw message, w') /\
    employeeQueue w' = employeeQueue w /\
    db_queries w' = db_queries w /\
    redis_connected w' = redis_connected w /\
    redis w' =
      (if redis_connected w
       then match redis w !! session_key onboardingId with
            | Some session =>
                <[session_key onboardingId :=
                    with_lastUpdate (spread session (failed_update message))
                      (clock w (ticks w))]> (redis w)
            | None => redis w
            end
       else redis w).
Proof.
  unfold upload_catch, bind, updateOnboardingSession, bind, redis_get, date_now,
    redis_setex, throw, ret.
  destruct (redis_connected w) eqn:Hup.
  - destruct (redis w !! session_key onboardingId).
    + cbn [redis_connected set_ticks]. rewrite Hup. eexists.
      repeat split; try reflexivity; cbn; exact Hup.
    + eexists. repeat split; try reflexivity; exact Hup.
  - eexists. repeat split; try reflexivity; exact Hup.
Qed.





(** An upload that returns has gone through an accepted roster. *)
Lemma processCSVUpload_ok_inv tenantId csvFile options w response w' :
  processCSVUpload tenantId csvFile options w = (Ok response, w') ->
  exists rows vr w2,
    buffer csvFile = CsvRows rows /\
    validateEmployeeData rows tenantId (session_opened tenantId csvFile options w) =
      (Ok vr, w2) /\
    invalidEmployees vr = [].
Proof.
  intros H.
  destruct (buffer csvFile) as [message | rows] eqn:Hbuf.
  - exfalso. rewrite processCSVUpload_unfold in H. unfold try_catch, upload_try in H.
    unfold bind at 1 in H.
    destruct (createOnboardingSession_run tenantId (upload_id tenantId w)
                (session_data csvFile options) (set_ticks (S (S (ticks w))) w))
      as [Hc _].
    rewrite Hc, Hbuf in H. unfold bind at 1 in H. unfold parseCSV, throw at 1 in H.
    destruct (upload_catch_throws tenantId (upload_id tenantId w)
                ("CSV parsing failed: " +:+ message)
                (snd (createOnboardingSession tenantId (upload_id tenantId w)
                        (session_data csvFile options)
                        (set_ticks (S (S (ticks w))) w))))
      as (w1 & Hcatch & _).
    rewrite Hcatch in H. discriminate H.
  - destruct (validateEmployeeData rows tenantId
                (session_opened tenantId csvFile options w)) as [[vr | e |] w2] eqn:Hval.
    + exists rows, vr, w2. split; [reflexivity |]. split; [exact Hval |].
      destruct (upload_after_validation _ _ _ _ _ _ _ Hbuf Hval)
        as (qs & _ & Herr & Hrun).
      rewrite Hrun in H. unfold try_catch in H.
      destruct (errors vr) as [| line lines] eqn:Herrors.
      * destruct (invalidEmployees vr); [reflexivity | discriminate Herr].
      * exfalso. unfold throw at 1 in H.
        destruct (upload_catch_throws tenantId (upload_id tenantId w)
                    ("Validation failed: " +:+ join ", " (line :: lines)) w2)
          as (w1 & Hcatch & _).
        rewrite Hcatch in H. discriminate H.
    + exfalso. rewrite processCSVUpload_unfold in H.
      unfold try_catch, upload_try in H. unfold bind at 1 in H.
      destruct (createOnboardingSession_run tenantId (upload_id tenantId w)
                  (session_data csvFile options) (set_ticks (S (S (ticks w))) w))
        as [Hc _].
      rewrite Hc, Hbuf in H. unfold bind at 1 in H. unfold parseCSV, ret at 1 in H.
      unfold bind at 1 in H. fold (session_opened tenantId csvFile options w) in H.
      rewrite Hval in H.
      destruct (upload_catch_throws tenantId (upload_id tenantId w) e w2)
        as (w1 & Hcatch & _).
      rewrite Hcatch in H. discriminate H.
    + exfalso. rewrite processCSVUpload_unfold in H.
      unfold try_catch, upload_try in H. unfold bind at 1 in H.
      destruct (createOnboardingSession_run tenantId (upload_id tenantId w)
                  (session_data csvFile options) (set_ticks (S (S (ticks w))) w))
        as [Hc _].
      rewrite Hc, Hbuf in H. unfold bind at 1 in H. unfold parseCSV, ret at 1 in H.
      unfold bind at 1 in H. fold (session_opened tenantId csvFile options w) in H.
      rewrite Hval in H. discriminate H.
Qed.

Lemma validate_row_returns tenantId tenant st index r w w' :
  validate_row tenantId tenant st index r w <> (Diverge, w').
Proof.
  unfold validate_row. destruct (email_rule r (vs_emailSet st)) as [e1 S'].
  unfold bind, existing_rule, checkExistingEmployee, bind, db_query, capacity_rule,
    throw, ret.
  destruct (truthy_str (email r)); [destruct (db_connected w) |];
    destruct tenant; cbv beta iota; discriminate.
Qed.

Lemma validate_rows_returns tenantId tenant rows :
  forall st index w w',
    validate_rows tenantId tenant st index rows w <> (Diverge, w').
Proof.
  induction rows as [| r rest IH]; intros st index w w'; [discriminate |].
  cbn [validate_rows]. unfold bind.
  destruct (validate_row tenantId tenant st index r w) as [[st1 | e |] w1] eqn:Hrow.
  - apply IH.
  - discriminate.
  - exfalso. exact (validate_row_returns _ _ _ _ _ _ _ Hrow).
Qed.

Lemma validateEmployeeData_returns employees tenantId w w' :
  validateEmployeeData employees tenantId w <> (Diverge, w').
Proof.
  unfold validateEmployeeData, getTenantConfig. unfold bind at 1 2. unfold db_query.
  destruct (db_connected w); [| discriminate].
  cbv beta iota. unfold bind.
  destruct (validate_rows _ _ _ _ _ _) as [[st | e |] w1] eqn:Hrows;
    try discriminate.
  exfalso. exact (validate_rows_returns _ _ _ _ _ _ _ Hrows).
Qed.

(** [processCSVUpload] returns or throws. *)
Lemma processCSVUpload_returns tenantId csvFile options w w' :
  processCSVUpload tenantId csvFile options w <> (Diverge, w').
Proof.
  intros H.
  destruct (buffer csvFile) as [message | rows] eqn:Hbuf.
  - rewrite processCSVUpload_unfold in H. unfold try_catch, upload_try in H.
    unfold bind at 1 in H.
    destruct (createOnboardingSession_run tenantId (upload_id tenantId w)
                (session_data csvFile options) (set_ticks (S (S (ticks w))) w))
      as [Hc _].
    rewrite Hc, Hbuf in H. unfold bind at 1 in H. unfold parseCSV, throw at 1 in H.
    destruct (upload_catch_throws tenantId (upload_id tenantId w)
                ("CSV parsing failed: " +:+ message)
                (snd (createOnboardingSession tenantId (upload_id tenantId w)
                        (session_data csvFile options)
                        (set_ticks (S (S (ticks w))) w))))
      as (w1 & Hcatch & _).
    rewrite Hcatch in H. discriminate H.
  - destruct (validateEmployeeData rows tenantId
                (session_opened tenantId csvFile options w)) as [[vr | e |] w2] eqn:Hval.
    + destruct (invalidEmployees vr) as [| ie rest] eqn:Hinv.
      * destruct (accepted_upload_run _ _ _ _ _ _ _ Hbuf Hval Hinv)
          as (batches & jobs & response & w3 & _ & Hrun & _).
        rewrite Hrun in H. discriminate H.
      * destruct (upload_after_validation _ _ _ _ _ _ _ Hbuf Hval)
          as (qs & _ & Herr & Hrun).
        rewrite Hrun, Herr, Hinv in H. unfold try_catch in H.
        cbn [map] in H. unfold throw at 1 in H.
        destruct (upload_catch_throws tenantId (upload_id tenantId w)
                    ("Validation failed: " +:+
                     join ", " (error_line ie :: map error_line rest)) w2)
          as (w1 & Hcatch & _).
        rewrite Hcatch in H. discriminate H.
    + rewrite processCSVUpload_unfold in H.
      unfold try_catch, upload_try in H. unfold bind at 1 in H.
      destruct (createOnboardingSession_run tenantId (upload_id tenantId w)
                  (session_data csvFile options) (set_ticks (S (S (ticks w))) w))
        as [Hc _].
      rewrite Hc, Hbuf in H. unfold bind at 1 in H. unfold parseCSV, ret at 1 in H.
      unfold bind at 1 in H. fold (session_opened tenantId csvFile options w) in H.
      rewrite Hval in H.
      destruct (upload_catch_throws tenantId (upload_id tenantId w) e w2)
        as (w1 & Hcatch & _).
      rewrite Hcatch in H. discriminate H.
    + exact (validateEmployeeData_returns _ _ _ _ Hval).
Qed.

(** X20. The validation route always answers, and a 200 answer always says
    [valid: true] with [invalidRecords] 0 and [validRecords] equal to
    [totalRecords]: a roster with a rejected row never gets a 200 with the
    counts of its invalid rows, it gets a 400 carrying the error text. *)
Theorem validate_route_200_is_always_valid
    (tenantId : string) (file : option CsvFile) (w : World) :
  exists reply,
    fst (validate_route tenantId file w) = Ok reply /\
    forall body,
      reply = Validate200 body ->
      v_valid body = true /\
      v_invalidRecords body = 0%nat /\
      v_validRecords body = Z.of_nat (v_totalRecords body) /\
      v_warnings body = [].
Proof.
  unfold validate_route. destruct file as [file |].
  - unfold try_catch, bind.
    destruct (processCSVUpload tenantId file _ w) as [[result | e |] w'] eqn:Hrun.
    + destruct (processCSVUpload_ok_inv _ _ _ _ _ _ Hrun)
        as (rows & vr & w2 & Hbuf & Hval & Hnone).
      destruct (accepted_upload_run _ _ _ _ _ _ _ Hbuf Hval Hnone)
        as (batches & jobs & response & w3 & _ & Hrun' & _ & _ & _ & _ & Hinv & _).
      rewrite Hrun in Hrun'. injection Hrun' as -> _.
      unfold ret. eexists. split; [reflexivity |].
      intros body [= <-]. cbn. rewrite Hinv. repeat split. lia.
    + unfold ret. eexists. split; [reflexivity |]. intros body H. discriminate H.
    + exfalso. exact (processCSVUpload_returns _ _ _ _ _ Hrun).
  - unfold ret. eexists. split; [reflexivity |]. intros body H. discriminate H.
Qed.

(** ** The batch worker *)

Lemma same_store_refl w : same_store w w.
Proof. constructor; reflexivity. Qed.

Lemma same_store_trans w1 w2 w3 :
  same_store w1 w2 -> same_store w2 w3 -> same_store w1 w3.
Proof. intros [] []. constructor; congruence. Qed.

Lemma createAppAssignment_store tenantId employeeId rec w r w1 :
  createAppAssignment tenantId employeeId rec w = (r, w1) -> same_store w w1.
Proof.
  intros H. unfold_create H. run_cases H.
  all: injection H as _ <-; constructor; reflexivity.
Qed.

Lemma provision_one_store tenantId employeeId employee rec assignments w r w' :
  provision_one tenantId employeeId employee assignments rec w = (r, w') ->
  same_store w w' /\
  (rec <> JNull -> exists out, r = Ok out) /\
  (forall out, r = Ok out -> (length out <= S (length assignments))%nat).
Proof.
  intros H. unfold provision_one in H. unfold bind at 1 in H.
  unfold try_catch at 1 in H. unfold bind at 1 in H.
  destruct (createAppAssignment tenantId employeeId rec w) as [[a | e |] w1] eqn:Hc.
  - apply createAppAssignment_store in Hc.
    unfold ret at 1 in H.
    unfold try_catch, bind, createSpouseAppAssignment, throw, provision_catch, ret in H.
    destruct (truthy_opt (prop rec "includeSpouse") &&
              truthy_str (spouseEmail employee));
      destruct rec; cbv beta iota in H; injection H as <- <-;
      (split; [exact Hc |
       split; [intros Hn; try contradiction; eexists; reflexivity |
               intros out Hout; try discriminate Hout; injection Hout as <-;
               rewrite ?length_app; simpl; lia]]).
  - apply createAppAssignment_store in Hc.
    unfold provision_catch, ret, throw in H.
    destruct rec; cbv beta iota in H; injection H as <- <-;
      (split; [exact Hc |
       split; [intros Hn; try contradiction; eexists; reflexivity |
               intros out Hout; try discriminate Hout; injection Hout as <-;
               rewrite ?length_app; simpl; lia]]).
  - exfalso. exact (createAppAssignment_returns _ _ _ _ _ Hc).
Qed.

Lemma provision_loop_store tenantId employeeId employee recs :
  forall assignments w r w',
    provision_loop tenantId employeeId employee assignments recs w = (r, w') ->
    same_store w w' /\
    (Forall (fun rec => rec <> JNull) recs -> exists out, r = Ok out) /\
    (forall out, r = Ok out ->
                 (length out <= length assignments + length recs)%nat).
Proof.
  induction recs as [| rec rest IH]; intros assignments w r w' H.
  - simpl in H. unfold ret in H. injection H as <- <-.
    split; [apply same_store_refl |].
    split; [intros _; eexists; reflexivity |].
    intros out Hout. injection Hout as <-. simpl. lia.
  - cbn [provision_loop] in H. unfold bind in H.
    destruct (provision_one tenantId employeeId employee assignments rec w)
      as [[acc | e |] w1] eqn:Hone;
      apply provision_one_store in Hone as (Hs & Hok & Hlen).
    + apply IH in H as (Hs' & Hok' & Hlen').
      split; [exact (same_store_trans _ _ _ Hs Hs') |]. split.
      * intros Hall. apply Forall_cons in Hall as [_ Hall]. exact (Hok' Hall).
      * intros out Hout. specialize (Hlen' out Hout).
        specialize (Hlen acc eq_refl). simpl. lia.
    + injection H as <- <-. split; [exact Hs |]. split.
      * intros Hall. apply Forall_cons in Hall as [Hn _].
        destruct (Hok Hn) as [out Hout]. discriminate Hout.
      * intros out Hout. discriminate Hout.
    + injection H as <- <-. split; [exact Hs |]. split.
      * intros Hall. apply Forall_cons in Hall as [Hn _].
        destruct (Hok Hn) as [out Hout]. discriminate Hout.
      * intros out Hout. discriminate Hout.
Qed.

Lemma in_catalog_not_null rec : in_catalog rec -> rec <> JNull.
Proof. intros (app & H & _) ->. discriminate H. Qed.

Lemma filter_catalog_returns l : filter_catalog l <> Diverge.
Proof.
  induction l as [| r l IH]; simpl; [discriminate |].
  destruct (rec_in_catalog r) eqn:Hr.
  - destruct (filter_catalog l); try discriminate. contradiction.
  - discriminate.
  - destruct r; discriminate.
Qed.

Lemma validateRecommendations_returns v : validateRecommendations v <> Diverge.
Proof.
  unfold validateRecommendations.
  destruct v; try discriminate.
  destruct (m !! "recommendations") as [[| | | | l |] |]; try discriminate.
  destruct (filter_catalog l) eqn:Hf; try discriminate.
  exfalso. exact (filter_catalog_returns l Hf).
Qed.

Lemma getAppRecommendations_store employee tenantId w :
  exists recs w',
    getAppRecommendations employee tenantId w = (Ok recs, w') /\
    same_store w w' /\
    employees w' = employees w /\
    app_assignments w' = app_assignments w /\
    Forall (fun rec => rec <> JNull) recs /\
    (length recs <= 3)%nat.
Proof.
  unfold getAppRecommendations, try_catch, bind, claude_getAppRecommendations, lift, ret.
  destruct (ai_reply w (ai_calls w)) as [msg | v].
  - eexists _, _. split; [reflexivity |]. split; [constructor; reflexivity |].
    do 2 (split; [reflexivity |]).
    destruct (getFallbackRecommendations_sound employee) as [Hcat Hlen].
    split; [| exact Hlen].
    eapply Forall_impl; [exact Hcat |]. intros rec. apply in_catalog_not_null.
  - destruct (validateRecommendations v) as [recs | e |] eqn:Hv.
    + eexists _, _. split; [reflexivity |]. split; [constructor; reflexivity |].
      do 2 (split; [reflexivity |]).
      destruct (validateRecommendations_sound v _ Hv) as [Hcat Hlen].
      split; [| exact Hlen].
      eapply Forall_impl; [exact Hcat |]. intros rec. apply in_catalog_not_null.
    + eexists _, _. split; [reflexivity |]. split; [constructor; reflexivity |].
      do 2 (split; [reflexivity |]).
      destruct (getFallbackRecommendations_sound employee) as [Hcat Hlen].
      split; [| exact Hlen].
      eapply Forall_impl; [exact Hcat |]. intros rec. apply in_catalog_not_null.
    + exfalso. exact (validateRecommendations_returns v Hv).
Qed.

Lemma encrypt_call_run encryptPHI data tenantId employeeId w r w' :
  encrypt_call encryptPHI data tenantId employeeId w = (r, w') ->
  w' = w /\ r <> Diverge.
Proof.
  unfold encrypt_call, throw, ret.
  destruct (encryptPHI data tenantId employeeId); intros H; injection H as <- <-;
    split; (reflexivity || discriminate).
Qed.

Lemma insert_employee_store tenantId employee w r w' :
  insert_employee tenantId employee w = (r, w') ->
  same_store w w' /\ r <> Diverge /\
  (db_connected w = false -> w' = w /\ exists message, r = Throw message).
Proof.
  unfold insert_employee. intros H.
  destruct (db_connected w) eqn:Hdb; cbv beta iota in H; cbn [negb] in H.
  - run_cases H.
    all: injection H as <- <-.
    all: split; [constructor; reflexivity |]; split; [discriminate |].
    all: intros Hf; discriminate Hf.
  - injection H as <- <-.
    split; [constructor; reflexivity |]. split; [discriminate |].
    intros _. split; [reflexivity | eexists; reflexivity].
Qed.

Lemma createEmployeeRecord_store encryptPHI tenantId employee w r w' :
  createEmployeeRecord encryptPHI tenantId employee w = (r, w') ->
  same_store w w' /\ r <> Diverge /\
  (db_connected w = false -> w' = w /\ exists message, r = Throw message).
Proof.
  unfold createEmployeeRecord. unfold bind at 1. intros H.
  destruct (encrypt_call encryptPHI (firstName employee) tenantId (email employee) w)
    as [[c1 | e1 |] w1] eqn:H1; apply encrypt_call_run in H1 as [-> Hd1].
  - unfold bind at 1 in H.
    destruct (encrypt_call encryptPHI (lastName employee) tenantId (email employee) w)
      as [[c2 | e2 |] w2] eqn:H2; apply encrypt_call_run in H2 as [-> Hd2].
    + exact (insert_employee_store _ _ _ _ _ H).
    + injection H as <- <-. split; [apply same_store_refl |].
      split; [discriminate |]. intros _. split; [reflexivity | eexists; reflexivity].
    + contradiction.
  - injection H as <- <-. split; [apply same_store_refl |].
    split; [discriminate |]. intros _. split; [reflexivity | eexists; reflexivity].
  - contradiction.
Qed.

Lemma existsb_company_email tenantId e rows :
  existsb (fun r => String.eqb (er_company_id r) tenantId && String.eqb (er_email r) e)
          rows = false ->
  ~ In (tenantId, e) (map company_email rows).
Proof.
  induction rows as [| r rows IH]; simpl; [tauto |].
  intros H. apply orb_false_iff in H as [Hr Hrest].
  intros [Heq | Hin]; [| exact (IH Hrest Hin)].
  unfold company_email in Heq. injection Heq as H1 H2.
  rewrite H1, H2, !String.eqb_refl in Hr. discriminate Hr.
Qed.

Lemma existsb_er_id id rows :
  existsb (fun r => String.eqb (er_id r) id) rows = false ->
  ~ In id (map er_id rows).
Proof.
  induction rows as [| r rows IH]; simpl; [tauto |].
  intros H. apply orb_false_iff in H as [Hr Hrest].
  intros [Heq | Hin]; [| exact (IH Hrest Hin)].
  rewrite Heq, String.eqb_refl in Hr. discriminate Hr.
Qed.

(** What [createEmployeeRecord] does to the tables. *)
Lemma insert_employee_rows tenantId employee w r w' :
  insert_employee tenantId employee w = (r, w') ->
  ((exists message, r = Throw message) /\ w' = w) \/
  (exists row,
     r = Ok row /\
     employees w' = employees w ++ [row] /\
     app_assignments w' = app_assignments w /\
     er_company_id row = tenantId /\
     email employee = Some (er_email row) /\
     ~ In (company_email row) (map company_email (employees w)) /\
     ~ In (er_id row) (map er_id (employees w))).
Proof.
  unfold insert_employee. intros H.
  destruct (negb (db_connected w));
    [injection H as <- <-; left; split; [eexists |]; reflexivity |].
  destruct (email employee) as [e |];
    [| injection H as <- <-; left; split; [eexists |]; reflexivity].
  destruct (negb _);
    [injection H as <- <-; left; split; [eexists |]; reflexivity |].
  destruct (negb _);
    [injection H as <- <-; left; split; [eexists |]; reflexivity |].
  destruct (existsb _ (employees w)) eqn:Hunique in H;
    [injection H as <- <-; left; split; [eexists |]; reflexivity |].
  destruct (existsb _ (employees w)) eqn:Hpk in H;
    [injection H as <- <-; left; split; [eexists |]; reflexivity |].
  destruct (companies w !! tenantId);
    [| injection H as <- <-; left; split; [eexists |]; reflexivity].
  injection H as <- <-. right. eexists. split; [reflexivity |].
  cbn [employees app_assignments set_employees er_company_id er_email er_id].
  do 4 (split; [reflexivity |]). split.
  - exact (existsb_company_email _ _ _ Hunique).
  - exact (existsb_er_id _ _ Hpk).
Qed.

Lemma createEmployeeRecord_rows encryptPHI tenantId employee w r w' :
  createEmployeeRecord encryptPHI tenantId employee w = (r, w') ->
  ((exists message, r = Throw message) /\ w' = w) \/
  (exists row,
     r = Ok row /\
     employees w' = employees w ++ [row] /\
     app_assignments w' = app_assignments w /\
     er_company_id row = tenantId /\
     email employee = Some (er_email row) /\
     ~ In (company_email row) (map company_email (employees w)) /\
     ~ In (er_id row) (map er_id (employees w))).
Proof.
  unfold createEmployeeRecord. unfold bind at 1. intros H.
  destruct (encrypt_call encryptPHI (firstName employee) tenantId (email employee) w)
    as [[c1 | e1 |] w1] eqn:H1; apply encrypt_call_run in H1 as [-> Hd1].
  - unfold bind at 1 in H.
    destruct (encrypt_call encryptPHI (lastName employee) tenantId (email employee) w)
      as [[c2 | e2 |] w2] eqn:H2; apply encrypt_call_run in H2 as [-> Hd2].
    + exact (insert_employee_rows _ _ _ _ _ H).
    + injection H as <- <-. left. split; [eexists |]; reflexivity.
    + contradiction.
  - injection H as <- <-. left. split; [eexists |]; reflexivity.
  - contradiction.
Qed.

Lemma consistent_more_employees w w' :
  app_assignments w' = app_assignments w ->
  (forall e, In e (employees w) -> In e (employees w')) ->
  assignments_consistent w -> assignments_consistent w'.
Proof.
  intros Ha He [Hu Hc Hk]. constructor; rewrite Ha; [exact Hu | exact Hc |].
  eapply Forall_impl; [exact Hk |].
  intros row (e & Hin & Hid). exists e. split; [exact (He e Hin) | exact Hid].
Qed.

(** One turn of the loop of [processEmployeeBatch]: one more result, for
    this employee, and a notification exactly when it is a success. *)
Lemma process_employee_run encryptPHI tenantId onboardingId employee run w :
  exists res notes w',
    try_catch
      (process_employee_try encryptPHI tenantId onboardingId employee run)
      (process_employee_catch employee run) w =
    (Ok {| br_results := br_results run ++ [res];
           br_notifications := br_notifications run ++ notes |}, w') /\
    same_store w w' /\
    res_email res = email employee /\
    (res_status res = "success" \/ res_status res = "failed") /\
    length notes = length (List.filter is_success [res]) /\
    Forall (fun n => n_onboardingId n = onboardingId /\ n_tenantId n = tenantId /\
                     n_email n = email employee) notes /\
    (db_connected w = false -> w' = w /\ res_status res = "failed") /\
    ((res_status res = "failed" /\ notes = [] /\ w' = w) \/
     (exists row note arows,
        notes = [note] /\ created_for tenantId row res /\ notified_of row note /\
        employees w' = employees w ++ [row] /\
        app_assignments w' = app_assignments w ++ arows /\
        Forall (fun a => as_employee_id a = er_id row) arows /\
        (assignments_consistent w -> assignments_consistent w') /\
        ~ In (company_email row) (map company_email (employees w)) /\
        ~ In (er_id row) (map er_id (employees w)))).
Proof.
  unfold try_catch, process_employee_try. unfold bind at 1.
  destruct (createEmployeeRecord encryptPHI tenantId employee w)
    as [[record | e |] w1] eqn:Hrec;
    pose proof (createEmployeeRecord_rows _ _ _ _ _ _ Hrec) as Hrows;
    apply createEmployeeRecord_store in Hrec as (Hs1 & Hnd & Hdown).
  - destruct Hrows as [[[m Hm] _] | (row & Hrow & Hemp1 & Hass1 & Hco & Hmail & Hnew &
                                      Hpk)]; [discriminate Hm |].
    injection Hrow as <-.
    unfold bind at 1.
    destruct (getAppRecommendations_store employee tenantId w1)
      as (recs & w2 & Hrecs & Hs2 & Hemp2 & Hass2 & Hnn & Hlen3).
    rewrite Hrecs. unfold bind at 1.
    destruct (provisionAppAccess tenantId (er_id record) recs employee w2)
      as [r w3] eqn:Hprov.
    unfold provisionAppAccess in Hprov.
    pose proof (provision_loop_rows _ _ _ _ _ _ _ _ Hprov)
      as (Hemp3 & Hcons3 & arows & Hass3 & _ & Hshape).
    apply provision_loop_store in Hprov as (Hs3 & Hok & Hlen).
    destruct (Hok Hnn) as [out ->]. specialize (Hlen out eq_refl). simpl in Hlen.
    unfold ret.
    eexists _, [_], w3. split; [reflexivity |].
    split; [exact (same_store_trans _ _ _ Hs1 (same_store_trans _ _ _ Hs2 Hs3)) |].
    split; [reflexivity |]. split; [left; reflexivity |].
    split; [reflexivity |].
    split; [repeat constructor |].
    split; [intros Hdb; destruct (Hdown Hdb) as (_ & m & Hm); discriminate Hm |].
    right. eexists record, _, arows. split; [reflexivity |].
    split.
    { split; [reflexivity |]. split; [reflexivity |]. split; [exact Hmail |].
      split; [exact Hco |]. exists (length out). split; [reflexivity | lia]. }
    split.
    { split; [reflexivity |]. split; [exact Hmail |]. cbn. lia. }
    split; [congruence |]. split; [congruence |]. split.
    { eapply Forall_impl; [exact Hshape |]. intros a Ha. apply Ha. }
    split; [| split; assumption].
    intros Hc. apply Hcons3.
    apply (consistent_more_employees w1 w2); [exact Hass2 | rewrite Hemp2; tauto |].
    apply (consistent_more_employees w w1); [exact Hass1 | | exact Hc].
    intros e He. rewrite Hemp1. apply in_or_app. left. exact He.
  - destruct Hrows as [[_ ->] | (row & Hrow & _)]; [| discriminate Hrow].
    unfold process_employee_catch, ret.
    eexists _, [], w. rewrite app_nil_r. split; [reflexivity |].
    split; [exact Hs1 |]. split; [reflexivity |]. split; [right; reflexivity |].
    split; [reflexivity |]. split; [constructor |].
    split; [intros _; split; reflexivity |].
    left. repeat split.
  - contradiction.
Qed.

Lemma ledger_nil tenantId w : batch_ledger tenantId w w [] [].
Proof.
  constructor; try tauto.
  - exists []. rewrite app_nil_r. repeat split; constructor.
  - exists []. rewrite app_nil_r. repeat split; constructor.
Qed.

Lemma ledger_failed tenantId w w' res rs notes :
  res_status res = "failed" ->
  batch_ledger tenantId w w' rs notes ->
  batch_ledger tenantId w w' (res :: rs) notes.
Proof.
  intros Hres [Hrows Hass Hu Hc]. constructor; try assumption.
  simpl. unfold is_success at 1. rewrite Hres. exact Hrows.
Qed.

Lemma ledger_created tenantId w w1 w' row res note arows rs notes :
  created_for tenantId row res ->
  notified_of row note ->
  employees w1 = employees w ++ [row] ->
  app_assignments w1 = app_assignments w ++ arows ->
  Forall (fun a => as_employee_id a = er_id row) arows ->
  (assignments_consistent w -> assignments_consistent w1) ->
  ~ In (company_email row) (map company_email (employees w)) ->
  ~ In (er_id row) (map er_id (employees w)) ->
  batch_ledger tenantId w1 w' rs notes ->
  batch_ledger tenantId w w' (res :: rs) (note :: notes).
Proof.
  intros Hres Hnote Hemp Hass Harows Hcons Hnew Hpk
    [(rows & Hrows & Hcreated & Hnotified) (arows' & Hass' & Harows') Hu Hc].
  constructor.
  - exists (row :: rows). rewrite Hrows, Hemp, <- app_assoc.
    split; [reflexivity |]. split; [| constructor; assumption].
    simpl. unfold is_success at 1. destruct Hres as [Hst Hres']. rewrite Hst.
    constructor; [split; assumption | exact Hcreated].
  - exists (arows ++ arows'). rewrite Hass', Hass, <- app_assoc.
    split; [reflexivity |]. apply Forall_app. split.
    + eapply Forall_impl; [exact Harows |]. intros a Ha. exists row.
      split; [rewrite Hrows, Hemp; apply in_or_app; left; apply in_or_app; right;
              left; reflexivity |].
      split; [| symmetry; exact Ha].
      intros Hin. apply Hpk. apply in_map. exact Hin.
    + eapply Forall_impl; [exact Harows' |]. intros a (e & Hin & Hnin & Hid).
      exists e. split; [exact Hin |]. split; [| exact Hid].
      intros He. apply Hnin. rewrite Hemp. apply in_or_app. left. exact He.
  - intros [Hu1 Hu2]. apply Hu. constructor; rewrite Hemp, map_app.
    + apply NoDup_app. split; [exact Hu1 |]. split; [| apply NoDup_singleton].
      intros x Hx Hx'. apply list_elem_of_In in Hx, Hx'.
      destruct Hx' as [<- | []]. contradiction.
    + apply NoDup_app. split; [exact Hu2 |]. split; [| apply NoDup_singleton].
      intros x Hx Hx'. apply list_elem_of_In in Hx, Hx'.
      destruct Hx' as [<- | []]. contradiction.
  - intros H. apply Hc, Hcons, H.
Qed.

Lemma process_employees_run encryptPHI tenantId onboardingId employees :
  forall run w,
    exists rs notes w',
      process_employees encryptPHI tenantId onboardingId employees run w =
      (Ok {| br_results := br_results run ++ rs;
             br_notifications := br_notifications run ++ notes |}, w') /\
      same_store w w' /\
      map res_email rs = map email employees /\
      Forall (fun r => res_status r = "success" \/ res_status r = "failed") rs /\
      length notes = length (List.filter is_success rs) /\
      Forall (fun n => n_onboardingId n = onboardingId /\ n_tenantId n = tenantId) notes /\
      (db_connected w = false ->
       w' = w /\ Forall (fun r => res_status r = "failed") rs) /\
      batch_ledger tenantId w w' rs notes.
Proof.
  induction employees as [| employee rest IH]; intros run w.
  - exists [], [], w. simpl. unfold ret. rewrite !app_nil_r.
    split; [destruct run; reflexivity |].
    split; [apply same_store_refl |].
    split; [reflexivity |]. split; [constructor |]. split; [reflexivity |].
    split; [constructor |]. split; [intros _; split; [reflexivity | constructor] |].
    apply ledger_nil.
  - cbn [process_employees]. unfold bind.
    destruct (process_employee_run encryptPHI tenantId onboardingId employee run w)
      as (res & notes1 & w1 & Hrun1 & Hs1 & Hmail & Hst & Hlen1 & Hn1 & Hdown1 & Hstep).
    rewrite Hrun1.
    destruct (IH {| br_results := br_results run ++ [res];
                    br_notifications := br_notifications run ++ notes1 |} w1)
      as (rs & notes & w2 & Hrun2 & Hs2 & Hmails & Hsts & Hlen2 & Hn2 & Hdown2 &
          Hledger).
    rewrite Hrun2. cbn [br_results br_notifications].
    exists (res :: rs), (notes1 ++ notes), w2.
    split; [rewrite <- !app_assoc; reflexivity |].
    split; [exact (same_store_trans _ _ _ Hs1 Hs2) |].
    split; [simpl; rewrite Hmail, Hmails; reflexivity |].
    split; [constructor; assumption |].
    split.
    { rewrite length_app, Hlen1, Hlen2. simpl.
      destruct (is_success res); reflexivity. }
    split.
    { apply Forall_app. split; [| exact Hn2].
      eapply Forall_impl; [exact Hn1 |]. intros n (H1 & H2 & _). split; assumption. }
    split.
    { intros Hdb. destruct (Hdown1 Hdb) as [-> Hf].
      destruct (Hdown2 Hdb) as [-> Hfs]. split; [reflexivity |].
      constructor; assumption. }
    destruct Hstep as [(Hfailed & -> & ->) |
                       (row & note & arows & -> & Hres & Hnote & Hemp & Hass & Harows &
                        Hcons & Hnew & Hpk)].
    + apply ledger_failed; assumption.
    + exact (ledger_created tenantId w w1 w2 row res note arows rs notes Hres Hnote
               Hemp Hass Harows Hcons Hnew Hpk Hledger).
Qed.

Lemma batch_ledger_ext tenantId w w' v v' rs notes :
  employees v = employees w ->
  app_assignments v = app_assignments w ->
  employees v' = employees w' ->
  app_assignments v' = app_assignments w' ->
  batch_ledger tenantId w w' rs notes ->
  batch_ledger tenantId v v' rs notes.
Proof.
  intros He Ha He' Ha' [Hrows Hass Hu Hc].
  constructor; rewrite ?He, ?Ha, ?He', ?Ha'; try assumption.
  - intros [H1 H2]. rewrite He in H1, H2. destruct (Hu (Build_employees_unique w H1 H2))
      as [H1' H2']. constructor; rewrite He'; assumption.
  - intros [H1 H2 H3]. rewrite Ha in H1, H2, H3. rewrite He in H3.
    destruct (Hc (Build_assignments_consistent w H1 H2 H3)) as [H1' H2' H3'].
    constructor; rewrite Ha'; try assumption. rewrite He'. exact H3'.
Qed.

(** The whole run of [processEmployeeBatch]. *)
Lemma processEmployeeBatch_run encryptPHI tenantId onboardingId batchIndex employees
    options notificationQueue w :
  exists rs notes w',
    processEmployeeBatch encryptPHI tenantId onboardingId batchIndex employees
      options notificationQueue w = (Ok (rs, notificationQueue ++ notes), w') /\
    map res_email rs = map email employees /\
    Forall (fun r => res_status r = "success" \/ res_status r = "failed") rs /\
    length notes = length (List.filter is_success rs) /\
    Forall (fun n => n_onboardingId n = onboardingId /\ n_tenantId n = tenantId) notes /\
    (db_connected w = false -> Forall (fun r => res_status r = "failed") rs) /\
    db_connected w' = db_connected w /\
    redis_connected w' = redis_connected w /\
    clock w' = clock w /\
    ticks w' = S (S (ticks w)) /\
    employeeQueue w' = employeeQueue w /\
    redis w' =
      (if redis_connected w
       then <[batch_key onboardingId batchIndex :=
                completed_status (length employees)
                  (length (List.filter is_success rs))
                  (clock w (S (ticks w)) - clock w (ticks w))]> (redis w)
       else redis w) /\
    batch_ledger tenantId w w' rs notes.
Proof.
  unfold processEmployeeBatch. unfold bind at 1. unfold date_now at 1.
  unfold try_catch. unfold bind at 1.
  destruct (process_employees_run encryptPHI tenantId onboardingId employees
              {| br_results := []; br_notifications := notificationQueue |}
              (set_ticks (S (ticks w)) w))
    as (rs & notes & w1 & Hrun & [Hredis Hup Hclock Hticks Hq Hbase] & Hmails & Hsts &
        Hlen & Hn & Hdown & Hledger).
  rewrite Hrun. cbn [br_results br_notifications app].
  cbn [redis redis_connected clock ticks employeeQueue db_connected set_ticks] in *.
  unfold bind, date_now, updateBatchStatus, bind, redis_setex, ret.
  cbn [redis redis_connected clock ticks employeeQueue set_ticks].
  assert (Hn' : length rs = length employees).
  { rewrite <- (length_map res_email rs), Hmails. apply length_map. }
  rewrite Hup, Hclock, Hticks, Hn'.
  exists rs, notes.
  destruct (redis_connected w) eqn:Hconn; cbn [fst snd].
  - eexists. split; [reflexivity |].
    cbn [redis redis_connected clock ticks employeeQueue db_connected set_ticks
         set_redis].
    rewrite ?Hredis, ?Hq, ?Hup, ?Hclock, ?Hticks, ?Hbase.
    do 11 (split; [first [assumption | reflexivity
                         | exact (fun Hdb => proj2 (Hdown Hdb))] |]).
    eapply batch_ledger_ext; [.. | exact Hledger]; reflexivity.
  - eexists. split; [reflexivity |].
    cbn [redis redis_connected clock ticks employeeQueue db_connected set_ticks
         set_redis].
    rewrite ?Hredis, ?Hq, ?Hup, ?Hclock, ?Hticks, ?Hbase.
    do 11 (split; [first [assumption | reflexivity
                         | exact (fun Hdb => proj2 (Hdown Hdb))] |]).
    eapply batch_ledger_ext; [.. | exact Hledger]; reflexivity.
Qed.

(** ** The queue processor *)

Lemma batch_key_inj onboardingId i j :
  batch_key onboardingId i = batch_key onboardingId j -> i = j.
Proof.
  unfold batch_key. intros H.
  apply (inj (String.app "batch:")) in H.
  apply (inj (String.app onboardingId)) in H.
  apply (inj (String.app ":")) in H.
  exact (inj pretty _ _ H).
Qed.

Lemma batch_key_not_session onboardingId i other :
  batch_key onboardingId i <> session_key other.
Proof. unfold batch_key, session_key. simpl. discriminate. Qed.

Lemma filter_is_success_le rs :
  (length (List.filter is_success rs) <= length rs)%nat.
Proof.
  induction rs as [| r rs IH]; simpl; [lia |].
  destruct (is_success r); simpl; lia.
Qed.

Lemma attempt_job_run encryptPHI job attempts notificationQueue w :
  (0 < attempts)%nat ->
  exists record notes w',
    attempt_job encryptPHI job attempts notificationQueue w =
      (Ok (notificationQueue ++ notes), w') /\
    job_done job record /\
    d_successCount record = Some (Z.of_nat (length notes)) /\
    (db_connected w = false -> notes = []) /\
    db_connected w' = db_connected w /\
    redis_connected w' = redis_connected w /\
    employeeQueue w' = employeeQueue w /\
    redis w' =
      (if redis_connected w then <[job_key job := record]> (redis w) else redis w).
Proof.
  intros Hpos. destruct attempts as [| remaining]; [lia |].
  cbn [attempt_job]. unfold try_catch, bind.
  destruct (processEmployeeBatch_run encryptPHI (job_tenantId job)
              (job_onboardingId job) (job_batchIndex job) (job_employees job)
              (job_options job) notificationQueue w)
    as (rs & notes & w' & Hrun & Hmails & _ & Hlen & _ & Hdown & Hdb & Hup & _ & _ &
        Hq & Hredis & _).
  rewrite Hrun. unfold ret. cbn [snd].
  eexists _, notes, w'. split; [reflexivity |].
  split; [| split; [| split; [| split; [exact Hdb |
          split; [exact Hup | split; [exact Hq | exact Hredis]]]]]].
  - split; [reflexivity |]. split; [reflexivity |].
    exists (length (List.filter is_success rs)). split; [reflexivity |].
    rewrite <- (length_map email (job_employees job)), <- Hmails, length_map.
    apply filter_is_success_le.
  - cbn. rewrite Hlen. reflexivity.
  - intros Hf. specialize (Hdown Hf).
    assert (Hz : length (List.filter is_success rs) = 0%nat).
    { clear - Hdown. induction Hdown as [| r rs Hr _ IH]; [reflexivity |].
      simpl. unfold is_success at 1. rewrite Hr. exact IH. }
    rewrite Hz in Hlen. destruct notes; [reflexivity | discriminate Hlen].
Qed.

Lemma total_app field l1 l2 :
  total field (l1 ++ l2) = total field l1 + total field l2.
Proof.
  unfold total. rewrite fold_left_app.
  generalize (fold_left (fun sum b => sum + default 0 (field b)) l1 0). intros a.
  revert a. induction l2 as [| b l2 IH]; intros a; simpl; [lia |].
  rewrite (IH (a + default 0 (field b))), (IH (0 + default 0 (field b))). lia.
Qed.

Lemma total_cons field b l :
  total field (b :: l) = default 0 (field b) + total field l.
Proof. exact (total_app field [b] l). Qed.

Lemma total_perm field l l' :
  Permutation l l' -> total field l = total field l'.
Proof.
  induction 1 as [| b l l' _ IH | b c l | l l' l'' _ IH1 _ IH2].
  - reflexivity.
  - rewrite !total_cons, IH. reflexivity.
  - rewrite !total_cons. lia.
  - congruence.
Qed.

(** The run of the processor over a list of jobs, with Redis up. *)
Lemma run_jobs_run encryptPHI jobs :
  forall notificationQueue w,
    redis_connected w = true ->
    Forall (fun job => 0 < job_attempts job) jobs ->
    exists records notes w',
      run_jobs encryptPHI jobs notificationQueue w =
        (Ok (notificationQueue ++ notes), w') /\
      Forall2 job_done jobs records /\
      total d_successCount records = Z.of_nat (length notes) /\
      (db_connected w = false -> notes = []) /\
      redis_connected w' = true /\
      employeeQueue w' = employeeQueue w /\
      (forall key, ~ In key (map job_key jobs) -> redis w' !! key = redis w !! key) /\
      (NoDup (map job_key jobs) ->
       forall i job record, jobs !! i = Some job -> records !! i = Some record ->
                            redis w' !! job_key job = Some record).
Proof.
  induction jobs as [| job rest IH]; intros queue w Hup Hatt.
  - exists [], [], w. simpl. unfold ret. rewrite app_nil_r.
    split; [reflexivity |]. split; [constructor |]. split; [reflexivity |].
    split; [reflexivity |]. split; [exact Hup |]. split; [reflexivity |].
    split; [reflexivity |]. intros _ i job record H. discriminate H.
  - apply Forall_cons in Hatt as [Hjob Hrest].
    cbn [run_jobs]. unfold bind.
    destruct (attempt_job_run encryptPHI job (Z.to_nat (job_attempts job)) queue w)
      as (record & notes1 & w1 & Hrun1 & Hdone & Hsucc & Hdown1 & Hdb1 & Hup1 & Hq1 &
          Hredis1); [lia |].
    rewrite Hrun1. rewrite Hup in Hup1, Hredis1.
    destruct (IH (queue ++ notes1) w1 Hup1 Hrest)
      as (records & notes & w' & Hrun & Hall & Hsum & Hdown & Hup' & Hq & Hframe & Hkeys).
    rewrite Hrun.
    exists (record :: records), (notes1 ++ notes), w'.
    split; [rewrite app_assoc; reflexivity |].
    split; [constructor; assumption |].
    split; [rewrite total_cons, Hsum, Hsucc, length_app; simpl; lia |].
    split.
    { intros Hf. rewrite (Hdown1 Hf). apply Hdown. rewrite Hdb1. exact Hf. }
    split; [exact Hup' |]. split; [congruence |]. split.
    + intros key Hkey. simpl in Hkey.
      rewrite Hframe by tauto. rewrite Hredis1.
      apply lookup_insert_ne. intros Heq. apply Hkey. left. exact Heq.
    + intros Hnd. apply NoDup_cons in Hnd as [Hnew Hnd].
      intros [| i] j r Hj Hr; simpl in Hj, Hr.
      * injection Hj as <-. injection Hr as <-.
        rewrite Hframe, Hredis1; [apply lookup_insert_eq |].
        intros Hin. apply Hnew. apply list_elem_of_In. exact Hin.
      * exact (Hkeys Hnd i j r Hj Hr).
Qed.

(** The batch records under the keys of a job, when all are there. *)
Lemma stored_batches_all w onboardingId n :
  forall i,
    (forall k, (i <= k < i + n)%nat ->
               is_Some (redis w !! batch_key onboardingId k)) ->
    stored_batches w onboardingId i n =
    map (fun k => default empty_doc (redis w !! batch_key onboardingId k)) (seq i n).
Proof.
  induction n as [| n IH]; intros i H; simpl; [reflexivity |].
  destruct (H i) as [b Hb]; [lia |]. rewrite Hb. simpl. f_equal.
  apply IH. intros k Hk. apply H. lia.
Qed.


(** The jobs an accepted upload has queued, read off their positions. *)
Lemma jobs_of_batches tenantId onboardingId options batches :
  forall jobs index,
    length jobs = length batches ->
    (forall k batch, batches !! k = Some batch ->
       jobs !! k = Some (batch_job tenantId onboardingId options (index + k) batch)) ->
    map job_batchIndex jobs = seq index (length batches) /\
    map job_employees jobs = batches /\
    Forall (fun job => job_onboardingId job = onboardingId /\ 0 < job_attempts job) jobs.
Proof.
  induction batches as [| batch rest IH]; intros jobs index Hlen Hjobs.
  - destruct jobs; [| discriminate Hlen]. repeat split. constructor.
  - destruct jobs as [| job jobs]; [discriminate Hlen |].
    pose proof (Hjobs 0%nat batch eq_refl) as H0. simpl in H0.
    injection H0 as ->. rewrite Nat.add_0_r.
    destruct (IH jobs (S index)) as (Hidx & Hemp & Hall).
    + simpl in Hlen. lia.
    + intros k b Hk. pose proof (Hjobs (S k) b Hk) as HS. simpl in HS.
      rewrite HS. do 2 f_equal. lia.
    + simpl. rewrite Hidx, Hemp. repeat split.
      constructor; [split; [reflexivity | reflexivity] | exact Hall].
Qed.

Lemma job_keys jobs onboardingId :
  Forall (fun job => job_onboardingId job = onboardingId) jobs ->
  map job_key jobs = map (batch_key onboardingId) (map job_batchIndex jobs).
Proof.
  induction 1 as [| job jobs Hjob _ IH]; [reflexivity |].
  simpl. rewrite <- IH. unfold job_key at 1. rewrite Hjob. reflexivity.
Qed.

Lemma processed_total jobs records :
  Forall2 job_done jobs records ->
  total d_processedCount records =
  Z.of_nat (length (concat (map job_employees jobs))) /\
  Forall (fun record => is_completed record = true) records.
Proof.
  induction 1 as [| job record jobs records (Hst & Hp & _) _ [IH1 IH2]].
  - split; [reflexivity | constructor].
  - split.
    + rewrite total_cons, IH1, Hp. simpl. rewrite length_app. lia.
    + constructor; [| exact IH2]. unfold is_completed. rewrite Hst. reflexivity.
Qed.

Lemma records_by_index (g : nat -> Doc) jobs :
  forall records,
    length records = length jobs ->
    (forall i job record, jobs !! i = Some job -> records !! i = Some record ->
                          g (job_batchIndex job) = record) ->
    records = map g (map job_batchIndex jobs).
Proof.
  induction jobs as [| job jobs IH]; intros records Hlen H.
  - destruct records; [reflexivity | discriminate Hlen].
  - destruct records as [| record records]; [discriminate Hlen |].
    simpl. f_equal.
    + symmetry. exact (H 0%nat job record eq_refl eq_refl).
    + apply IH; [simpl in Hlen; lia |].
      intros i j r Hj Hr. exact (H (S i) j r Hj Hr).
Qed.

Lemma concat_length_perm {A} (l l' : list (list A)) :
  Permutation l l' -> length (concat l) = length (concat l').
Proof.
  induction 1 as [| x l l' _ IH | x y l | l l' l'' _ IH1 _ IH2]; simpl;
    rewrite ?length_app; lia.
Qed.

Lemma filter_all {A} (p : A -> bool) l :
  Forall (fun x => p x = true) l -> List.filter p l = l.
Proof.
  induction 1 as [| x l Hx _ IH]; [reflexivity |].
  simpl. rewrite Hx, IH. reflexivity.
Qed.

(** X22. From upload to completion. After an accepted upload of a roster
    that is not empty, let one worker process the jobs the upload has
    queued, one after the other and in any order, Redis being up and the
    session record still in place. Then every job returns, and the status
    route answers 200 with status [completed], [completedBatches] equal to
    the number of batches, [totalProcessed] equal to the number of
    employees of the roster, [totalSuccessful] equal to the number of
    welcome e-mails queued, and [totalFailed] the difference. Employees
    that could not be created do not stand in the way of [completed]: with
    the database down during processing no e-mail is queued,
    [totalSuccessful] is 0, and the status is [completed] all the same. *)
Theorem processed_upload_reports_completed
    (encryptPHI : Encryption) (tenantId reader : string) (csvFile : CsvFile)
    (options : JVal) (w w3 worker : World) (response : UploadResponse)
    (jobs : list QueueJob) (notificationQueue : list Notification) :
  redis_connected w = true ->
  processCSVUpload tenantId csvFile options w = (Ok response, w3) ->
  (0 < r_totalEmployees response)%nat ->
  Permutation jobs (drop (length (employeeQueue w)) (employeeQueue w3)) ->
  redis_connected worker = true ->
  redis worker = redis w3 ->
  exists notes w4 body,
    run_jobs encryptPHI jobs notificationQueue worker =
      (Ok (notificationQueue ++ notes), w4) /\
    status_route reader (r_onboardingId response) w4 = (Ok (Json200 body), w4) /\
    sr_status body = Some "completed" /\
    sr_completedBatches body = r_totalBatches response /\
    sr_totalProcessed body = Z.of_nat (r_totalEmployees response) /\
    sr_totalSuccessful body = Z.of_nat (length notes) /\
    sr_totalFailed body =
      Z.of_nat (r_totalEmployees response) - Z.of_nat (length notes) /\
    (db_connected worker = false -> notes = []).
Proof.
  intros Hup Hupload Hpos Hperm Hupw Hredisw.
  destruct (processCSVUpload_ok_inv _ _ _ _ _ _ Hupload)
    as (rows & vr & w2 & Hbuf & Hval & Hnone).
  destruct (accepted_upload_run _ _ _ _ _ _ _ Hbuf Hval Hnone)
    as (batches & jobs0 & response' & w3' & Hcb & Hrun' & Hid & _ & Htb & Hte & _ &
        Hq & Hlen & Hjobs & _ & Hredis3).
  rewrite Hupload in Hrun'. injection Hrun' as <- <-.
  rewrite Hup in Hredis3. rewrite Hq, drop_app_length in Hperm.
  rewrite Hid, Htb. rewrite Hte in Hpos |- *.
  set (id := upload_id tenantId w) in *.
  set (n := length batches) in *.
  (* the batches *)
  destruct (createBatches_loop_spec batchSize (validEmployees vr)
              ltac:(unfold batchSize; lia) (S (length (validEmployees vr))) 0 []
              ltac:(lia)) as (batches' & Hcb' & Hcat & Hn & _).
  unfold createBatches in Hcb. rewrite Hcb' in Hcb. simpl in Hcb.
  injection Hcb as ->. change (concat batches = validEmployees vr) in Hcat.
  fold n in Hn.
  assert (Hnpos : (0 < n)%nat).
  { rewrite Hn. apply Nat.div_str_pos. unfold batchSize. lia. }
  (* the jobs *)
  destruct (jobs_of_batches tenantId id options batches jobs0 0 Hlen Hjobs)
    as (Hidx0 & Hemp0 & Hall0). fold n in Hidx0.
  assert (Hall : Forall (fun job => job_onboardingId job = id /\ 0 < job_attempts job)
                        jobs).
  { rewrite Forall_forall in Hall0 |- *. intros job Hin. apply Hall0.
    rewrite <- Hperm. exact Hin. }
  assert (Hids : Forall (fun job => job_onboardingId job = id) jobs)
    by (eapply Forall_impl; [exact Hall |]; intros job H; apply H).
  assert (Hatt : Forall (fun job => 0 < job_attempts job) jobs)
    by (eapply Forall_impl; [exact Hall |]; intros job H; apply H).
  assert (Hidx : Permutation (map job_batchIndex jobs) (seq 0 n))
    by (rewrite <- Hidx0; apply Permutation_map; exact Hperm).
  assert (Hnd : NoDup (map job_key jobs)).
  { rewrite (job_keys jobs id Hids).
    change (NoDup (batch_key id <$> map job_batchIndex jobs)).
    apply NoDup_fmap_2; [intros i j; apply batch_key_inj |].
    rewrite Hidx. apply NoDup_seq. }
  (* the run *)
  destruct (run_jobs_run encryptPHI jobs notificationQueue worker Hupw Hatt)
    as (records & notes & w4 & Hrun & Hdone & Hsum & Hdown & Hup4 & _ & Hframe & Hkeys).
  specialize (Hkeys Hnd).
  exists notes, w4.
  set (g := fun k => default empty_doc (redis w4 !! batch_key id k)).
  assert (Hrecords : records = map g (map job_batchIndex jobs)).
  { apply records_by_index.
    - symmetry. exact (Forall2_length _ _ _ Hdone).
    - intros i job record Hj Hr. unfold g.
      pose proof (Hkeys i job record Hj Hr) as Hk. unfold job_key in Hk.
      rewrite Forall_lookup in Hids. rewrite (Hids i job Hj) in Hk.
      rewrite Hk. reflexivity. }
  assert (Hstored : stored_batches w4 id 0 n = map g (seq 0 n)).
  { apply stored_batches_all. intros k Hk.
    assert (Hin : In k (map job_batchIndex jobs)).
    { apply (Permutation_in k (Permutation_sym Hidx)). apply in_seq. lia. }
    apply in_map_iff in Hin as (job & <- & Hin).
    apply list_elem_of_In, list_elem_of_lookup in Hin as [i Hj].
    destruct (lookup_lt_is_Some_2 records i) as [record Hr].
    { rewrite <- (Forall2_length _ _ _ Hdone). exact (lookup_lt_Some _ _ _ Hj). }
    pose proof (Hkeys i job record Hj Hr) as Hkey. unfold job_key in Hkey.
    rewrite Forall_lookup in Hids. rewrite (Hids i job Hj) in Hkey.
    rewrite Hkey. eexists. reflexivity. }
  assert (Hpermr : Permutation (stored_batches w4 id 0 n) records).
  { rewrite Hstored, Hrecords. apply Permutation_map, Permutation_sym, Hidx. }
  destruct (processed_total jobs records Hdone) as [Hproc Hcompl].
  assert (Hcompl' : Forall (fun record => is_completed record = true)
                           (stored_batches w4 id 0 n)).
  { rewrite Forall_forall in Hcompl |- *. intros record Hin. apply Hcompl.
    rewrite <- Hpermr. exact Hin. }
  assert (Hemployees : length (concat (map job_employees jobs)) =
                       length (validEmployees vr)).
  { rewrite <- Hcat, <- Hemp0.
    apply concat_length_perm, Permutation_map, Hperm. }
  (* the session record *)
  assert (Hsession : redis w4 !! session_key id =
                     Some (with_lastUpdate
                             (spread (created_doc tenantId csvFile options
                                        (clock w (S (S (ticks w)))))
                                     (processing_update
                                        (length (validEmployees vr)) n))
                             (clock w (S (S (S (ticks w))))))).
  { rewrite Hframe, Hredisw, Hredis3; [apply lookup_insert_eq |].
    intros Hin. apply in_map_iff in Hin as (job & Hkey & _).
    exact (batch_key_not_session _ _ _ Hkey). }
  unfold status_route, try_catch, bind.
  rewrite (getOnboardingStatus_spec w4 reader id _ Hup4 Hsession).
  cbv zeta. unfold ret. eexists. split; [exact Hrun |]. split; [reflexivity |].
  cbn [sr_status sr_completedBatches sr_totalProcessed sr_totalSuccessful
       sr_totalFailed overallStatus sessionData completedBatches totalProcessed
       totalSuccessful].
  assert (Htotal : d_totalBatches
                     (with_lastUpdate
                        (spread (created_doc tenantId csvFile options
                                   (clock w (S (S (ticks w)))))
                                (processing_update (length (validEmployees vr)) n))
                        (clock w (S (S (S (ticks w)))))) = Some (Z.of_nat n))
    by reflexivity.
  rewrite Htotal. change (default 0 (Some (Z.of_nat n))) with (Z.of_nat n).
  rewrite Nat2Z.id.
  rewrite (filter_all _ _ Hcompl'), Hstored, length_map, length_seq, <- Hstored.
  change (fold_left (fun sum b => sum + default 0 (d_processedCount b))
                    (stored_batches w4 id 0 n) 0)
    with (total d_processedCount (stored_batches w4 id 0 n)).
  change (fold_left (fun sum b => sum + default 0 (d_successCount b))
                    (stored_batches w4 id 0 n) 0)
    with (total d_successCount (stored_batches w4 id 0 n)).
  rewrite !(total_perm _ _ _ Hpermr), Hproc, Hsum, Hemployees.
  split.
  { unfold overallStatus. cbn [sessionData completedBatches]. rewrite Htotal.
    rewrite Z.eqb_refl.
    destruct (Z.gtb_spec (Z.of_nat n) 0) as [_ | Hle]; [reflexivity | lia]. }
  repeat split. exact Hdown.
Qed.

Lemma processed_upload_reports_completed_witness :
  let w := sample_world None in
  let csvFile := roster_file three_rows in
  let encryptPHI : Encryption := fun _ _ _ => inr JNull in
  exists response w3,
    processCSVUpload "t1" csvFile (JObj ∅) w = (Ok response, w3) /\
    (0 < r_totalEmployees response)%nat /\
    exists notes w4 body,
      run_jobs encryptPHI (employeeQueue w3) [] w3 = (Ok ([] ++ notes), w4) /\
      status_route "t2" (r_onboardingId response) w4 = (Ok (Json200 body), w4) /\
      sr_status body = Some "completed" /\
      sr_completedBatches body = r_totalBatches response /\
      sr_totalProcessed body = Z.of_nat (r_totalEmployees response) /\
      sr_totalSuccessful body = Z.of_nat (length notes) /\
      sr_totalFailed body =
        Z.of_nat (r_totalEmployees response) - Z.of_nat (length notes) /\
      (db_connected w3 = false -> notes = []).
Proof.
  cbv zeta.
  destruct (processCSVUpload "t1" (roster_file three_rows) (JObj ∅) (sample_world None))
    as [[response | e |] w3] eqn:Hrun; try (vm_compute in Hrun; discriminate Hrun).
  assert (Hpos : (0 < r_totalEmployees response)%nat).
  { assert (Hfst : fst (processCSVUpload "t1" (roster_file three_rows) (JObj ∅)
                          (sample_world None)) = Ok response)
      by (rewrite Hrun; reflexivity).
    vm_compute in Hfst. injection Hfst as <-. simpl. lia. }
  exists response, w3. split; [reflexivity |]. split; [exact Hpos |].
  assert (Hup : redis_connected w3 = true).
  { assert (Hsnd : snd (processCSVUpload "t1" (roster_file three_rows) (JObj ∅)
                          (sample_world None)) = w3)
      by (rewrite Hrun; reflexivity).
    rewrite <- Hsnd. vm_compute. reflexivity. }
  apply (processed_upload_reports_completed (fun _ _ _ => inr JNull) "t1" "t2"
           (roster_file three_rows) (JObj ∅) (sample_world None) w3 w3 response
           (employeeQueue w3) []);
    [reflexivity | exact Hrun | exact Hpos | apply Permutation_refl | exact Hup
    | reflexivity].
Defined.


Lemma created_row_of tenantId rows results :
  Forall2 (created_for tenantId) rows (List.filter is_success results) ->
  forall i res,
    results !! i = Some res -> res_status res = "success" ->
    exists row, In row rows /\ created_for tenantId row res.
Proof.
  intros H i res Hres Hst.
  assert (Hin : In res (List.filter is_success results)).
  { apply filter_In. split.
    - apply list_elem_of_In, list_elem_of_lookup. exists i. exact Hres.
    - unfold is_success. rewrite Hst. reflexivity. }
  clear - H Hin. induction H as [| row r rows rs Hr _ IH]; [contradiction |].
  destruct Hin as [<- | Hin].
  - exists row. split; [left; reflexivity | exact Hr].
  - destruct (IH Hin) as (row' & Hin' & Hr'). exists row'.
    split; [right; exact Hin' | exact Hr'].
Qed.

(** X24. No employee is created twice. Take a batch that has been
    processed, and process the same employees for the same tenant again,
    in any later state in which the employee table, still within its
    constraints, has kept the rows of the first run (a retry of the job, a
    second upload of the file). Then every employee that was a [success]
    in the first run is [failed] in the second, which has as many results
    as the first, under the same e-mails. *)
Theorem reprocessed_employees_fail
    (encryptPHI encryptPHI' : Encryption) (tenantId onboardingId onboardingId' : string)
    (batchIndex batchIndex' : nat) (batch : list Employee) (options options' : JVal)
    (queue queue' : list Notification) (w w1 v v1 : World)
    (first second : list EmployeeResult) (notes notes' : list Notification) :
  processEmployeeBatch encryptPHI tenantId onboardingId batchIndex batch
    options queue w = (Ok (first, notes), w1) ->
  (forall row, In row (employees w1) -> In row (employees v)) ->
  employees_unique v ->
  processEmployeeBatch encryptPHI' tenantId onboardingId' batchIndex' batch
    options' queue' v = (Ok (second, notes'), v1) ->
  length second = length first /\
  forall i r1 r2,
    first !! i = Some r1 -> second !! i = Some r2 ->
    res_status r1 = "success" ->
    res_status r2 = "failed" /\ res_email r2 = res_email r1.
Proof.
  intros Hrun1 Hkept Hunique Hrun2.
  destruct (processEmployeeBatch_run encryptPHI tenantId onboardingId batchIndex
              batch options queue w)
    as (rs1 & ns1 & w1' & Hrun1' & Hmails1 & _ & _ & _ & _ & _ & _ & _ & _ & _ & _ &
        [(rows1 & Hrows1 & Hcreated1 & _) _ _ _]).
  rewrite Hrun1 in Hrun1'. injection Hrun1' as -> _ ->.
  destruct (processEmployeeBatch_run encryptPHI' tenantId onboardingId' batchIndex'
              batch options' queue' v)
    as (rs2 & ns2 & v1' & Hrun2' & Hmails2 & Hsts2 & _ & _ & _ & _ & _ & _ & _ & _ & _ &
        [(rows2 & Hrows2 & Hcreated2 & _) _ Hu2 _]).
  rewrite Hrun2 in Hrun2'. injection Hrun2' as -> _ ->.
  split.
  { rewrite <- (length_map res_email rs2), Hmails2, <- Hmails1. apply length_map. }
  intros i r1 r2 H1 H2 Hst1.
  assert (Hmail : res_email r2 = res_email r1).
  { assert (Hm : map res_email rs2 = map res_email rs1) by congruence.
    apply (f_equal (fun l => l !! i)) in Hm.
    change (map res_email rs2) with (res_email <$> rs2) in Hm.
    change (map res_email rs1) with (res_email <$> rs1) in Hm.
    rewrite !list_lookup_fmap, H1, H2 in Hm. simpl in Hm. congruence. }
  split; [| exact Hmail].
  rewrite Forall_lookup in Hsts2. destruct (Hsts2 i r2 H2) as [Hst2 | Hst2];
    [exfalso | exact Hst2].
  destruct (created_row_of tenantId rows1 rs1 Hcreated1 i r1 H1 Hst1)
    as (row1 & Hin1 & _ & _ & Hm1 & Hc1 & _).
  destruct (created_row_of tenantId rows2 rs2 Hcreated2 i r2 H2 Hst2)
    as (row2 & Hin2 & _ & _ & Hm2 & Hc2 & _).
  assert (Hkey : company_email row1 = company_email row2).
  { unfold company_email. rewrite Hc1, Hc2. f_equal. congruence. }
  destruct (Hu2 Hunique) as [Hnd _]. rewrite Hrows2, map_app in Hnd.
  apply NoDup_app in Hnd as (_ & Hdisjoint & _).
  apply (Hdisjoint (company_email row1)).
  - apply list_elem_of_In, in_map, Hkept. rewrite Hrows1.
    apply in_or_app. right. exact Hin1.
  - rewrite Hkey. apply list_elem_of_In, in_map. exact Hin2.
Qed.

Lemma reprocessed_employees_fail_witness :
  let encryptPHI : Encryption := fun _ _ _ => inr JNull in
  let w := sample_world None in
  exists first notes w1 second notes' w2,
    processEmployeeBatch encryptPHI "t1" "job1" 0 three_rows (JObj ∅) [] w =
      (Ok (first, notes), w1) /\
    processEmployeeBatch encryptPHI "t1" "job1" 0 three_rows (JObj ∅) notes w1 =
      (Ok (second, notes'), w2) /\
    length second = length first /\
    forall i r1 r2,
      first !! i = Some r1 -> second !! i = Some r2 ->
      res_status r1 = "success" ->
      res_status r2 = "failed" /\ res_email r2 = res_email r1.
Proof.
  cbv zeta.
  destruct (processEmployeeBatch (fun _ _ _ => inr JNull) "t1" "job1" 0 three_rows
              (JObj ∅) [] (sample_world None))
    as [[[first notes] | e |] w1] eqn:Hrun1;
    try (vm_compute in Hrun1; discriminate Hrun1).
  destruct (processEmployeeBatch (fun _ _ _ => inr JNull) "t1" "job1" 0 three_rows
              (JObj ∅) notes w1)
    as [[[second notes'] | e |] w2] eqn:Hrun2.
  - exists first, notes, w1, second, notes', w2.
    split; [reflexivity |]. split; [exact Hrun2 |].
    apply (reprocessed_employees_fail (fun _ _ _ => inr JNull)
             (fun _ _ _ => inr JNull) "t1" "job1" "job1" 0 0 three_rows (JObj ∅)
             (JObj ∅) [] notes (sample_world None) w1 w1 w2 first second notes notes');
      [exact Hrun1 | tauto | | exact Hrun2].
    assert (Hsnd : snd (processEmployeeBatch (fun _ _ _ => inr JNull) "t1" "job1" 0
                          three_rows (JObj ∅) [] (sample_world None)) = w1)
      by (rewrite Hrun1; reflexivity).
    rewrite <- Hsnd. constructor; vm_compute; repeat constructor;
      rewrite ?list_elem_of_In; simpl; intuition discriminate.
  - exfalso.
    destruct (processEmployeeBatch_run (fun _ _ _ => inr JNull) "t1" "job1" 0
                three_rows (JObj ∅) notes w1) as (rs & ns & w' & Hrun & _).
    rewrite Hrun2 in Hrun. discriminate Hrun.
  - exfalso.
    destruct (processEmployeeBatch_run (fun _ _ _ => inr JNull) "t1" "job1" 0
                three_rows (JObj ∅) notes w1) as (rs & ns & w' & Hrun & _).
    rewrite Hrun2 in Hrun. discriminate Hrun.
Defined.
